(** * SCIM 2.0 / Active Directory bridge: a shallow embedding and its properties

    The development follows the TypeScript sources:
      - [scim/formatter.ts]      (error classifier, envelopes)
      - [scim/filter-parser.ts]  (the filter subset)
      - [scim/patch-applier.ts]  (PATCH operations, on a heap of shared objects)
      - [config/mapping.ts]      (SCIM <-> directory parameters)
      - [powershell.ts]          (script builders, executor, audit row)
      - [routes/scim/users.ts]   (the six request handlers)

    Modelling conventions.
      - A JavaScript string is a [string] of 8-bit characters; [toLowerCase]
        folds A-Z and white space is the ASCII white space.
      - A JSON number is an integer ([Z]).
      - An object is the list of its own enumerable properties in insertion
        order.  Members inherited from the built-in prototypes and the
        ascending order JavaScript gives to array-index keys are not modelled.
      - A run either returns, raises ([Throws]), or leaves the modelled
        fragment of the language ([Beyond]); nothing is claimed about the
        last case.
      - The outside world (the directory tool, the clock, the UUID source) is
        an explicit oracle record; the two tables are explicit state. *)

From Stdlib Require Import ZArith List String Ascii Bool Lia.
From stdpp Require Import base option list strings.
Import ListNotations.
Set Warnings "-register-all".
Local Open Scope string_scope.
Local Open Scope list_scope.

(* ===================================================================== *)
(** ** Strings *)
(* ===================================================================== *)

Module Str.

Definition code (c : ascii) : nat := nat_of_ascii c.

(** the double-quote character *)
Definition dquote : ascii := ascii_of_nat 34.

Definition between (lo hi : nat) (c : ascii) : bool :=
  Nat.leb lo (code c) && Nat.leb (code c) hi.

Definition lower_char (c : ascii) : ascii :=
  if between 65 90 c then ascii_of_nat (code c + 32) else c.

(** [s.toLowerCase()] *)
Fixpoint toLowerCase (s : string) : string :=
  match s with
  | EmptyString => EmptyString
  | String c s' => String (lower_char c) (toLowerCase s')
  end.

(** [s.includes(sub)]: [sub] occurs in [s] as a contiguous run. *)
Fixpoint includes (s sub : string) : bool :=
  String.prefix sub s ||
  match s with
  | EmptyString => false
  | String _ s' => includes s' sub
  end.

(** [s.split(sep)] for a one-character separator. *)
Fixpoint split (sep : ascii) (s : string) : list string :=
  match s with
  | EmptyString => [EmptyString]
  | String c s' =>
      if Ascii.eqb c sep then EmptyString :: split sep s'
      else match split sep s' with
           | [] => [String c EmptyString]
           | w :: ws => String c w :: ws
           end
  end.

(** [s.substring(a, b)] for [a <= b]. *)
Definition substring (a b : nat) (s : string) : string :=
  String.substring a (b - a) s.

(** White space of [\s] and of [trim], within ASCII. *)
Definition is_space (c : ascii) : bool :=
  between 9 13 c || Nat.eqb (code c) 32.

(** [\w] *)
Definition is_word (c : ascii) : bool :=
  between 48 57 c || between 65 90 c || between 97 122 c || Nat.eqb (code c) 95.

Fixpoint dropSpaces (l : list ascii) : list ascii :=
  match l with
  | c :: l' => if is_space c then dropSpaces l' else l
  | [] => []
  end.

Fixpoint takeWhile (p : ascii -> bool) (l : list ascii) : list ascii :=
  match l with
  | c :: l' => if p c then c :: takeWhile p l' else []
  | [] => []
  end.

(** [s.trim()] *)
Definition trim (s : string) : string :=
  string_of_list_ascii
    (rev (dropSpaces (rev (dropSpaces (list_ascii_of_string s))))).

Definition digit (n : nat) : ascii := ascii_of_nat (48 + n).

Fixpoint digits (fuel n : nat) (acc : string) : string :=
  match fuel with
  | O => acc
  | S f =>
      let acc' := String (digit (n mod 10)) acc in
      if Nat.eqb (n / 10) 0 then acc' else digits f (n / 10) acc'
  end.

(** Decimal numeral of a natural number. *)
Definition of_nat (n : nat) : string := digits (S n) n EmptyString.

(** Decimal numeral of an integer, as [String(n)] prints it. *)
Definition of_Z (z : Z) : string :=
  match z with
  | Z0 => "0"
  | Zpos _ => of_nat (Z.to_nat z)
  | Zneg _ => String "-" (of_nat (Z.to_nat (- z)))
  end.

(** [parts.join(sep)] *)
Fixpoint join (sep : string) (parts : list string) : string :=
  match parts with
  | [] => EmptyString
  | [p] => p
  | p :: ps => p +:+ sep +:+ join sep ps
  end.

(** [s.replace(/'/g, "''")]-style replacement of one character by a string. *)
Fixpoint replaceAll (c : ascii) (by_ : string) (s : string) : string :=
  match s with
  | EmptyString => EmptyString
  | String d s' =>
      if Ascii.eqb d c then by_ +:+ replaceAll c by_ s'
      else String d (replaceAll c by_ s')
  end.

End Str.

(* ===================================================================== *)
(** ** Regular expressions, matched the way a backtracking engine does *)
(* ===================================================================== *)

Module Re.

Inductive re : Type :=
| Chr (p : ascii -> bool)          (* one character of a class *)
| Seq (a b : re)
| Alt (a b : re)                   (* ordered choice, left first *)
| Star (r : re)                    (* greedy repetition *)
| Grp (n : nat) (r : re).          (* capture group number n *)

Definition Plus (r : re) : re := Seq r (Star r).
Definition Eps : re := Star (Chr (fun _ => false)).
Definition Opt (r : re) : re := Alt r Eps.           (* greedy [r?] *)

Definition lit (c : ascii) : re := Chr (Ascii.eqb c).
(** a literal letter under the [/i] flag *)
Definition liti (c : ascii) : re :=
  Chr (fun d => Ascii.eqb (Str.lower_char d) (Str.lower_char c)).

Fixpoint word (mk : ascii -> re) (s : string) : re :=
  match s with
  | EmptyString => Eps
  | String c EmptyString => mk c
  | String c s' => Seq (mk c) (word mk s')
  end.

Definition captures := list (nat * list ascii).

Definition K := list ascii -> captures -> option captures.

Fixpoint run (r : re) (s : list ascii) (caps : captures) (k : K) {struct r}
  : option captures :=
  match r with
  | Chr p =>
      match s with
      | c :: s' => if p c then k s' caps else None
      | [] => None
      end
  | Seq a b => run a s caps (fun s' caps' => run b s' caps' k)
  | Alt a b =>
      match run a s caps k with
      | Some out => Some out
      | None => run b s caps k
      end
  | Star a =>
      (fix loop (fuel : nat) (s : list ascii) (caps : captures) : option captures :=
         match fuel with
         | O => k s caps
         | S fuel' =>
             match run a s caps
                     (fun s' caps' =>
                        if Nat.ltb (length s') (length s)
                        then loop fuel' s' caps' else None) with
             | Some out => Some out
             | None => k s caps
             end
         end) (length s) s caps
  | Grp n a =>
      run a s caps
        (fun s' caps' => k s' ((n, firstn (length s - length s') s) :: caps'))
  end.

(** [re.exec(s)] for a pattern anchored with [^] and [$]. *)
Definition exec (r : re) (s : string) : option captures :=
  run r (list_ascii_of_string s) []
      (fun rest caps => match rest with [] => Some caps | _ => None end).

(** The text of group [n], if the group took part in the match. *)
Fixpoint group (n : nat) (caps : captures) : option string :=
  match caps with
  | [] => None
  | (m, txt) :: caps' =>
      if Nat.eqb m n then Some (string_of_list_ascii txt) else group n caps'
  end.

End Re.

(* ===================================================================== *)
(** ** JavaScript values and outcomes of a run *)
(* ===================================================================== *)

Inductive outcome (A : Type) : Type :=
| Ok (a : A)      (* the run returns *)
| Throws          (* the run raises (a TypeError, a rejected promise) *)
| Beyond.         (* the run leaves the modelled fragment *)
Arguments Ok {A} a.
Arguments Throws {A}.
Arguments Beyond {A}.

Definition obind {A B} (m : outcome A) (f : A -> outcome B) : outcome B :=
  match m with
  | Ok a => f a
  | Throws => Throws
  | Beyond => Beyond
  end.

Declare Scope js_scope.
Delimit Scope js_scope with js.
Notation "'let*' x ':=' m 'in' k" := (obind m (fun x => k))
  (at level 10, x pattern, m at level 100, k at level 200) : js_scope.
Local Open Scope js_scope.

(** The values a JSON document can hold, and [undefined]. *)
Inductive value : Type :=
| VUndefined
| VNull
| VBool (b : bool)
| VNum (n : Z)
| VStr (s : string)
| VArr (elems : list value)
| VObj (props : list (string * value)).

Module Obj.
Section Props.
Context {A : Type}.

(** [o[k]] on the own properties *)
Fixpoint lookup (k : string) (ps : list (string * A)) : option A :=
  match ps with
  | [] => None
  | (k', v) :: ps' => if String.eqb k' k then Some v else lookup k ps'
  end.

(** [o[k] = v]: overwrite in place, or append a new property *)
Fixpoint set (k : string) (v : A) (ps : list (string * A)) : list (string * A) :=
  match ps with
  | [] => [(k, v)]
  | (k', v') :: ps' =>
      if String.eqb k' k then (k', v) :: ps' else (k', v') :: set k v ps'
  end.

(** [delete o[k]] *)
Fixpoint remove (k : string) (ps : list (string * A)) : list (string * A) :=
  match ps with
  | [] => []
  | (k', v') :: ps' =>
      if String.eqb k' k then remove k ps' else (k', v') :: remove k ps'
  end.

(** [Object.assign(target, src)] and [{ ...target, ...src }] *)
Definition assign (target src : list (string * A)) : list (string * A) :=
  fold_left (fun acc kv => set (fst kv) (snd kv) acc) src target.

(** the entries [["0", x0], ["1", x1], ...] of an array *)
Definition indexed (l : list A) : list (string * A) :=
  combine (map Str.of_nat (seq 0 (length l))) l.

End Props.
End Obj.

Module JS.

Definition chars (s : string) : list value :=
  map (fun c => VStr (String c EmptyString)) (list_ascii_of_string s).

(** Truthiness, as [if (v)] and [!v] test it. *)
Definition truthy (v : value) : bool :=
  match v with
  | VUndefined | VNull => false
  | VBool b => b
  | VNum n => negb (Z.eqb n 0)
  | VStr s => negb (String.eqb s EmptyString)
  | VArr _ | VObj _ => true
  end.

Definition nullish (v : value) : bool :=
  match v with VUndefined | VNull => true | _ => false end.

(** [a ?? b] *)
Definition coalesce (a b : value) : value := if nullish a then b else a.

(** A decimal numeral without sign or leading zero, as an array index. *)
Definition index_of_key (k : string) : option nat :=
  let ds := list_ascii_of_string k in
  if forallb (Str.between 48 57) ds
     && negb (Nat.eqb (length ds) 0)
     && (Nat.eqb (length ds) 1 || negb (String.prefix "0" k))
  then Some (fold_left (fun acc c => 10 * acc + (Str.code c - 48)) ds 0)
  else None.

(** [v[k]], reading own properties; [null[k]] and [undefined[k]] raise. *)
Definition get (v : value) (k : string) : outcome value :=
  match v with
  | VUndefined | VNull => Throws
  | VBool _ | VNum _ => Ok VUndefined
  | VStr s =>
      if String.eqb k "length" then Ok (VNum (Z.of_nat (String.length s)))
      else match index_of_key k with
           | Some i => Ok (nth i (chars s) VUndefined)
           | None => Ok VUndefined
           end
  | VArr l =>
      if String.eqb k "length" then Ok (VNum (Z.of_nat (length l)))
      else match index_of_key k with
           | Some i => Ok (nth i l VUndefined)
           | None => Ok VUndefined
           end
  | VObj ps => Ok (default VUndefined (Obj.lookup k ps))
  end.

(** [v?.[k]] *)
Definition get_opt (v : value) (k : string) : value :=
  match get v k with
  | Ok x => x
  | _ => VUndefined
  end.

(** The own enumerable properties [{ ...v }] copies. *)
Definition spread (v : value) : list (string * value) :=
  match v with
  | VObj ps => ps
  | VArr l => Obj.indexed l
  | VStr s => Obj.indexed (chars s)
  | _ => []
  end.

(** [String(v)] *)
Fixpoint toString (v : value) : string :=
  match v with
  | VUndefined => "undefined"
  | VNull => "null"
  | VBool b => if b then "true" else "false"
  | VNum n => Str.of_Z n
  | VStr s => s
  | VArr l =>
      Str.join ","
        (map (fun e => match e with
                       | VUndefined | VNull => EmptyString
                       | _ => toString e
                       end) l)
  | VObj _ => "[object Object]"
  end.

(** [v === w] for a primitive [w] *)
Definition strict_eq_prim (v w : value) : bool :=
  match v, w with
  | VUndefined, VUndefined | VNull, VNull => true
  | VBool a, VBool b => Bool.eqb a b
  | VNum a, VNum b => Z.eqb a b
  | VStr a, VStr b => String.eqb a b
  | _, _ => false
  end.

(** [x.includes(arg)] for a string argument: defined on strings and arrays. *)
Definition includes (x : value) (arg : string) : outcome bool :=
  match x with
  | VStr s => Ok (Str.includes s arg)
  | VArr l => Ok (existsb (fun e => strict_eq_prim e (VStr arg)) l)
  | _ => Throws
  end.

(** [x > 0] *)
Definition gt_zero (x : value) : outcome bool :=
  match x with
  | VNum n => Ok (Z.ltb 0 n)
  | VBool b => Ok b
  | VUndefined | VNull => Ok false
  | VStr _ | VArr _ | VObj _ => Beyond     (* string-to-number coercion *)
  end.

End JS.

(* ===================================================================== *)
(** ** JSON text *)
(* ===================================================================== *)

Module JSON.

Definition hex (n : nat) : ascii :=
  if Nat.ltb n 10 then ascii_of_nat (48 + n) else ascii_of_nat (87 + n).

Definition escape (c : ascii) : string :=
  let n := Str.code c in
  if Nat.eqb n 34 then String "\" (String c EmptyString) else
  if Nat.eqb n 92 then "\\" else
  if Nat.eqb n 8 then "\b" else
  if Nat.eqb n 9 then "\t" else
  if Nat.eqb n 10 then "\n" else
  if Nat.eqb n 12 then "\f" else
  if Nat.eqb n 13 then "\r" else
  if Nat.ltb n 32
  then "\u00" +:+ String (hex (n / 16)) (String (hex (n mod 16)) EmptyString)
  else String c EmptyString.

Fixpoint escaped (s : string) : string :=
  match s with
  | EmptyString => EmptyString
  | String c s' => escape c +:+ escaped s'
  end.

Definition quote (s : string) : string :=
  String Str.dquote (escaped s +:+ String Str.dquote EmptyString).

(** [JSON.stringify(v)]; [None] is the [undefined] it returns for [undefined]. *)
Fixpoint stringify (v : value) : option string :=
  match v with
  | VUndefined => None
  | VNull => Some "null"
  | VBool b => Some (if b then "true" else "false")
  | VNum n => Some (Str.of_Z n)
  | VStr s => Some (quote s)
  | VArr l =>
      Some ("[" +:+ Str.join "," (map (fun e => default "null" (stringify e)) l) +:+ "]")
  | VObj ps =>
      Some ("{" +:+ Str.join ","
                    (flat_map (fun kv =>
                                 match stringify (snd kv) with
                                 | Some t => [quote (fst kv) +:+ ":" +:+ t]
                                 | None => []
                                 end) ps) +:+ "}")
  end.

(** The document [JSON.parse(JSON.stringify(v))] reads back: properties
    holding [undefined] are gone and [undefined] array elements are [null]. *)
Fixpoint reparse (v : value) : value :=
  match v with
  | VArr l =>
      VArr (map (fun e => match e with
                          | VUndefined => VNull
                          | _ => reparse e
                          end) l)
  | VObj ps =>
      VObj (flat_map (fun kv =>
                        match snd kv with
                        | VUndefined => []
                        | _ => [(fst kv, reparse (snd kv))]
                        end) ps)
  | _ => v
  end.

End JSON.

(* ===================================================================== *)
(** ** scim/types.ts: the cache row *)
(* ===================================================================== *)

Module Row.

Inductive SyncStatus : Type := synced | pending | error.

Definition SyncStatus_eqb (a b : SyncStatus) : bool :=
  match a, b with
  | synced, synced | pending, pending | error, error => true
  | _, _ => false
  end.

(** A row of [scim_users].  The two JSON columns are kept as the documents
    their text denotes (what [JSON.parse] reads back from the column). *)
Record ScimUserRow : Type := mk {
  id : string;
  ad_object_guid : option string;
  sam_account_name : option string;
  scim_resource : value;
  ad_resource : option value;
  sync_status : SyncStatus;
  last_error : option string;
  created_at : string;
  updated_at : string
}.

End Row.

Definition SCIM_SCHEMA_USER : string := "urn:ietf:params:scim:schemas:core:2.0:User".
Definition SCIM_SCHEMA_LIST : string := "urn:ietf:params:scim:api:messages:2.0:ListResponse".
Definition SCIM_SCHEMA_ERROR : string := "urn:ietf:params:scim:api:messages:2.0:Error".

(* ===================================================================== *)
(** ** config/mapping.ts *)
(* ===================================================================== *)

Module Mapping.

(** [AdUserParams]: an object built property by property. *)
Definition AdUserParams : Type := list (string * value).

(** [emails.find((e) => e['primary'] === true)] *)
Fixpoint find_primary (emails : list value) : outcome (option value) :=
  match emails with
  | [] => Ok None
  | e :: rest =>
      let* p := JS.get e "primary" in
      if JS.strict_eq_prim p (VBool true) then Ok (Some e) else find_primary rest
  end.

Definition set_if_truthy (k : string) (v : value) (params : AdUserParams) : AdUserParams :=
  if JS.truthy v then Obj.set k v params else params.

Definition scimToAdParams (scimUser : value) (baseOu : option string)
  : outcome AdUserParams :=
  let params : AdUserParams := [] in
  (* userName -> SamAccountName (and optionally UserPrincipalName) *)
  let* userName := JS.get scimUser "userName" in
  let* params :=
    if JS.truthy userName then
      let params := Obj.set "SamAccountName" userName params in
      let* has_at := JS.includes userName "@" in
      Ok (if has_at then Obj.set "UserPrincipalName" userName params else params)
    else Ok params in
  (* name.givenName / name.familyName *)
  let* name := JS.get scimUser "name" in
  let params := set_if_truthy "GivenName" (JS.get_opt name "givenName") params in
  let params := set_if_truthy "Surname" (JS.get_opt name "familyName") params in
  (* emails: the entry flagged primary, else index 0 *)
  let* emails := JS.get scimUser "emails" in
  let* params :=
    if JS.truthy emails then
      let* len := JS.get emails "length" in
      let* nonempty := JS.gt_zero len in
      if nonempty then
        match emails with
        | VArr l =>
            let* found := find_primary l in
            let primary := match found with
                           | Some e => e
                           | None => nth 0 l VUndefined
                           end in
            let* emailValue := JS.get primary "value" in
            Ok (set_if_truthy "EmailAddress" emailValue params)
        | _ => Throws                       (* [emails.find] is not a function *)
        end
      else Ok params
    else Ok params in
  (* displayName *)
  let* displayName := JS.get scimUser "displayName" in
  let params := set_if_truthy "DisplayName" displayName params in
  (* active -> Enabled *)
  let* active := JS.get scimUser "active" in
  let params := match active with
                | VBool _ => Obj.set "Enabled" active params
                | _ => params
                end in
  (* externalId -> EmployeeID *)
  let* externalId := JS.get scimUser "externalId" in
  let params := set_if_truthy "EmployeeID" externalId params in
  (* CN: displayName, else userName *)
  let params :=
    Obj.set "Name"
      (JS.coalesce (default VUndefined (Obj.lookup "DisplayName" params))
                   (default VUndefined (Obj.lookup "SamAccountName" params)))
      params in
  (* target OU *)
  let params := match baseOu with
                | Some ou => set_if_truthy "Path" (VStr ou) params
                | None => params
                end in
  Ok params.

Definition mergeAdIntoScim (existing adUser : value) : outcome value :=
  let merged := JS.spread existing in
  let* sam := JS.get adUser "SamAccountName" in
  let merged := set_if_truthy "userName" sam merged in
  let* dn := JS.get adUser "DisplayName" in
  let merged := set_if_truthy "displayName" dn merged in
  let* gn := JS.get adUser "GivenName" in
  let* sn := JS.get adUser "Surname" in
  let merged :=
    if JS.truthy gn || JS.truthy sn then
      Obj.set "name"
        (VObj (Obj.assign
                 (Obj.assign
                    (JS.spread (JS.coalesce (default VUndefined (Obj.lookup "name" merged))
                                            (VObj [])))
                    (if JS.truthy gn then [("givenName", gn)] else []))
                 (if JS.truthy sn then [("familyName", sn)] else [])))
        merged
    else merged in
  let* em := JS.get adUser "EmailAddress" in
  let merged :=
    if JS.truthy em then
      Obj.set "emails"
        (VArr [VObj [("value", em); ("type", VStr "work"); ("primary", VBool true)]])
        merged
    else merged in
  let* en := JS.get adUser "Enabled" in
  let merged := match en with
                | VBool _ => Obj.set "active" en merged
                | _ => merged
                end in
  Ok (VObj merged).

End Mapping.

(* ===================================================================== *)
(** ** scim/formatter.ts *)
(* ===================================================================== *)

Module Formatter.

Record ScimErrorInfo : Type := {
  status : Z;
  scimType : option string;
  detail : string
}.

Definition mapPsErrorToScim (stderr : string) : ScimErrorInfo :=
  let msg := Str.toLowerCase stderr in
  if Str.includes msg "already exists" || Str.includes msg "already in use" then
    {| status := 409; scimType := Some "uniqueness"; detail := stderr |}
  else if Str.includes msg "cannot find an object with identity"
          || Str.includes msg "not found"
          || Str.includes msg "no such object" then
    {| status := 404; scimType := Some "noTarget"; detail := stderr |}
  else if Str.includes msg "password"
          && (Str.includes msg "complexity" || Str.includes msg "length"
              || Str.includes msg "requirement") then
    {| status := 400; scimType := Some "invalidValue"; detail := stderr |}
  else if Str.includes msg "access" && Str.includes msg "denied" then
    {| status := 403; scimType := None; detail := stderr |}
  else if Str.includes msg "invalid" || Str.includes msg "bad request" then
    {| status := 400; scimType := Some "invalidValue"; detail := stderr |}
  else
    {| status := 500; scimType := None; detail := stderr |}.

Definition formatError (status : Z) (detail : string) (scimType : option string) : value :=
  VObj ([("schemas", VArr [VStr SCIM_SCHEMA_ERROR]); ("status", VNum status)]
        ++ match scimType with
           | Some t => if String.eqb t EmptyString then [] else [("scimType", VStr t)]
           | None => []
           end
        ++ [("detail", VStr detail)]).

Definition of_option (o : option string) : value :=
  match o with Some s => VStr s | None => VNull end.

Definition formatScimUser (row : Row.ScimUserRow) (baseUrl : string) : outcome value :=
  let cached := Row.scim_resource row in
  let* externalId := JS.get cached "externalId" in
  let* userName := JS.get cached "userName" in
  let* name := JS.get cached "name" in
  let* displayName := JS.get cached "displayName" in
  let* emails := JS.get cached "emails" in
  let* active := JS.get cached "active" in
  Ok (VObj
        [("schemas", VArr [VStr SCIM_SCHEMA_USER]);
         ("id", VStr (Row.id row));
         ("externalId", JS.coalesce externalId VUndefined);
         ("userName",
          JS.coalesce (JS.coalesce userName (of_option (Row.sam_account_name row)))
                      (VStr EmptyString));
         ("name", JS.coalesce name VUndefined);
         ("displayName", JS.coalesce displayName VUndefined);
         ("emails", JS.coalesce emails VUndefined);
         ("active", JS.coalesce active VUndefined);
         ("meta",
          VObj [("resourceType", VStr "User");
                ("created", VStr (Row.created_at row));
                ("lastModified", VStr (Row.updated_at row));
                ("location", VStr (baseUrl +:+ "/scim/v2/Users/" +:+ Row.id row))])]).

Definition formatListResponse (users : list value) (totalResults startIndex : Z) : value :=
  VObj [("schemas", VArr [VStr SCIM_SCHEMA_LIST]);
        ("totalResults", VNum totalResults);
        ("startIndex", VNum startIndex);
        ("itemsPerPage", VNum (Z.of_nat (length users)));
        ("Resources", VArr users)].

End Formatter.

(* ===================================================================== *)
(** ** scim/filter-parser.ts *)
(* ===================================================================== *)

Module FilterParser.

Record ParsedFilter : Type := {
  attribute : string;
  operator : string;
  value : string;
  dbColumn : string       (* column of scim_users for this attribute *)
}.

Definition ATTRIBUTE_TO_COLUMN : list (string * string) :=
  [("id", "id"); ("externalid", "id"); ("username", "sam_account_name")].

Definition not_space (c : ascii) : bool := negb (Str.is_space c).
Definition not_dquote (c : ascii) : bool := negb (Ascii.eqb c Str.dquote).

(** The pattern [/^(\S+)\s+(eq|ne|co|sw|ew|pr|gt|ge|lt|le)\s+Q(V)Q$/i], writing
    Q for the double-quote character and V for [[^Q]] repeated, zero or more
    times. *)
Definition FILTER_RE : Re.re :=
  let op := Re.word Re.liti in
  Re.Seq (Re.Grp 1 (Re.Plus (Re.Chr not_space)))
 (Re.Seq (Re.Plus (Re.Chr Str.is_space))
 (Re.Seq (Re.Grp 2
            (Re.Alt (op "eq") (Re.Alt (op "ne") (Re.Alt (op "co") (Re.Alt (op "sw")
            (Re.Alt (op "ew") (Re.Alt (op "pr") (Re.Alt (op "gt") (Re.Alt (op "ge")
            (Re.Alt (op "lt") (op "le")))))))))))
 (Re.Seq (Re.Plus (Re.Chr Str.is_space))
 (Re.Seq (Re.lit Str.dquote)
 (Re.Seq (Re.Grp 3 (Re.Star (Re.Chr not_dquote)))
         (Re.lit Str.dquote)))))).

Definition parseScimFilter (filter : string) : option ParsedFilter :=
  match Re.exec FILTER_RE (Str.trim filter) with
  | None => None
  | Some m =>
      let attribute := default EmptyString (Re.group 1 m) in
      let operatorRaw := default EmptyString (Re.group 2 m) in
      let value := default EmptyString (Re.group 3 m) in
      let operator := Str.toLowerCase operatorRaw in
      match Obj.lookup (Str.toLowerCase attribute) ATTRIBUTE_TO_COLUMN with
      | None => None
      | Some dbColumn =>
          Some {| attribute := attribute; operator := operator;
                  value := value; dbColumn := dbColumn |}
      end
  end.

End FilterParser.

(* ===================================================================== *)
(** ** The heap of objects the patch applier works on *)
(* ===================================================================== *)

Module Heap.

Definition loc : Type := nat.

(** A value as a variable holds it: a primitive, or a reference. *)
Inductive ref : Type :=
| RUndefined
| RNull
| RBool (b : bool)
| RNum (n : Z)
| RStr (s : string)
| RPtr (l : loc).

Inductive cell : Type :=
| CObj (props : list (string * ref))
| CArr (elems : list ref).

(** The store: a reference is a position in it. *)
Definition heap : Type := list cell.

Definition alloc (c : cell) (h : heap) : loc * heap := (length h, h ++ [c]).

Definition truthy (r : ref) : bool :=
  match r with
  | RUndefined | RNull => false
  | RBool b => b
  | RNum n => negb (Z.eqb n 0)
  | RStr s => negb (String.eqb s EmptyString)
  | RPtr _ => true
  end.

Definition nullish (r : ref) : bool :=
  match r with RUndefined | RNull => true | _ => false end.

(** [a === b]: primitives by value, objects by identity *)
Definition strict_eq (a b : ref) : bool :=
  match a, b with
  | RUndefined, RUndefined | RNull, RNull => true
  | RBool x, RBool y => Bool.eqb x y
  | RNum x, RNum y => Z.eqb x y
  | RStr x, RStr y => String.eqb x y
  | RPtr x, RPtr y => Nat.eqb x y
  | _, _ => false
  end.

Definition chars (s : string) : list ref :=
  map (fun c => RStr (String c EmptyString)) (list_ascii_of_string s).

Definition get_indexed (l : list ref) (k : string) : ref :=
  if String.eqb k "length" then RNum (Z.of_nat (length l))
  else match JS.index_of_key k with
       | Some i => nth i l RUndefined
       | None => RUndefined
       end.

(** [r[k]] *)
Definition get (h : heap) (r : ref) (k : string) : outcome ref :=
  match r with
  | RUndefined | RNull => Throws
  | RBool _ | RNum _ => Ok RUndefined
  | RStr s => Ok (get_indexed (chars s) k)
  | RPtr l =>
      match h !! l with
      | Some (CObj ps) => Ok (default RUndefined (Obj.lookup k ps))
      | Some (CArr rs) => Ok (get_indexed rs k)
      | None => Beyond
      end
  end.

(** [r[k] = v] in strict mode: a primitive receiver raises. *)
Definition set (h : heap) (r : ref) (k : string) (v : ref) : outcome heap :=
  match r with
  | RPtr l =>
      match h !! l with
      | Some (CObj ps) => Ok (<[l := CObj (Obj.set k v ps)]> h)
      | Some (CArr _) => Beyond           (* a named member of an array *)
      | None => Beyond
      end
  | _ => Throws
  end.

(** [delete r[k]] in strict mode *)
Definition remove (h : heap) (r : ref) (k : string) : outcome heap :=
  match r with
  | RUndefined | RNull => Throws
  | RBool _ | RNum _ => Ok h
  | RStr s =>
      match get_indexed (chars s) k with
      | RUndefined => Ok h
      | _ => Throws                        (* [length] and the characters *)
      end
  | RPtr l =>
      match h !! l with
      | Some (CObj ps) => Ok (<[l := CObj (Obj.remove k ps)]> h)
      | Some (CArr _) => Beyond
      | None => Beyond
      end
  end.

(** The own enumerable properties [{ ...r }] and [Object.assign] copy. *)
Definition spread (h : heap) (r : ref) : list (string * ref) :=
  match r with
  | RPtr l =>
      match h !! l with
      | Some (CObj ps) => ps
      | Some (CArr rs) => Obj.indexed rs
      | None => []
      end
  | RStr s => Obj.indexed (chars s)
  | _ => []
  end.

(** The elements of [r] when it is an array. *)
Definition elements (h : heap) (r : ref) : option (list ref) :=
  match r with
  | RPtr l => match h !! l with
              | Some (CArr rs) => Some rs
              | _ => None
              end
  | _ => None
  end.

(** Build a document in the store (what [JSON.parse] does). *)
Fixpoint store (v : value) (h : heap) : ref * heap :=
  match v with
  | VUndefined => (RUndefined, h)
  | VNull => (RNull, h)
  | VBool b => (RBool b, h)
  | VNum n => (RNum n, h)
  | VStr s => (RStr s, h)
  | VArr l =>
      let '(rs, h1) :=
        (fix go (l : list value) (h : heap) : list ref * heap :=
           match l with
           | [] => ([], h)
           | e :: l' =>
               let '(r, h1) := store e h in
               let '(rs, h2) := go l' h1 in
               (r :: rs, h2)
           end) l h in
      let '(p, h2) := alloc (CArr rs) h1 in
      (RPtr p, h2)
  | VObj ps =>
      let '(rs, h1) :=
        (fix go (ps : list (string * value)) (h : heap) : list (string * ref) * heap :=
           match ps with
           | [] => ([], h)
           | kv :: ps' =>
               let '(r, h1) := store (snd kv) h in
               let '(rs, h2) := go ps' h1 in
               ((fst kv, r) :: rs, h2)
           end) ps h in
      let '(p, h2) := alloc (CObj rs) h1 in
      (RPtr p, h2)
  end.

(** Read the document a reference unfolds to; [fuel] bounds the depth. *)
Fixpoint load (fuel : nat) (h : heap) (r : ref) : option value :=
  match r with
  | RUndefined => Some VUndefined
  | RNull => Some VNull
  | RBool b => Some (VBool b)
  | RNum n => Some (VNum n)
  | RStr s => Some (VStr s)
  | RPtr l =>
      match fuel with
      | O => None
      | S fuel' =>
          match h !! l with
          | Some (CArr rs) => VArr <$> mapM (load fuel' h) rs
          | Some (CObj ps) =>
              VObj <$> mapM (fun kr => pair (fst kr) <$> load fuel' h (snd kr)) ps
          | None => None
          end
      end
  end.

(** The document of [r], when the store below it is a tree. *)
Definition read (h : heap) (r : ref) : option value := load (length h) h r.

End Heap.

(* ===================================================================== *)
(** ** scim/patch-applier.ts *)
(* ===================================================================== *)

Module PatchApplier.
Import Heap.

Record PatchOperation (V : Type) : Type := {
  op : string;
  path : option string;
  value : V
}.
Arguments op {V} _.
Arguments path {V} _.
Arguments value {V} _.

Definition not_rbracket (c : ascii) : bool := negb (Ascii.eqb c "]").
Definition not_dquote (c : ascii) : bool := negb (Ascii.eqb c Str.dquote).

(** The multi-valued path pattern: a word (group 1), a bracketed filter
    without closing bracket inside (group 2), and optionally a dot and a word
    (group 3), anchored at both ends. *)
Definition MV_RE : Re.re :=
  Re.Seq (Re.Grp 1 (Re.Plus (Re.Chr Str.is_word)))
 (Re.Seq (Re.lit "[")
 (Re.Seq (Re.Grp 2 (Re.Plus (Re.Chr not_rbracket)))
 (Re.Seq (Re.lit "]")
         (Re.Opt (Re.Seq (Re.lit ".") (Re.Grp 3 (Re.Plus (Re.Chr Str.is_word)))))))).

(** The element filter pattern: a word (group 1), white space, [eq], white
    space, an optional double quote, any characters but the double quote
    (group 2), an optional double quote, anchored at both ends. *)
Definition ITEM_RE : Re.re :=
  Re.Seq (Re.Grp 1 (Re.Plus (Re.Chr Str.is_word)))
 (Re.Seq (Re.Plus (Re.Chr Str.is_space))
 (Re.Seq (Re.word Re.lit "eq")
 (Re.Seq (Re.Plus (Re.Chr Str.is_space))
 (Re.Seq (Re.Opt (Re.lit Str.dquote))
 (Re.Seq (Re.Grp 2 (Re.Star (Re.Chr not_dquote)))
         (Re.Opt (Re.lit Str.dquote))))))).

Definition matchesFilter (h : heap) (item : ref) (filterExpr : string) : outcome bool :=
  match Re.exec ITEM_RE (Str.trim filterExpr) with
  | None => Ok false
  | Some m =>
      let attr := default EmptyString (Re.group 1 m) in
      let val := default EmptyString (Re.group 2 m) in
      let* itemVal := Heap.get h item attr in
      (* boolean strings *)
      if String.eqb val "true" then Ok (strict_eq itemVal (RBool true))
      else if String.eqb val "false" then Ok (strict_eq itemVal (RBool false))
      else match Heap.read h itemVal with
           | Some v => Ok (String.eqb (JS.toString v) val)
           | None => Beyond
           end
  end.

(** Allocates the minimal item satisfying the filter expression. *)
Definition buildItemFromFilter (h : heap) (filterExpr : string) : loc * heap :=
  match Re.exec ITEM_RE (Str.trim filterExpr) with
  | None => alloc (CObj []) h
  | Some m =>
      let attr := default EmptyString (Re.group 1 m) in
      let val := default EmptyString (Re.group 2 m) in
      alloc (CObj [(attr, RStr val)]) h
  end.

(** [arr.find((item) => matchesFilter(item, filterExpr))] *)
Fixpoint find (h : heap) (items : list ref) (filterExpr : string) : outcome ref :=
  match items with
  | [] => Ok RUndefined
  | item :: rest =>
      let* hit := matchesFilter h item filterExpr in
      if hit then Ok item else find h rest filterExpr
  end.

(** [arr.filter((item) => !matchesFilter(item, filterExpr))] *)
Fixpoint filter_out (h : heap) (items : list ref) (filterExpr : string)
  : outcome (list ref) :=
  match items with
  | [] => Ok []
  | item :: rest =>
      let* hit := matchesFilter h item filterExpr in
      let* kept := filter_out h rest filterExpr in
      Ok (if hit then kept else item :: kept)
  end.

(** [arr.indexOf(x)] *)
Fixpoint indexOf (x : ref) (items : list ref) : option nat :=
  match items with
  | [] => None
  | y :: rest => if strict_eq y x then Some 0 else S <$> indexOf x rest
  end.

(** [for (const [key, val] of entries) body(key, val)] *)
Fixpoint for_each (entries : list (string * ref))
    (body : heap -> string -> ref -> outcome heap) (h : heap) : outcome heap :=
  match entries with
  | [] => Ok h
  | (key, val) :: rest =>
      let* h1 := body h key val in
      for_each rest body h1
  end.

Definition applyPath (h : heap) (resource : loc) (path verb : string) (value : ref)
  : outcome (string * heap) :=
  (* simple attribute path *)
  if negb (Str.includes path ".") && negb (Str.includes path "[") then
    let key := path in
    let* h1 := if String.eqb verb "remove"
               then Heap.remove h (RPtr resource) key
               else Heap.set h (RPtr resource) key value in
    Ok (key, h1)
  else
  match Re.exec MV_RE path with
  | Some m =>
      (* multi-valued attribute path *)
      let attrName := default EmptyString (Re.group 1 m) in
      let filterExpr := default EmptyString (Re.group 2 m) in
      let subAttr := Re.group 3 m in
      let* cur := Heap.get h (RPtr resource) attrName in
      let '(arr, h0) :=
        if nullish cur
        then let '(p, h') := alloc (CArr []) h in (RPtr p, h')
        else (cur, h) in
      match elements h0 arr with
      | None => Throws                    (* [arr.filter], [arr.find] are not functions *)
      | Some items =>
          let* h4 :=
            if String.eqb verb "remove" then
              let* kept := filter_out h0 items filterExpr in
              let '(p, h1) := alloc (CArr kept) h0 in
              Heap.set h1 (RPtr resource) attrName (RPtr p)
            else
              let* target := find h0 items filterExpr in
              match truthy target, subAttr with
              | true, Some sub =>
                  (* a sub-attribute of the matched element, in place *)
                  let* h1 := Heap.set h0 target sub value in
                  Heap.set h1 (RPtr resource) attrName arr
              | false, _ =>
                  (* no element matched: add a new one *)
                  let '(newItem, h1) := buildItemFromFilter h0 filterExpr in
                  let* h2 :=
                    match subAttr with
                    | Some sub => Heap.set h1 (RPtr newItem) sub value
                    | None =>
                        for_each (spread h1 value)
                                 (fun h k v => Heap.set h (RPtr newItem) k v) h1
                    end in
                  let '(p, h3) := alloc (CArr (items ++ [RPtr newItem])) h2 in
                  Heap.set h3 (RPtr resource) attrName (RPtr p)
              | true, None =>
                  (* the whole matched element, in place in the array *)
                  match indexOf target items, arr with
                  | Some idx, RPtr a =>
                      let '(p, h1) :=
                        alloc (CObj (Obj.assign (spread h0 target) (spread h0 value))) h0 in
                      let h2 := <[a := CArr (<[idx := RPtr p]> items)]> h1 in
                      Heap.set h2 (RPtr resource) attrName arr
                  | _, _ => Beyond
                  end
              end in
          Ok (attrName, h4)
      end
  | None =>
      match Str.split "." path with
      | [parent; child] =>
          (* dotted path *)
          let* cur := Heap.get h (RPtr resource) parent in
          let '(parentObj, h0) :=
            if nullish cur
            then let '(p, h') := alloc (CObj []) h in (RPtr p, h')
            else (cur, h) in
          let* h1 := if String.eqb verb "remove"
                     then Heap.remove h0 parentObj child
                     else Heap.set h0 parentObj child value in
          let* h2 := Heap.set h1 (RPtr resource) parent parentObj in
          Ok (parent, h2)
      | _ =>
          (* fallback: a simple key *)
          let* h1 := if String.eqb verb "remove"
                     then Heap.remove h (RPtr resource) path
                     else Heap.set h (RPtr resource) path value in
          Ok (path, h1)
      end
  end.

Definition applyOp (h : heap) (resource changed : loc) (o : PatchOperation ref)
  : outcome heap :=
  let verb := Str.toLowerCase (op o) in
  match path o with
  | Some (String c p) =>
      let* (topLevelKey, h1) := applyPath h resource (String c p) verb (value o) in
      if String.eqb topLevelKey EmptyString then Ok h1
      else
        let* v := Heap.get h1 (RPtr resource) topLevelKey in
        Heap.set h1 (RPtr changed) topLevelKey v
  | _ =>
      (* no path: the value is an object of attribute:value pairs *)
      if String.eqb verb "add" || String.eqb verb "replace" then
        if nullish (value o) then Throws          (* [Object.entries(undefined)] *)
        else
          for_each (spread h (value o))
                   (fun h key val =>
                      let* h1 := Heap.set h (RPtr resource) key val in
                      Heap.set h1 (RPtr changed) key val) h
      else Ok h
  end.

Fixpoint applyOps (h : heap) (resource changed : loc)
    (operations : list (PatchOperation ref)) : outcome heap :=
  match operations with
  | [] => Ok h
  | o :: rest =>
      let* h1 := applyOp h resource changed o in
      applyOps h1 resource changed rest
  end.

(** Returns the locations of [updated] and [changedFields] and the store. *)
Definition applyPatchOps (h : heap) (resource : ref)
    (operations : list (PatchOperation ref)) : outcome (loc * loc * heap) :=
  let '(updated, h1) := alloc (CObj (spread h resource)) h in
  let '(changedFields, h2) := alloc (CObj []) h1 in
  let* h3 := applyOps h2 updated changedFields operations in
  Ok (updated, changedFields, h3).

Fixpoint store_ops (ops : list (PatchOperation _)) (h : heap)
  : list (PatchOperation ref) * heap :=
  match ops with
  | [] => ([], h)
  | o :: rest =>
      let '(r, h1) := store (value o) h in
      let '(rs, h2) := store_ops rest h1 in
      ({| op := op o; path := path o; value := r |} :: rs, h2)
  end.

End PatchApplier.

(** [applyPatchOps] on freshly parsed documents, as the PATCH handler calls
    it: the resource and the operations are built in an empty store and the
    two results are read back. *)
Definition applyPatchOps_parsed (resource : value)
    (operations : list (PatchApplier.PatchOperation value)) : outcome (value * value) :=
  let '(r, h) := Heap.store resource [] in
  let '(ops, h0) := PatchApplier.store_ops operations h in
  let* (updated, changedFields, h1) := PatchApplier.applyPatchOps h0 r ops in
  match Heap.read h1 (Heap.RPtr updated), Heap.read h1 (Heap.RPtr changedFields) with
  | Some u, Some c => Ok (u, c)
  | _, _ => Beyond
  end.

(* ===================================================================== *)
(** ** powershell.ts *)
(* ===================================================================== *)

Module PowerShell.

(** How [execFileAsync] settles: resolved with the two streams, or rejected
    with an error carrying what it has of them and, for a process that
    exited, a numeric [code].  [message] is [String(err)]. *)
Inductive ExecOutcome : Type :=
| Resolved (stdout stderr : string)
| Rejected (stdout stderr : option string) (code : option Z) (message : string).

Record PowerShellResult : Type := {
  stdout : string;
  stderr : string;
  exitCode : Z;
  durationMs : Z;
  parsed : value
}.

(** A row of [powershell_executions]. *)
Record AuditRow : Type := {
  cmdlet : string;
  parameters : option string;
  audit_stdout : string;
  audit_stderr : string;
  exit_code : Z;
  duration_ms : Z;
  scim_user_id : option string
}.

Definition REDACTED : string := "***REDACTED***".

Definition SENSITIVE_KEYS : list string :=
  ["accountpassword"; "password"; "secret"; "token"].

Definition is_sensitive (key : string) : bool :=
  existsb (String.eqb (Str.toLowerCase key)) SENSITIVE_KEYS.

Definition sanitizeParams (params : list (string * value)) : list (string * value) :=
  fold_left
    (fun safe kv =>
       Obj.set (fst kv) (if is_sensitive (fst kv) then VStr REDACTED else snd kv) safe)
    params [].

(** The settled process, the elapsed time and [JSON.parse] are inputs; the
    result and the audit row are outputs. *)
Definition executePowerShell (json_parse : string -> option value)
    (settled : ExecOutcome) (elapsed : Z)
    (logMeta_cmdlet : string) (logMeta_params : list (string * value))
    (logMeta_scimUserId : option string) : PowerShellResult * AuditRow :=
  let '(out, err, code) :=
    match settled with
    | Resolved o e => (o, e, 0%Z)
    | Rejected o e c message =>
        (default EmptyString o, default message e, default 1%Z c)
    end in
  let trimmed := Str.trim out in
  let parsed :=
    if String.eqb trimmed EmptyString then VNull
    else default (VStr trimmed) (json_parse trimmed) in
  ({| stdout := out; stderr := err; exitCode := code;
      durationMs := elapsed; parsed := parsed |},
   {| cmdlet := logMeta_cmdlet;
      parameters := JSON.stringify (VObj (sanitizeParams logMeta_params));
      audit_stdout := Str.substring 0 65535 out;
      audit_stderr := Str.substring 0 65535 err;
      exit_code := code;
      duration_ms := elapsed;
      scim_user_id := logMeta_scimUserId |}).

Definition nl : string := String (ascii_of_nat 10) EmptyString.

Definition PS_HEADER : string :=
  "$ErrorActionPreference = 'Stop'" +:+ nl +:+ "Import-Module ActiveDirectory" +:+ nl.

(** [esc]: single quotes doubled; [value.replace] exists on strings only. *)
Definition esc (v : value) : outcome string :=
  match v with
  | VStr s => Ok (Str.replaceAll "'" "''" s)
  | _ => Throws
  end.

Definition psBool (b : bool) : string := if b then "$true" else "$false".

Definition buildParamFragments (params : list (string * value)) (skip : list string)
  : string :=
  let skipSet := map Str.toLowerCase skip in
  Str.join " "
    (flat_map
       (fun kv =>
          match snd kv with
          | VUndefined | VNull => []
          | v =>
              if existsb (String.eqb (Str.toLowerCase (fst kv))) skipSet then []
              else match v with
                   | VBool b => ["-" +:+ fst kv +:+ ":" +:+ psBool b]
                   | _ => ["-" +:+ fst kv +:+ " '"
                           +:+ Str.replaceAll "'" "''" (JS.toString v) +:+ "'"]
                   end
          end) params).

Definition prop (k : string) (params : list (string * value)) : value :=
  default VUndefined (Obj.lookup k params).

Definition without (keys : list string) (params : list (string * value))
  : list (string * value) :=
  fold_left (fun acc k => Obj.remove k acc) keys params.

(** The script of [execNewAdUser] and the parameters it logs. *)
Definition newAdUserScript (params : list (string * value))
  : outcome (string * list (string * value)) :=
  let AccountPassword := prop "AccountPassword" params in
  let Name := prop "Name" params in
  let Path := prop "Path" params in
  let SamAccountName := prop "SamAccountName" params in
  let rest := without ["AccountPassword"; "Name"; "Path"; "SamAccountName"] params in
  let adParams := if JS.truthy SamAccountName
                  then Obj.set "SamAccountName" SamAccountName rest else rest in
  let fragments := buildParamFragments adParams [] in
  let* password := esc AccountPassword in
  let* name := esc (JS.coalesce (JS.coalesce Name SamAccountName) (VStr EmptyString)) in
  let* samLine := if JS.truthy SamAccountName
                  then let* s := esc SamAccountName in
                       Ok ("-SamAccountName '" +:+ s +:+ "' `")
                  else Ok EmptyString in
  let* pathLine := if JS.truthy Path
                   then let* s := esc Path in Ok ("-Path '" +:+ s +:+ "' `")
                   else Ok EmptyString in
  Ok (Str.trim
        (nl +:+ PS_HEADER +:+ nl
         +:+ "$password = ConvertTo-SecureString -String '" +:+ password
         +:+ "' -AsPlainText -Force" +:+ nl
         +:+ "New-ADUser `" +:+ nl
         +:+ "  -Name '" +:+ name +:+ "' `" +:+ nl
         +:+ "  " +:+ samLine +:+ nl
         +:+ "  -AccountPassword $password `" +:+ nl
         +:+ "  -ChangePasswordAtLogon:$false `" +:+ nl
         +:+ "  " +:+ pathLine +:+ nl
         +:+ "  " +:+ fragments +:+ " `" +:+ nl
         +:+ "  -PassThru |" +:+ nl
         +:+ "  ConvertTo-Json -Depth 5 -Compress" +:+ nl),
      sanitizeParams
        (Obj.assign
           [("Name", Name); ("Path", Path); ("SamAccountName", SamAccountName)]
           rest)).

(** The script of [execSetAdUser] and the parameters it logs. *)
Definition setAdUserScript (identity : string) (params : list (string * value))
  : string * list (string * value) :=
  (Str.trim
     (nl +:+ PS_HEADER +:+ nl
      +:+ "Set-ADUser -Identity '" +:+ Str.replaceAll "'" "''" identity +:+ "' "
      +:+ buildParamFragments params [] +:+ nl),
   Obj.assign [("identity", VStr identity)] params).

Definition removeAdUserScript (identity : string) : string * list (string * value) :=
  (Str.trim
     (nl +:+ PS_HEADER +:+ nl
      +:+ "Remove-ADUser -Identity '" +:+ Str.replaceAll "'" "''" identity
      +:+ "' -Confirm:$false" +:+ nl),
   [("identity", VStr identity)]).

Definition getAdUserScript (identity : string) : string * list (string * value) :=
  (Str.trim
     (nl +:+ PS_HEADER +:+ nl
      +:+ "Get-ADUser -Identity '" +:+ Str.replaceAll "'" "''" identity
      +:+ "' -Properties * |" +:+ nl
      +:+ "  ConvertTo-Json -Depth 5 -Compress" +:+ nl),
   [("identity", VStr identity)]).

Definition extractObjectGuid (parsed : value) : option string :=
  match parsed with
  | VObj obj =>
      match prop "ObjectGUID" obj with
      | VStr raw => if Nat.ltb 0 (String.length raw) then Some raw else None
      | VObj wrapped =>
          match prop "value" wrapped with
          | VStr s => Some s
          | _ => None
          end
      | _ => None
      end
  | _ => None          (* primitives; an array has no [ObjectGUID] member *)
  end.

End PowerShell.

(* ===================================================================== *)
(** ** db.ts: the [scim_users] table *)
(* ===================================================================== *)

Module Db.
Import Row.

Definition table : Type := list ScimUserRow.

Definition set_scim_resource (v : value) (r : ScimUserRow) : ScimUserRow :=
  mk (id r) (ad_object_guid r) (sam_account_name r) v (ad_resource r)
     (sync_status r) (last_error r) (created_at r) (updated_at r).
Definition set_sam_account_name (s : option string) (r : ScimUserRow) : ScimUserRow :=
  mk (id r) (ad_object_guid r) s (scim_resource r) (ad_resource r)
     (sync_status r) (last_error r) (created_at r) (updated_at r).
Definition set_ad_resource (v : option value) (r : ScimUserRow) : ScimUserRow :=
  mk (id r) (ad_object_guid r) (sam_account_name r) (scim_resource r) v
     (sync_status r) (last_error r) (created_at r) (updated_at r).
Definition set_sync_status (s : SyncStatus) (r : ScimUserRow) : ScimUserRow :=
  mk (id r) (ad_object_guid r) (sam_account_name r) (scim_resource r) (ad_resource r)
     s (last_error r) (created_at r) (updated_at r).
Definition set_last_error (e : option string) (r : ScimUserRow) : ScimUserRow :=
  mk (id r) (ad_object_guid r) (sam_account_name r) (scim_resource r) (ad_resource r)
     (sync_status r) e (created_at r) (updated_at r).
Definition set_updated_at (ts : string) (r : ScimUserRow) : ScimUserRow :=
  mk (id r) (ad_object_guid r) (sam_account_name r) (scim_resource r) (ad_resource r)
     (sync_status r) (last_error r) (created_at r) ts.

Definition opt_eqb (a : option string) (b : string) : bool :=
  match a with Some x => String.eqb x b | None => false end.

(** [where({ id }).first()] *)
Definition first_by_id (i : string) (t : table) : option ScimUserRow :=
  List.find (fun r => String.eqb (id r) i) t.

(** [where({ sam_account_name }).first()] *)
Definition first_by_sam (s : string) (t : table) : option ScimUserRow :=
  List.find (fun r => opt_eqb (sam_account_name r) s) t.

(** The two uniqueness constraints: the primary key, and [sam_account_name]
    among the rows where it is not null. *)
Definition sam_taken_by_other (i : string) (s : option string) (t : table) : bool :=
  match s with
  | None => false
  | Some x =>
      existsb (fun r => negb (String.eqb (id r) i) && opt_eqb (sam_account_name r) x) t
  end.

(** [insert(row)]; [None] when a constraint rejects it. *)
Definition insert (row : ScimUserRow) (t : table) : option table :=
  if existsb (fun r => String.eqb (id r) (id row)) t
     || sam_taken_by_other (id row) (sam_account_name row) t
  then None
  else Some (t ++ [row]).

(** [where({ id }).update(f)]; [None] when the unique constraint rejects it. *)
Definition update (i : string) (f : ScimUserRow -> ScimUserRow) (t : table)
  : option table :=
  match first_by_id i t with
  | None => Some t
  | Some r =>
      if sam_taken_by_other i (sam_account_name (f r)) t then None
      else Some (map (fun r => if String.eqb (id r) i then f r else r) t)
  end.

(** [where({ id }).delete()] *)
Definition delete (i : string) (t : table) : table :=
  List.filter (fun r => negb (String.eqb (id r) i)) t.

(** The value of a filterable column. *)
Definition column (c : string) (r : ScimUserRow) : option string :=
  if String.eqb c "id" then Some (id r)
  else if String.eqb c "sam_account_name" then sam_account_name r
  else None.

(** [where(column, value)] *)
Definition where_eq (c v : string) (t : table) : table :=
  List.filter (fun r => opt_eqb (column c r) v) t.

Fixpoint insert_sorted (r : ScimUserRow) (t : table) : table :=
  match t with
  | [] => [r]
  | x :: t' =>
      if String.ltb (created_at x) (created_at r)
      then x :: insert_sorted r t' else r :: x :: t'
  end.

(** [orderBy('created_at', 'asc')], rows of equal time in table order *)
Definition orderBy_created_at (t : table) : table :=
  fold_right insert_sorted [] t.

(** [offset(o).limit(n)] *)
Definition page (o n : nat) (t : table) : table := firstn n (skipn o t).

End Db.

(* ===================================================================== *)
(** ** routes/scim/users.ts: the request handlers *)
(* ===================================================================== *)

Module Server.
Import Row.

Record Config : Type := {
  baseOu : string;
  defaultPassword : string
}.

(** The outside world.  Every consultation advances the step counter of the
    state, so the n-th answer may differ from the one before. *)
Record Env : Type := {
  config_ad : Config;
  powershell_exe : nat -> string -> PowerShell.ExecOutcome;   (* script -> settled process *)
  elapsed_ms : nat -> Z;
  json_parse : string -> option value;                        (* [JSON.parse] of tool output *)
  clock : nat -> string;                                      (* [new Date().toISOString()] *)
  uuid : nat -> string
}.

Record World : Type := {
  scim_users : Db.table;
  powershell_executions : list PowerShell.AuditRow;
  steps : nat
}.

Inductive result (A : Type) : Type :=
| Return (a : A) (w : World)
| Raise (w : World)          (* the handler rejects; the framework answers 500 *)
| Outside (w : World).       (* the run leaves the modelled fragment *)
Arguments Return {A} a w.
Arguments Raise {A} w.
Arguments Outside {A} w.

Definition M (A : Type) : Type := World -> result A.

Definition ret {A} (a : A) : M A := fun w => Return a w.

Definition bind {A B} (m : M A) (f : A -> M B) : M B :=
  fun w => match m w with
           | Return a w' => f a w'
           | Raise w' => Raise w'
           | Outside w' => Outside w'
           end.

Notation "'let!' x ':=' m 'in' k" := (bind m (fun x => k))
  (at level 10, x pattern, m at level 100, k at level 200).

(** A pure step of the run. *)
Definition lift {A} (o : outcome A) : M A :=
  fun w => match o with
           | Ok a => Return a w
           | Throws => Raise w
           | Beyond => Outside w
           end.

(** [try { m } catch { h }] *)
Definition try_catch {A} (m : M A) (h : M A) : M A :=
  fun w => match m w with
           | Raise w' => h w'
           | r => r
           end.

Record Reply : Type := {
  status : Z;
  headers : list (string * string);
  body : value
}.

Definition send (st : Z) (hs : list (string * string)) (b : value) : M Reply :=
  ret {| status := st; headers := hs; body := b |}.

Definition scim_json : string * string := ("Content-Type", "application/scim+json").

Definition with_users (t : Db.table) (w : World) : World :=
  {| scim_users := t; powershell_executions := powershell_executions w; steps := steps w |}.

Definition db_first_by_id (i : string) : M (option ScimUserRow) :=
  fun w => Return (Db.first_by_id i (scim_users w)) w.

Definition db_first_by_sam (s : string) : M (option ScimUserRow) :=
  fun w => Return (Db.first_by_sam s (scim_users w)) w.

Definition db_insert (row : ScimUserRow) : M unit :=
  fun w => match Db.insert row (scim_users w) with
           | Some t => Return tt (with_users t w)
           | None => Raise w
           end.

Definition db_update (i : string) (f : ScimUserRow -> ScimUserRow) : M unit :=
  fun w => match Db.update i f (scim_users w) with
           | Some t => Return tt (with_users t w)
           | None => Raise w
           end.

Definition db_delete (i : string) : M unit :=
  fun w => Return tt (with_users (Db.delete i (scim_users w)) w).

(** [userName.split('@')[0].substring(0, 20)]; only a string has [split]. *)
Definition samOf (userName : value) : outcome string :=
  match userName with
  | VStr s => Ok (Str.substring 0 20 (hd EmptyString (Str.split "@" s)))
  | _ => Throws
  end.

(** [row.ad_object_guid ?? row.sam_account_name], when truthy *)
Definition identityOf (row : ScimUserRow) : option string :=
  match match ad_object_guid row with
        | Some g => Some g
        | None => sam_account_name row
        end with
  | Some i => if String.eqb i EmptyString then None else Some i
  | None => None
  end.

(** [parseInt(s, 10)]; [None] is [NaN]. *)
Definition parseInt (s : string) : option Z :=
  let l := Str.dropSpaces (list_ascii_of_string s) in
  let '(negative, l1) :=
    match l with
    | "-"%char :: l' => (true, l')
    | "+"%char :: l' => (false, l')
    | _ => (false, l)
    end in
  let ds := Str.takeWhile (Str.between 48 57) l1 in
  match ds with
  | [] => None
  | _ =>
      let n := fold_left (fun acc c => (10 * acc + Z.of_nat (Str.code c - 48))%Z) ds 0%Z in
      Some (if negative then (- n)%Z else n)
  end.

Section Handlers.
Variable env : Env.

Definition tick (w : World) : World :=
  {| scim_users := scim_users w;
     powershell_executions := powershell_executions w;
     steps := S (steps w) |}.

Definition now : M string := fun w => Return (clock env (steps w)) (tick w).

Definition uuidv4 : M string := fun w => Return (uuid env (steps w)) (tick w).

(** Run a script: one consultation of the tool, one audit row. *)
Definition executePowerShell (script cmdlet : string) (params : list (string * value))
    (scimUserId : option string) : M PowerShell.PowerShellResult :=
  fun w =>
    let '(res, audit) :=
      PowerShell.executePowerShell (json_parse env)
        (powershell_exe env (steps w) script) (elapsed_ms env (steps w))
        cmdlet params scimUserId in
    Return res
      {| scim_users := scim_users w;
         powershell_executions := powershell_executions w ++ [audit];
         steps := S (steps w) |}.

Definition execNewAdUser (params : list (string * value)) (scimUserId : string)
  : M PowerShell.PowerShellResult :=
  let! (script, logged) := lift (PowerShell.newAdUserScript params) in
  executePowerShell script "New-ADUser" logged (Some scimUserId).

Definition execSetAdUser (identity : string) (params : list (string * value))
    (scimUserId : string) : M PowerShell.PowerShellResult :=
  let '(script, logged) := PowerShell.setAdUserScript identity params in
  executePowerShell script "Set-ADUser" logged (Some scimUserId).

Definition execRemoveAdUser (identity scimUserId : string)
  : M PowerShell.PowerShellResult :=
  let '(script, logged) := PowerShell.removeAdUserScript identity in
  executePowerShell script "Remove-ADUser" logged (Some scimUserId).

Definition execGetAdUser (identity scimUserId : string) : M (option value) :=
  let '(script, logged) := PowerShell.getAdUserScript identity in
  let! result := executePowerShell script "Get-ADUser" logged (Some scimUserId) in
  ret (if negb (Z.eqb (PowerShell.exitCode result) 0)
          || negb (JS.truthy (PowerShell.parsed result))
       then None else Some (PowerShell.parsed result)).

(** Read the user back and store it in [ad_resource]; errors are swallowed. *)
Definition refreshAdResource (identity scimUserId : string) : M unit :=
  try_catch
    (let! adUser := execGetAdUser identity scimUserId in
     match adUser with
     | Some a =>
         let! ts := now in
         db_update scimUserId
           (fun r => Db.set_updated_at ts (Db.set_ad_resource (Some (JSON.reparse a)) r))
     | None => ret tt
     end)
    (ret tt).

Definition not_found (i : string) : M Reply :=
  send 404 []
    (Formatter.formatError 404 ("User " +:+ i +:+ " not found.") (Some "noTarget")).

Definition classified (stderr : string) : M Reply :=
  let e := Formatter.mapPsErrorToScim stderr in
  send (Formatter.status e) []
    (Formatter.formatError (Formatter.status e) (Formatter.detail e) (Formatter.scimType e)).

Definition no_identity : M Reply :=
  send 500 []
    (Formatter.formatError 500
       "Cannot identify AD account: no objectGUID or samAccountName." None).

Definition send_user (st : Z) (hs : list (string * string))
    (row : option ScimUserRow) (baseUrl : string) : M Reply :=
  match row with
  | Some r =>
      let! u := lift (Formatter.formatScimUser r baseUrl) in
      send st hs u
  | None => lift Throws
  end.

(** GET /scim/v2/Users *)
Definition GET_list (filter startIndexStr countStr : option string) (baseUrl : string)
  : M Reply :=
  match parseInt (default "1" startIndexStr), parseInt (default "100" countStr) with
  | Some si, Some c =>
      let startIndex := Z.max 1 si in
      let pageSize := Z.min 200 (Z.max 1 c) in
      try_catch
        (fun w =>
           let all := scim_users w in
           let selected :=
             match filter with
             | Some (String a f) =>
                 match FilterParser.parseScimFilter (String a f) with
                 | Some parsed =>
                     if String.eqb (FilterParser.operator parsed) "eq"
                     then Db.where_eq (FilterParser.dbColumn parsed)
                                      (FilterParser.value parsed) all
                     else all
                 | None => all
                 end
             | _ => all
             end in
           let total := Z.of_nat (length selected) in
           let rows := Db.page (Z.to_nat (startIndex - 1)) (Z.to_nat pageSize)
                               (Db.orderBy_created_at selected) in
           (let! users :=
              lift ((fix each (rs : list ScimUserRow) : outcome (list value) :=
                       match rs with
                       | [] => Ok []
                       | r :: rs' =>
                           let* u := Formatter.formatScimUser r baseUrl in
                           let* us := each rs' in
                           Ok (u :: us)
                       end) rows) in
            send 200 [scim_json] (Formatter.formatListResponse users total startIndex)) w)
        (send 500 [] (Formatter.formatError 500 "Internal server error" None))
  | _, _ => fun w => Outside w      (* [NaN] reaches the query builder *)
  end.

(** GET /scim/v2/Users/:id *)
Definition GET_one (i baseUrl : string) : M Reply :=
  try_catch
    (let! row := db_first_by_id i in
     match row with
     | None => not_found i
     | Some r => send_user 200 [scim_json] (Some r) baseUrl
     end)
    (send 500 [] (Formatter.formatError 500 "Internal server error" None)).

(** POST /scim/v2/Users *)
Definition POST (scimUser : value) (baseUrl : string) : M Reply :=
  let! userName := lift (JS.get scimUser "userName") in
  if negb (JS.truthy userName) then
    send 400 [] (Formatter.formatError 400 "userName is required." (Some "invalidValue"))
  else
  let! sam := lift (samOf userName) in
  let! duplicate := db_first_by_sam sam in
  match duplicate with
  | Some _ =>
      send 409 []
        (Formatter.formatError 409
           ("A user with userName '" +:+ JS.toString userName +:+ "' already exists.")
           (Some "uniqueness"))
  | None =>
      let! externalId := lift (JS.get scimUser "externalId") in
      let! userId :=
        match externalId with
        | VUndefined | VNull => uuidv4
        | VStr s => ret s
        | _ => lift Beyond                 (* a key that is not a string *)
        end in
      let scimResource := Obj.set "id" (VStr userId) (JS.spread scimUser) in
      let! adParams := lift (Mapping.scimToAdParams scimUser (Some (baseOu (config_ad env)))) in
      let! psResult :=
        execNewAdUser
          (Obj.set "AccountPassword" (VStr (defaultPassword (config_ad env))) adParams)
          userId in
      if negb (Z.eqb (PowerShell.exitCode psResult) 0) then
        classified (PowerShell.stderr psResult)
      else
        let objectGuid := PowerShell.extractObjectGuid (PowerShell.parsed psResult) in
        let! ts := now in
        let! _ := db_insert
                    (mk userId objectGuid (Some sam) (JSON.reparse (VObj scimResource))
                        None synced None ts ts) in
        let! _ := match objectGuid with
                  | Some (String a g) => refreshAdResource (String a g) userId
                  | _ => ret tt
                  end in
        let! row := db_first_by_id userId in
        send_user 201
          [("Location", baseUrl +:+ "/scim/v2/Users/" +:+ userId); scim_json]
          row baseUrl
  end.

(** The tail shared by PUT and PATCH once the tool has answered. *)
Definition after_set (psResult : PowerShell.PowerShellResult) (i : string)
    (k : M Reply) : M Reply :=
  if negb (Z.eqb (PowerShell.exitCode psResult) 0) then
    let! ts := now in
    let! _ := db_update i
                (fun r => Db.set_updated_at ts
                            (Db.set_last_error
                               (Some (Str.substring 0 2000 (PowerShell.stderr psResult)))
                               (Db.set_sync_status error r))) in
    classified (PowerShell.stderr psResult)
  else k.

Definition mark_synced (i : string) : M unit :=
  let! ts := now in
  db_update i
    (fun r => Db.set_updated_at ts (Db.set_last_error None (Db.set_sync_status synced r))).

(** PUT /scim/v2/Users/:id *)
Definition PUT (i : string) (scimUser : value) (baseUrl : string) : M Reply :=
  let! found := db_first_by_id i in
  match found with
  | None => not_found i
  | Some row =>
      (* persist the new SCIM state *)
      let scimResource := Obj.set "id" (VStr i) (JS.spread scimUser) in
      let! userName := lift (JS.get scimUser "userName") in
      let! sam := if JS.truthy userName
                  then let! s := lift (samOf userName) in ret (Some s)
                  else ret (sam_account_name row) in
      let! ts := now in
      let! _ := db_update i
                  (fun r => Db.set_updated_at ts
                              (Db.set_sync_status pending
                                 (Db.set_sam_account_name sam
                                    (Db.set_scim_resource
                                       (JSON.reparse (VObj scimResource)) r)))) in
      match identityOf row with
      | None => no_identity
      | Some adIdentity =>
          let! adParams := lift (Mapping.scimToAdParams scimUser None) in
          let setParams := PowerShell.without ["Name"; "Path"] adParams in
          let! psResult := execSetAdUser adIdentity setParams i in
          after_set psResult i
            (let! _ := mark_synced i in
             let! _ := refreshAdResource adIdentity i in
             let! updated := db_first_by_id i in
             send_user 200 [scim_json] updated baseUrl)
      end
  end.

(** PATCH /scim/v2/Users/:id; [Operations] is [None] when it is not an array. *)
Definition PATCH (i : string)
    (Operations : option (list (PatchApplier.PatchOperation value)))
    (baseUrl : string) : M Reply :=
  match Operations with
  | None | Some [] =>
      send 400 []
        (Formatter.formatError 400
           "Operations array is required and must not be empty." (Some "invalidValue"))
  | Some operations =>
      let! found := db_first_by_id i in
      match found with
      | None => not_found i
      | Some row =>
          let currentResource := scim_resource row in
          let! (patchedResource, changedFields) :=
            lift (applyPatchOps_parsed currentResource operations) in
          (* persist the patched SCIM resource *)
          let! ts := now in
          let! _ := db_update i
                      (fun r => Db.set_updated_at ts
                                  (Db.set_sync_status pending
                                     (Db.set_scim_resource
                                        (JSON.reparse
                                           (VObj (Obj.set "id" (VStr i)
                                                    (JS.spread patchedResource)))) r))) in
          match identityOf row with
          | None => no_identity
          | Some adIdentity =>
              let! adParams := lift (Mapping.scimToAdParams changedFields None) in
              let setParams := PowerShell.without ["Name"; "Path"] adParams in
              let finish :=
                let! _ := mark_synced i in
                let! _ := refreshAdResource adIdentity i in
                let! updated := db_first_by_id i in
                send_user 200 [scim_json] updated baseUrl in
              match setParams with
              | [] => finish
              | _ =>
                  let! psResult := execSetAdUser adIdentity setParams i in
                  after_set psResult i finish
              end
          end
      end
  end.

(** DELETE /scim/v2/Users/:id *)
Definition DELETE (i : string) : M Reply :=
  let! found := db_first_by_id i in
  match found with
  | None => not_found i
  | Some row =>
      let remove := let! _ := db_delete i in send 204 [] VUndefined in
      match identityOf row with
      | None => remove
      | Some adIdentity =>
          let! psResult := execRemoveAdUser adIdentity i in
          let lowered := Str.toLowerCase (PowerShell.stderr psResult) in
          let alreadyGone :=
            Str.includes lowered "cannot find" || Str.includes lowered "not found" in
          if negb (Z.eqb (PowerShell.exitCode psResult) 0) && negb alreadyGone
          then classified (PowerShell.stderr psResult)
          else remove
      end
  end.

End Handlers.
End Server.

(* ===================================================================== *)
(** ** backend.ts: [PowerShellAdBackend.createUser] *)
(* ===================================================================== *)

Module Backend.
Import Row Server.

(** [ScimBackendError], the error a backend method throws to the route. *)
Record ScimBackendError : Type := {
  status : Z;
  detail : string;
  scimType : option string
}.

Definition rowToScimUser (row : ScimUserRow) : outcome value :=
  let cached := scim_resource row in
  let* externalId := JS.get cached "externalId" in
  let* userName := JS.get cached "userName" in
  let* name := JS.get cached "name" in
  let* displayName := JS.get cached "displayName" in
  let* emails := JS.get cached "emails" in
  let* active := JS.get cached "active" in
  Ok (VObj
        [("schemas", VArr [VStr SCIM_SCHEMA_USER]);
         ("id", VStr (id row));
         ("externalId", JS.coalesce externalId VUndefined);
         ("userName",
          JS.coalesce (JS.coalesce userName (Formatter.of_option (sam_account_name row)))
                      (VStr EmptyString));
         ("name", JS.coalesce name VUndefined);
         ("displayName", JS.coalesce displayName VUndefined);
         ("emails", JS.coalesce emails VUndefined);
         ("active", JS.coalesce active VUndefined);
         ("meta",
          VObj [("resourceType", VStr "User");
                ("created", VStr (created_at row));
                ("lastModified", VStr (updated_at row))])]).

Section Methods.
Variable env : Env.

(** [inl e] is the [ScimBackendError] the method throws, [inr u] the user it
    returns. *)
Definition createUser (user : value) : M (ScimBackendError + value) :=
  let! userName := lift (JS.get user "userName") in
  let! samAccountName := lift (samOf userName) in
  let! duplicate := db_first_by_sam samAccountName in
  match duplicate with
  | Some _ =>
      ret (inl {| status := 409;
                  detail := "A user with userName '" +:+ JS.toString userName
                            +:+ "' already exists.";
                  scimType := Some "uniqueness" |})
  | None =>
      let! externalId := lift (JS.get user "externalId") in
      let! userId :=
        match externalId with
        | VUndefined | VNull => uuidv4 env
        | VStr s => ret s
        | _ => lift Beyond
        end in
      let scimResource := Obj.set "id" (VStr userId) (JS.spread user) in
      let! adParams := lift (Mapping.scimToAdParams user (Some (baseOu (config_ad env)))) in
      let! psResult :=
        execNewAdUser env
          (Obj.set "AccountPassword" (VStr (defaultPassword (config_ad env))) adParams)
          userId in
      if negb (Z.eqb (PowerShell.exitCode psResult) 0) then
        let e := Formatter.mapPsErrorToScim (PowerShell.stderr psResult) in
        ret (inl {| status := Formatter.status e;
                    detail := Formatter.detail e;
                    scimType := Formatter.scimType e |})
      else
        let objectGuid := PowerShell.extractObjectGuid (PowerShell.parsed psResult) in
        let! ts := now env in
        let! _ := db_insert
                    (mk userId objectGuid (Some samAccountName)
                        (JSON.reparse (VObj scimResource)) None synced None ts ts) in
        let! _ := match objectGuid with
                  | Some (String a g) => refreshAdResource env (String a g) userId
                  | _ => ret tt
                  end in
        let! row := db_first_by_id userId in
        match row with
        | Some r => let! u := lift (rowToScimUser r) in ret (inr u)
        | None => lift Throws
        end
  end.

End Methods.
End Backend.

(* ===================================================================== *)
(** ** Definitions used to state the properties *)
(* ===================================================================== *)

Module Spec.
Import Row Server.

(** *** The error classifier as the specification words it

    The lowercased stderr is tested against the rows of a table, top down;
    the first row whose test holds gives the status and the scimType, and a
    message matching no row gives 500. *)
Record rule : Type := {
  test : string -> bool;
  http : Z;
  scim_type : option string
}.

Definition has (needle msg : string) : bool := Str.includes msg needle.

Definition rules : list rule :=
  [ {| test := fun m => has "already exists" m || has "already in use" m;
       http := 409; scim_type := Some "uniqueness" |};
    {| test := fun m => has "cannot find an object with identity" m
                        || has "not found" m || has "no such object" m;
       http := 404; scim_type := Some "noTarget" |};
    {| test := fun m => has "password" m
                        && (has "complexity" m || has "length" m || has "requirement" m);
       http := 400; scim_type := Some "invalidValue" |};
    {| test := fun m => has "access" m && has "denied" m;
       http := 403; scim_type := None |};
    {| test := fun m => has "invalid" m || has "bad request" m;
       http := 400; scim_type := Some "invalidValue" |} ].

Definition classify (stderr : string) : Formatter.ScimErrorInfo :=
  let msg := Str.toLowerCase stderr in
  match List.find (fun r => test r msg) rules with
  | Some r => {| Formatter.status := http r; Formatter.scimType := scim_type r;
                 Formatter.detail := stderr |}
  | None => {| Formatter.status := 500; Formatter.scimType := None;
               Formatter.detail := stderr |}
  end.

(** *** Audit parameters *)

Definition sensitive_names : list string :=
  ["accountpassword"; "password"; "secret"; "token"].

(** The key is in the sensitive set, compared case-insensitively. *)
Definition sensitive (key : string) : Prop :=
  In (Str.toLowerCase key) sensitive_names.

(** Two parameter maps with the same keys in the same order, differing at
    most in the values of sensitive keys. *)
Definition differ_on_sensitive_only (p p' : list (string * value)) : Prop :=
  Forall2 (fun kv kv' => fst kv = fst kv' /\ (~ sensitive (fst kv) -> snd kv = snd kv'))
          p p'.

(** *** Worlds and runs *)

(** The state a run ends in, however it ends. *)
Definition world_of {A} (r : result A) : World :=
  match r with
  | Return _ w => w
  | Raise w => w
  | Outside w => w
  end.

(** A computation keeps a property of the cache, however it ends. *)
Definition keeps {A} (I : Db.table -> Prop) (m : M A) : Prop :=
  forall w, I (scim_users w) -> I (scim_users (world_of (m w))).

(** Hoare triples over the cache: from a table satisfying [P], a run that
    returns [a] leaves a table satisfying [Q a], and a run that ends otherwise
    leaves one satisfying [E]. *)
Definition hoare {A} (P : Db.table -> Prop) (m : M A)
    (Q : A -> Db.table -> Prop) (E : Db.table -> Prop) : Prop :=
  forall w, P (scim_users w) ->
    match m w with
    | Return a w' => Q a (scim_users w')
    | Raise w' => E (scim_users w')
    | Outside w' => E (scim_users w')
    end.

(** [sync_status = synced] implies [last_error IS NULL]. *)
Definition synced_clean (r : ScimUserRow) : Prop :=
  sync_status r = synced -> last_error r = None.

(** A stored [sam_account_name] has at most 20 characters and no at-sign. *)
Definition sam_ok (r : ScimUserRow) : Prop :=
  forall s, sam_account_name r = Some s ->
            String.length s <= 20 /\ Str.includes s "@" = false.

(** The portion of [userName] before the first at-sign, cut to 20 characters. *)
Definition derive_sam (userName : string) : string :=
  Str.substring 0 20 (hd EmptyString (Str.split "@" userName)).

(** The [sam_account_name] a replace leaves in the row: derived from a
    non-empty [userName], else the one the row had. *)
Definition replaced_sam (user : value) (old : option string) : option string :=
  match JS.get user "userName" with
  | Ok (VStr (String c s)) => Some (derive_sam (String c s))
  | _ => old
  end.

(** The claim on replace, read literally: whenever a replace returns, the
    [sam_account_name] it left in the row is the one derived from the
    [userName] of the request. *)
Definition replace_derives_sam (env : Env) (i : string) (user : value)
    (baseUrl : string) (w : World) : Prop :=
  forall reply w' r s,
    PUT env i user baseUrl w = Return reply w' ->
    Db.first_by_id i (scim_users w') = Some r ->
    JS.get user "userName" = Ok (VStr s) ->
    sam_account_name r = Some (derive_sam s).

(** The reply of a replace or patch that finds no identity for the row. *)
Definition cannot_identify : Reply :=
  {| status := 500; headers := [];
     body := Formatter.formatError 500
               "Cannot identify AD account: no objectGUID or samAccountName." None |}.

(** The row of [i] holds [view] as its SCIM view and is [pending]. *)
Definition persisted_pending (i : string) (view : value) (w : World) : Prop :=
  exists row, Db.first_by_id i (scim_users w) = Some row
              /\ scim_resource row = view
              /\ sync_status row = pending.

(** Neither table changed. *)
Definition untouched (w w' : World) : Prop :=
  scim_users w' = scim_users w /\ powershell_executions w' = powershell_executions w.

(** The claim on the row without identity, read literally for one run: the
    run replies 500 and the row of [i] holds a new view and is [pending]. *)
Definition refused_after_persist (i : string) (r : result Reply) : Prop :=
  exists reply w' view,
    r = Return reply w' /\ status reply = 500%Z /\ persisted_pending i view w'.

(** The directory tool fails whatever it is asked. *)
Definition exits_nonzero (o : PowerShell.ExecOutcome) : Prop :=
  match o with
  | PowerShell.Resolved _ _ => False
  | PowerShell.Rejected _ _ code _ => default 1%Z code <> 0%Z
  end.

(** The reply carrying the classified error of a stderr. *)
Definition classified_reply (stderr : string) : Reply :=
  let e := Formatter.mapPsErrorToScim stderr in
  {| status := Formatter.status e;
     headers := [];
     body := Formatter.formatError (Formatter.status e) (Formatter.detail e)
               (Formatter.scimType e) |}.

(** [res] is what [executePowerShell] returns for some answer of the tool. *)
Definition tool_result (env : Env) (res : PowerShell.PowerShellResult) : Prop :=
  exists n script cmd params uid,
    res = fst (PowerShell.executePowerShell (json_parse env)
                 (powershell_exe env n script) (elapsed_ms env n) cmd params uid).

(** The stderr a settled process is reported with. *)
Definition stderr_of (o : PowerShell.ExecOutcome) : string :=
  match o with
  | PowerShell.Resolved _ e => e
  | PowerShell.Rejected _ e _ message => default message e
  end.

(** *** The mapped subset of a SCIM user *)

(** The value of the primary email: the first element flagged primary, else
    the first element. *)
Definition primary_email_value (u : value) : outcome value :=
  let* emails := JS.get u "emails" in
  match emails with
  | VArr (e :: l) =>
      let* found := Mapping.find_primary (e :: l) in
      JS.get (default e found) "value"
  | _ => Ok VUndefined
  end.

Record mapped : Type := {
  m_userName : value;
  m_givenName : value;
  m_familyName : value;
  m_email : outcome value;
  m_displayName : value;
  m_active : value;
  m_externalId : value
}.

(** userName, name.givenName, name.familyName, the primary email value,
    displayName, active, externalId. *)
Definition mapped_subset (u : value) : mapped :=
  {| m_userName := JS.get_opt u "userName";
     m_givenName := JS.get_opt (JS.get_opt u "name") "givenName";
     m_familyName := JS.get_opt (JS.get_opt u "name") "familyName";
     m_email := primary_email_value u;
     m_displayName := JS.get_opt u "displayName";
     m_active := JS.get_opt u "active";
     m_externalId := JS.get_opt u "externalId" |}.

End Spec.

(* ===================================================================== *)
(** ** Sample worlds and requests *)
(* ===================================================================== *)

Module Sample.
Import Row Server.

Definition config : Config :=
  {| baseOu := "OU=Users,DC=ex,DC=com"; defaultPassword := "Passw0rd!" |}.

(** A world whose directory tool always settles the same way. *)
Definition env_of (answer : PowerShell.ExecOutcome) (doc : option value) : Env :=
  {| config_ad := config;
     powershell_exe := fun _ _ => answer;
     elapsed_ms := fun _ => 12%Z;
     json_parse := fun _ => doc;
     clock := fun n => "2026-01-01T00:00:00." +:+ Str.of_nat n +:+ "Z";
     uuid := fun n => "00000000-0000-4000-8000-00000000000" +:+ Str.of_nat n |}.

Definition guid : string := "11111111-1111-1111-1111-111111111111".

(** The tool succeeds and prints the created object. *)
Definition env_created : Env :=
  env_of (PowerShell.Resolved "{ObjectGUID}" EmptyString)
         (Some (VObj [("ObjectGUID", VStr guid)])).

(** The tool exits with code 1 and complains on stderr. *)
Definition env_denied : Env :=
  env_of (PowerShell.Rejected None (Some "Access is denied.") (Some 1%Z) "Error")
         None.

Definition empty : World :=
  {| scim_users := []; powershell_executions := []; steps := 0 |}.

Definition alice : value :=
  VObj [("userName", VStr "alice@ex.com"); ("externalId", VStr "abc");
        ("name", VObj [("givenName", VStr "Al"); ("familyName", VStr "Ice")]);
        ("active", VBool true)].

(** A user with two emails, the second one flagged primary, and the
    parameter set [scimToAdParams] builds for it. *)
Definition carol : list (string * value) :=
  [("userName", VStr "carol@ex.com"); ("externalId", VStr "c7");
   ("name", VObj [("givenName", VStr "Carol"); ("familyName", VStr "Day")]);
   ("emails", VArr [VObj [("value", VStr "cd@home.org"); ("type", VStr "home")];
                    VObj [("value", VStr "carol@ex.com"); ("primary", VBool true)]]);
   ("active", VBool false)].

Definition carol_params : Mapping.AdUserParams :=
  [("SamAccountName", VStr "carol@ex.com"); ("UserPrincipalName", VStr "carol@ex.com");
   ("GivenName", VStr "Carol"); ("Surname", VStr "Day");
   ("EmailAddress", VStr "carol@ex.com"); ("Enabled", VBool false);
   ("EmployeeID", VStr "c7"); ("Name", VStr "carol@ex.com");
   ("Path", VStr "OU=Users,DC=ex,DC=com")].

Definition alice_row : ScimUserRow :=
  mk "abc" (Some guid) (Some "alice")
     (VObj [("userName", VStr "alice@ex.com"); ("externalId", VStr "abc");
            ("name", VObj [("givenName", VStr "Al"); ("familyName", VStr "Ice")]);
            ("active", VBool true); ("id", VStr "abc")])
     None synced None "2026-01-01T00:00:00.0Z" "2026-01-01T00:00:00.0Z".

Definition with_alice : World :=
  {| scim_users := [alice_row]; powershell_executions := []; steps := 1 |}.

(** A row that lost both its objectGUID and its sam_account_name. *)
Definition orphan_row : ScimUserRow :=
  mk "o1" None None
     (VObj [("userName", VStr "orphan"); ("id", VStr "o1")])
     None synced None "2026-01-01T00:00:00.0Z" "2026-01-01T00:00:00.0Z".

Definition with_orphan : World :=
  {| scim_users := [orphan_row]; powershell_executions := []; steps := 1 |}.

(** The row created for [x@y]. *)
Definition x_row : ScimUserRow :=
  mk "x1" (Some guid) (Some "x")
     (VObj [("userName", VStr "x@y"); ("id", VStr "x1")])
     None synced None "2026-01-01T00:00:00.0Z" "2026-01-01T00:00:00.0Z".

Definition with_x : World :=
  {| scim_users := [x_row]; powershell_executions := []; steps := 1 |}.

(** The orphan row beside the row of [x@y], whose sam_account_name is [x]. *)
Definition with_orphan_and_x : World :=
  {| scim_users := [orphan_row; x_row]; powershell_executions := []; steps := 2 |}.

(** [{op: 'add'}]: neither path nor value. *)
Definition add_without_value : PatchApplier.PatchOperation value :=
  {| PatchApplier.op := "add";
     PatchApplier.path := None;
     PatchApplier.value := VUndefined |}.

(** [{op: 'replace', path: 'nickName', value: 'Orph'}] *)
Definition set_nickName : PatchApplier.PatchOperation value :=
  {| PatchApplier.op := "replace";
     PatchApplier.path := Some "nickName";
     PatchApplier.value := VStr "Orph" |}.

(** The text [userName eq Qx@yQ], Q the double quote. *)
Definition filter_x_at_y : string :=
  "userName eq " +:+ String Str.dquote ("x@y" +:+ String Str.dquote EmptyString).

(** The text [emails[type eq QworkQ].value], Q the double quote. *)
Definition work_email_path : string :=
  "emails[type eq " +:+ String Str.dquote ("work" +:+ String Str.dquote "].value").

(** The filter inside it: [type eq QworkQ]. *)
Definition work_filter : string :=
  "type eq " +:+ String Str.dquote ("work" +:+ String Str.dquote EmptyString).

(** [{op: 'add', path: 'emails[type eq QworkQ].value', value: 'a@b'}] *)
Definition add_work_email : PatchApplier.PatchOperation Heap.ref :=
  {| PatchApplier.op := "add";
     PatchApplier.path := Some work_email_path;
     PatchApplier.value := Heap.RStr "a@b" |}.

(** The element the operation builds, as stored and as read. *)
Definition work_item : Heap.cell :=
  Heap.CObj [("type", Heap.RStr "work"); ("value", Heap.RStr "a@b")].

Definition work_emails : value :=
  VArr [VObj [("type", VStr "work"); ("value", VStr "a@b")]].

End Sample.

(* ===================================================================== *)
(** ** plugins/auth.ts *)
(* ===================================================================== *)

Module Auth.
Import Server.

(** [s.slice(n)] for [0 <= n] *)
Definition slice (n : nat) (s : string) : string :=
  String.substring n (String.length s - n) s.

(** [s.indexOf(c)] for a one-character [c]; [None] is -1. *)
Fixpoint indexOf (c : ascii) (s : string) : option nat :=
  match s with
  | EmptyString => None
  | String d s' => if Ascii.eqb d c then Some 0 else S <$> indexOf c s'
  end.

(** The header [WWW-Authenticate: Basic realm=Qscim-ad-bridgeQ], Q the double
    quote. *)
Definition challenge : string * string :=
  ("WWW-Authenticate",
   "Basic realm=" +:+ String Str.dquote ("scim-ad-bridge" +:+ String Str.dquote EmptyString)).

Definition unauthorized (detail : string) : Reply :=
  {| status := 401;
     headers := [challenge];
     body := VObj [("schemas", VArr [VStr "urn:ietf:params:scim:api:messages:2.0:Error"]);
                   ("status", VNum 401);
                   ("detail", VStr detail)] |}.

Section Plugin.
(** [Buffer.from(s, 'base64').toString('utf8')] and [config.apiKey] *)
Variable base64_utf8 : string -> string.
Variable apiKey : string.

(** The [authenticate] hook on the value of the [authorization] header:
    [Some reply] when the hook answers the request itself, [None] when it
    lets the request through. *)
Definition authenticate (authorization : option string) : option Reply :=
  let authHeader := default EmptyString authorization in
  if negb (String.prefix "Basic " authHeader) then
    Some (unauthorized "Authorization header with Basic credentials is required.")
  else
    let decoded := base64_utf8 (slice 6 authHeader) in
    (* split only on the first colon *)
    let password := match indexOf ":" decoded with
                    | None => decoded
                    | Some colonIndex => slice (colonIndex + 1) decoded
                    end in
    if negb (String.eqb password apiKey) then Some (unauthorized "Invalid credentials.")
    else None.

End Plugin.
End Auth.

(* ===================================================================== *)
(** ** middleware/request-logger.ts *)
(* ===================================================================== *)

Module RequestLogger.

(** The [query_string] column of the row the [onRequest] hook inserts:
    [rawUrl.includes('?') ? rawUrl.split('?').slice(1).join('?') : null] *)
Definition qs (rawUrl : string) : option string :=
  if Str.includes rawUrl "?"
  then Some (Str.join "?" (tl (Str.split "?" rawUrl)))
  else None.

End RequestLogger.

(* ===================================================================== *)
(** ** backend.ts: the other methods *)
(* ===================================================================== *)

Module BackendOps.
Import Row Server Backend.

Section Methods.
Variable env : Env.
(** [mapPsErrorToScim] of [./ps-errors], a module that is not among the
    sources; the methods are read for whatever function it is. *)
Variable mapPsErrorToScim : string -> Formatter.ScimErrorInfo.

Definition no_such_user (i : string) : ScimBackendError :=
  {| status := 404; detail := "User " +:+ i +:+ " not found.";
     scimType := Some "noTarget" |}.

Definition classified_error (stderr : string) : ScimBackendError :=
  let e := mapPsErrorToScim stderr in
  {| status := Formatter.status e;
     detail := Formatter.detail e;
     scimType := Formatter.scimType e |}.

Definition getUser (i : string) : M (ScimBackendError + value) :=
  let! row := db_first_by_id i in
  match row with
  | None => ret (inl (no_such_user i))
  | Some r => let! u := lift (rowToScimUser r) in ret (inr u)
  end.

Definition deleteUser (i : string) : M (ScimBackendError + unit) :=
  let! found := db_first_by_id i in
  match found with
  | None => ret (inl (no_such_user i))
  | Some row =>
      let remove := let! _ := db_delete i in ret (inr tt) in
      match identityOf row with
      | None => remove
      | Some adIdentity =>
          let! psResult := execRemoveAdUser env adIdentity i in
          let lowered := Str.toLowerCase (PowerShell.stderr psResult) in
          let alreadyGone :=
            Str.includes lowered "cannot find" || Str.includes lowered "not found" in
          if negb (Z.eqb (PowerShell.exitCode psResult) 0) && negb alreadyGone
          then ret (inl (classified_error (PowerShell.stderr psResult)))
          else remove
      end
  end.

Definition no_identity_error : ScimBackendError :=
  {| status := 500;
     detail := "Cannot identify AD account: no objectGUID or samAccountName.";
     scimType := None |}.

(** The tail shared by [replaceUser] and [patchUser] once the tool has
    answered. *)
Definition after_set (psResult : PowerShell.PowerShellResult) (i : string)
    (k : M (ScimBackendError + value)) : M (ScimBackendError + value) :=
  if negb (Z.eqb (PowerShell.exitCode psResult) 0) then
    let! ts := now env in
    let! _ := db_update i
                (fun r => Db.set_updated_at ts
                            (Db.set_last_error
                               (Some (Str.substring 0 2000 (PowerShell.stderr psResult)))
                               (Db.set_sync_status error r))) in
    ret (inl (classified_error (PowerShell.stderr psResult)))
  else k.

Definition finish (adIdentity i : string) : M (ScimBackendError + value) :=
  let! _ := mark_synced env i in
  let! _ := refreshAdResource env adIdentity i in
  let! updated := db_first_by_id i in
  match updated with
  | Some r => let! u := lift (rowToScimUser r) in ret (inr u)
  | None => lift Throws
  end.

Definition replaceUser (i : string) (user : value) : M (ScimBackendError + value) :=
  let! found := db_first_by_id i in
  match found with
  | None => ret (inl (no_such_user i))
  | Some row =>
      let scimResource := Obj.set "id" (VStr i) (JS.spread user) in
      let! userName := lift (JS.get user "userName") in
      let! sam := if JS.truthy userName
                  then let! s := lift (samOf userName) in ret (Some s)
                  else ret (sam_account_name row) in
      let! ts := now env in
      let! _ := db_update i
                  (fun r => Db.set_updated_at ts
                              (Db.set_sync_status pending
                                 (Db.set_sam_account_name sam
                                    (Db.set_scim_resource
                                       (JSON.reparse (VObj scimResource)) r)))) in
      match identityOf row with
      | None => ret (inl no_identity_error)
      | Some adIdentity =>
          let! adParams := lift (Mapping.scimToAdParams user None) in
          let setParams := PowerShell.without ["Name"; "Path"] adParams in
          let! psResult := execSetAdUser env adIdentity setParams i in
          after_set psResult i (finish adIdentity i)
      end
  end.

End Methods.
End BackendOps.

(* ===================================================================== *)
(** ** Notions used in the statements below *)
(* ===================================================================== *)

Module Notions.
Import Row Server.

(** The fields of [interface AdUserParams], in the order of the source. *)
Definition AdUserParams_fields : list string :=
  ["SamAccountName"; "GivenName"; "Surname"; "EmailAddress"; "DisplayName";
   "Name"; "Enabled"; "EmployeeID"; "Path"; "UserPrincipalName"].

(** The top-level members [mergeAdIntoScim] may assign. *)
Definition merged_members : list string :=
  ["userName"; "displayName"; "name"; "emails"; "active"].

(** A user as [interface ScimUser] types the members the mapper reads:
    [userName] a string when present, [emails] a list of objects when
    present. *)
Definition is_object (v : value) : bool :=
  match v with VObj _ => true | _ => false end.

Definition typed_user (ps : list (string * value)) : Prop :=
  match Obj.lookup "userName" ps with
  | Some (VStr _) | Some VUndefined | None => True
  | Some _ => False
  end
  /\ match Obj.lookup "emails" ps with
     | Some (VArr l) => forallb is_object l = true
     | Some VUndefined | None => True
     | Some _ => False
     end.

(** The names of the properties of an object, in order. *)
Definition keys {A} (ps : list (string * A)) : list string := map fst ps.

(** The exit code [executePowerShell] reports for a settled process. *)
Definition exit_of (o : PowerShell.ExecOutcome) : Z :=
  match o with
  | PowerShell.Resolved _ _ => 0%Z
  | PowerShell.Rejected _ _ code _ => default 1%Z code
  end.

(** The stderr of a removal that found no such account. *)
Definition already_gone (stderr : string) : bool :=
  Str.includes (Str.toLowerCase stderr) "cannot find"
  || Str.includes (Str.toLowerCase stderr) "not found".

(** The names every object inherits from [Object.prototype]: a read of one
    of them finds the inherited member when the object has none of its own,
    and an assignment to [__proto__] stores no property. *)
Definition Object_prototype : list string :=
  ["constructor"; "__defineGetter__"; "__defineSetter__"; "hasOwnProperty";
   "__lookupGetter__"; "__lookupSetter__"; "isPrototypeOf"; "propertyIsEnumerable";
   "toString"; "valueOf"; "__proto__"; "toLocaleString"].

Definition inherited (k : string) : bool := existsb (String.eqb k) Object_prototype.

(** A filter whose attribute, if it has one, is not an inherited name. *)
Definition plain_attribute (filter : string) : bool :=
  match Re.exec FilterParser.FILTER_RE (Str.trim filter) with
  | Some m => negb (inherited (Str.toLowerCase (default EmptyString (Re.group 1 m))))
  | None => true
  end.

(** A path that names a top-level attribute: neither a dot nor a bracket. *)
Definition simple_path (p : string) : bool :=
  negb (Str.includes p ".") && negb (Str.includes p "[").

(** An operation that has no path, or a path that names a top-level
    attribute. *)
Definition top_level {V} (o : PatchApplier.PatchOperation V) : bool :=
  match PatchApplier.path o with
  | Some (String c p) => simple_path (String c p)
  | _ => true
  end.

(** An operation that has no path and a verb other than add and replace. *)
Definition ignored {V} (o : PatchApplier.PatchOperation V) : bool :=
  match PatchApplier.path o with
  | Some (String _ _) => false
  | _ => negb (String.eqb (Str.toLowerCase (PatchApplier.op o)) "add"
               || String.eqb (Str.toLowerCase (PatchApplier.op o)) "replace")
  end.

(** What [sanitizeParams] makes of one entry. *)
Definition redacted (kv : string * value) : string * value :=
  (fst kv, if PowerShell.is_sensitive (fst kv) then VStr PowerShell.REDACTED else snd kv).

(** Each pair of single quotes read as one. *)
Fixpoint undouble (s : string) : string :=
  match s with
  | EmptyString => EmptyString
  | String c s' =>
      String c (match s' with
                | String d s'' =>
                    if Ascii.eqb c "'" && Ascii.eqb d "'" then undouble s''
                    else undouble s'
                | EmptyString => EmptyString
                end)
  end.

(** The discipline of the [last_error] column: a row in status [error] has
    one, and no stored one is longer than 2000 characters. *)
Definition error_recorded (r : ScimUserRow) : Prop :=
  (sync_status r = error -> last_error r <> None)
  /\ (forall e, last_error r = Some e -> String.length e <= 2000).

(** The reply a route builds from the error a backend method throws. *)
Definition error_reply (e : Backend.ScimBackendError) : Reply :=
  {| status := Backend.status e; headers := [];
     body := Formatter.formatError (Backend.status e) (Backend.detail e)
               (Backend.scimType e) |}.

(** The reply of a successful removal. *)
Definition no_content : Reply :=
  {| status := 204; headers := []; body := VUndefined |}.

End Notions.

(* ===================================================================== *)
(** ** Further sample requests *)
(* ===================================================================== *)

Module Cases.
Import Row Server.

(** The text [userName ne Qx@yQ], Q the double quote. *)
Definition filter_ne : string :=
  "userName ne " +:+ String Str.dquote ("x@y" +:+ String Str.dquote EmptyString).

(** [{op: 'replace', path: 'title', value: 'Boss'}] *)
Definition set_title : PatchApplier.PatchOperation value :=
  {| PatchApplier.op := "replace";
     PatchApplier.path := Some "title";
     PatchApplier.value := VStr "Boss" |}.

(** A heap holding one user, and operations on it. *)
Definition one_user : Heap.heap := [Heap.CObj [("userName", Heap.RStr "x")]].

Definition set_displayName : PatchApplier.PatchOperation Heap.ref :=
  {| PatchApplier.op := "Replace";
     PatchApplier.path := Some "displayName";
     PatchApplier.value := Heap.RStr "X" |}.

Definition remove_nothing : PatchApplier.PatchOperation Heap.ref :=
  {| PatchApplier.op := "remove";
     PatchApplier.path := None;
     PatchApplier.value := Heap.RUndefined |}.

(** The parameters [createUser] hands to [execNewAdUser] for carol. *)
Definition carol_new : list (string * value) :=
  Sample.carol_params ++ [("AccountPassword", VStr "Passw0rd!")].

(** A parameter object with a secret in it. *)
Definition with_token : list (string * value) :=
  [("identity", VStr "x"); ("Token", VStr "t0p"); ("Enabled", VBool true)].

(** The credentials [scim:secret] and their header. *)
Definition basic_header : string := "Basic c2NpbTpzZWNyZXQ=".

Definition decode (s : string) : string :=
  if String.eqb s "c2NpbTpzZWNyZXQ=" then "scim:secret" else EmptyString.

(** What the directory prints for a removal of an account it does not
    have. *)
Definition env_gone : Env :=
  Sample.env_of
    (PowerShell.Rejected None (Some "Cannot find an object with identity: 'x'")
       (Some 1%Z) "Error")
    None.

End Cases.

(* ===================================================================== *)
(** ** Properties *)
(* ===================================================================== *)

(** *** Objects as property lists *)

Section ObjFacts.
Context {A : Type}.
Implicit Types (ps : list (string * A)) (k : string) (v : A).

Lemma lookup_set_eq ps k v : Obj.lookup k (Obj.set k v ps) = Some v.
Proof.
  induction ps as [|[k' v'] ps IH]; simpl.
  - now rewrite String.eqb_refl.
  - destruct (String.eqb k' k) eqn:E; simpl; rewrite E; auto.
Qed.

Lemma lookup_set_ne ps k k' v :
  k <> k' -> Obj.lookup k (Obj.set k' v ps) = Obj.lookup k ps.
Proof.
  intros Hne. induction ps as [|[k0 v0] ps IH]; simpl.
  - destruct (String.eqb k' k) eqn:E; auto.
    apply String.eqb_eq in E. congruence.
  - destruct (String.eqb k0 k') eqn:E; simpl.
    + apply String.eqb_eq in E. subst k0.
      destruct (String.eqb k' k) eqn:E'; auto.
      apply String.eqb_eq in E'. congruence.
    + destruct (String.eqb k0 k); auto.
Qed.

Lemma set_same ps k v : Obj.lookup k ps = Some v -> Obj.set k v ps = ps.
Proof.
  induction ps as [|[k' v'] ps IH]; simpl; [discriminate|].
  destruct (String.eqb k' k) eqn:E.
  - intros [= ->]. reflexivity.
  - intros H. now rewrite IH.
Qed.

Lemma in_set ps k v k0 v0 :
  In (k, v) (Obj.set k0 v0 ps) -> (k = k0 /\ v = v0) \/ In (k, v) ps.
Proof.
  induction ps as [|[k' v'] ps IH]; simpl.
  - intros [[= <- <-]|[]]. now left.
  - destruct (String.eqb k' k0) eqn:E; simpl.
    + apply String.eqb_eq in E. subst k'.
      intros [[= <- <-]|H]; [now left | right; now right].
    + intros [H|H]; [right; now left|].
      destruct (IH H) as [?|?]; [now left | right; now right].
Qed.

End ObjFacts.

(** *** C8: the error classifier *)

(** C8.  For every stderr string the classifier lowercases it and tests
    the substring rules in the order of the table, the first match winning
    (409 uniqueness, 404 noTarget, 400 invalidValue for the password rules,
    403, 400 invalidValue, otherwise 500); the detail it returns is always
    the original stderr. *)
Theorem mapPsErrorToScim_follows_table (stderr : string) :
  Formatter.mapPsErrorToScim stderr = Spec.classify stderr
  /\ Formatter.detail (Formatter.mapPsErrorToScim stderr) = stderr.
Proof.
  unfold Formatter.mapPsErrorToScim, Spec.classify, Spec.rules, Spec.has.
  cbn [List.find Spec.test Spec.http Spec.scim_type].
  set (msg := Str.toLowerCase stderr).
  destruct (Str.includes msg "already exists"),
           (Str.includes msg "already in use"); cbn [orb]; auto;
  destruct (Str.includes msg "cannot find an object with identity"),
           (Str.includes msg "not found"),
           (Str.includes msg "no such object"); cbn [orb]; auto;
  destruct (Str.includes msg "password"); cbn [andb];
  try (destruct (Str.includes msg "complexity"),
                (Str.includes msg "length"),
                (Str.includes msg "requirement"); cbn [orb]; auto);
  destruct (Str.includes msg "access"), (Str.includes msg "denied");
  cbn [andb]; auto;
  destruct (Str.includes msg "invalid"), (Str.includes msg "bad request");
  cbn [orb]; auto.
Qed.

(** The order matters: a message matching two rows takes the earlier one,
    and the case of the original text survives in the detail. *)
Example classifier_first_match :
  Formatter.mapPsErrorToScim "Password INVALID: object Not Found"
  = {| Formatter.status := 404; Formatter.scimType := Some "noTarget";
       Formatter.detail := "Password INVALID: object Not Found" |}.
Proof. reflexivity. Qed.

(** *** C1: redaction in the audit row *)

Section Redaction.
Import PowerShell.

Local Abbreviation redact_step :=
  (fun (safe : list (string * value)) (kv : string * value) =>
     Obj.set (fst kv) (if is_sensitive (fst kv) then VStr REDACTED else snd kv) safe).

Lemma is_sensitive_iff key : is_sensitive key = true <-> Spec.sensitive key.
Proof.
  unfold is_sensitive, Spec.sensitive, Spec.sensitive_names, SENSITIVE_KEYS.
  rewrite existsb_exists. split.
  - intros (x & Hin & Heq). apply String.eqb_eq in Heq. now subst x.
  - intros Hin. exists (Str.toLowerCase key). split; [exact Hin | apply String.eqb_refl].
Qed.

Lemma redacted_stays params : forall acc k,
  Obj.lookup k acc = Some (VStr REDACTED) -> is_sensitive k = true ->
  Obj.lookup k (fold_left redact_step params acc) = Some (VStr REDACTED).
Proof.
  induction params as [|[k1 v1] params IH]; intros acc k Hacc Hk; simpl; [exact Hacc|].
  apply IH; [|exact Hk]. simpl.
  destruct (string_dec k k1) as [->|Hne].
  - rewrite Hk. apply lookup_set_eq.
  - now rewrite lookup_set_ne.
Qed.

Lemma sensitive_key_redacted params : forall acc k v,
  In (k, v) params -> is_sensitive k = true ->
  Obj.lookup k (fold_left redact_step params acc) = Some (VStr REDACTED).
Proof.
  induction params as [|[k1 v1] params IH]; intros acc k v Hin Hk; simpl; [destruct Hin|].
  destruct Hin as [[= -> ->]|Hin].
  - apply redacted_stays; [|exact Hk].
    simpl. rewrite Hk. apply lookup_set_eq.
  - eapply IH; eauto.
Qed.

Lemma sanitize_blind params params' :
  Spec.differ_on_sensitive_only params params' ->
  forall acc, fold_left redact_step params acc = fold_left redact_step params' acc.
Proof.
  induction 1 as [|[k v] [k' v'] l l' [Hk Hv] _ IH]; intros acc; simpl; [reflexivity|].
  simpl in Hk, Hv. subst k'.
  assert (E : (if is_sensitive k then VStr REDACTED else v)
              = (if is_sensitive k then VStr REDACTED else v')).
  { destruct (is_sensitive k) eqn:E; [reflexivity|].
    apply Hv. intros Hs. apply is_sensitive_iff in Hs. congruence. }
  rewrite E. apply IH.
Qed.

Lemma audit_parameters json_parse settled elapsed cmd params uid :
  parameters (snd (executePowerShell json_parse settled elapsed cmd params uid))
  = JSON.stringify (VObj (sanitizeParams params)).
Proof. unfold executePowerShell. destruct settled; reflexivity. Qed.

End Redaction.

(** C1.  The audit row of an execution holds the serialization of the
    sanitized parameter map; in that map every key of the sensitive set
    (accountpassword, password, secret, token, compared case-insensitively)
    holds the fixed redaction marker; and two parameter maps that differ only
    in the values of sensitive keys give the same serialized audit
    parameters. *)
Theorem audit_parameters_redacted
    (json_parse : string -> option value)
    (settled settled' : PowerShell.ExecOutcome) (elapsed elapsed' : Z)
    (cmdlet : string) (uid : option string)
    (params params' : list (string * value)) :
  Spec.differ_on_sensitive_only params params' ->
  let audit :=
    snd (PowerShell.executePowerShell json_parse settled elapsed cmdlet params uid) in
  let audit' :=
    snd (PowerShell.executePowerShell json_parse settled' elapsed' cmdlet params' uid) in
  PowerShell.parameters audit
    = JSON.stringify (VObj (PowerShell.sanitizeParams params))
  /\ (forall k v, In (k, v) params -> Spec.sensitive k ->
        Obj.lookup k (PowerShell.sanitizeParams params) = Some (VStr "***REDACTED***"))
  /\ PowerShell.parameters audit = PowerShell.parameters audit'.
Proof.
  intros Hdiff audit audit'. subst audit audit'.
  rewrite !audit_parameters. repeat split.
  - intros k v Hin Hs. apply is_sensitive_iff in Hs.
    exact (sensitive_key_redacted params [] k v Hin Hs).
  - unfold PowerShell.sanitizeParams.
    exact (f_equal (fun safe => JSON.stringify (VObj safe))
                   (sanitize_blind params params' Hdiff [])).
Qed.

(** Two create calls that differ in the password only. *)
Lemma audit_parameters_redacted_witness :
  Spec.differ_on_sensitive_only
    [("SamAccountName", VStr "alice"); ("AccountPassword", VStr "hunter2")]
    [("SamAccountName", VStr "alice"); ("AccountPassword", VStr "S3cret!")]
  /\ PowerShell.parameters
       (snd (PowerShell.executePowerShell (fun _ => None)
               (PowerShell.Resolved EmptyString EmptyString) 5 "New-ADUser"
               [("SamAccountName", VStr "alice"); ("AccountPassword", VStr "hunter2")]
               (Some "abc")))
     = PowerShell.parameters
         (snd (PowerShell.executePowerShell (fun _ => None)
                 (PowerShell.Rejected None None None "boom") 7 "New-ADUser"
                 [("SamAccountName", VStr "alice"); ("AccountPassword", VStr "S3cret!")]
                 (Some "abc"))).
Proof.
  assert (H : Spec.differ_on_sensitive_only
    [("SamAccountName", VStr "alice"); ("AccountPassword", VStr "hunter2")]
    [("SamAccountName", VStr "alice"); ("AccountPassword", VStr "S3cret!")]).
  { repeat constructor; simpl; intros Hn; exfalso; apply Hn;
      unfold Spec.sensitive; simpl; auto. }
  split; [exact H|].
  exact (proj2 (proj2 (audit_parameters_redacted (fun _ => None)
           (PowerShell.Resolved EmptyString EmptyString)
           (PowerShell.Rejected None None None "boom") 5 7 "New-ADUser" (Some "abc")
           _ _ H))).
Defined.

(** *** A program logic for the handlers *)

Section Logic.
Import Row Server Spec.
Context {A B : Type}.
Implicit Types (P E : Db.table -> Prop).

Lemma hoare_keeps P (m : M A) : hoare P m (fun _ t => P t) P -> keeps P m.
Proof.
  intros H w Hw. specialize (H w Hw). destruct (m w); simpl; tauto.
Qed.

Lemma hoare_conseq P P' E E' (m : M A) (Q Q' : A -> Db.table -> Prop) :
  hoare P m Q E ->
  (forall t, P' t -> P t) -> (forall a t, Q a t -> Q' a t) -> (forall t, E t -> E' t) ->
  hoare P' m Q' E'.
Proof.
  intros H HP HQ HE w Hw. specialize (H w (HP _ Hw)). destruct (m w); auto.
Qed.

Lemma hoare_ret P E (a : A) (Q : A -> Db.table -> Prop) :
  (forall t, P t -> Q a t) -> hoare P (ret a) Q E.
Proof. intros HQ w Hw. simpl. auto. Qed.

Lemma hoare_bind P E (m : M A) (f : A -> M B)
    (Q : A -> Db.table -> Prop) (R : B -> Db.table -> Prop) :
  hoare P m Q E -> (forall a, hoare (Q a) (f a) R E) -> hoare P (bind m f) R E.
Proof.
  intros Hm Hf w Hw. unfold bind. specialize (Hm w Hw).
  destruct (m w) as [a w'| |]; auto. exact (Hf a w' Hm).
Qed.

Lemma hoare_lift P E (o : outcome A) (Q : A -> Db.table -> Prop) :
  (forall a t, o = Ok a -> P t -> Q a t) -> (forall t, P t -> E t) ->
  hoare P (lift o) Q E.
Proof. intros HQ HE w Hw. unfold lift. destruct o; auto. Qed.

Lemma hoare_try_catch P E E' (m h : M A) (Q : A -> Db.table -> Prop) :
  hoare P m Q E' -> (forall t, E' t -> E t) -> hoare E' h Q E ->
  hoare P (try_catch m h) Q E.
Proof.
  intros Hm HE Hh w Hw. unfold try_catch. specialize (Hm w Hw).
  destruct (m w) as [a w'|w'|w']; auto. exact (Hh w' Hm).
Qed.

(** A computation that leaves [scim_users] alone keeps every assertion. *)
Lemma hoare_frame P E (m : M A) (Q : A -> Prop) :
  (forall w, match m w with
             | Return a w' => scim_users w' = scim_users w /\ Q a
             | Raise w' => scim_users w' = scim_users w
             | Outside w' => scim_users w' = scim_users w
             end) ->
  (forall t, P t -> E t) ->
  hoare P m (fun a t => P t /\ Q a) E.
Proof.
  intros H HE w Hw. specialize (H w).
  destruct (m w) as [a w'|w'|w']; [destruct H as [-> ?]; auto | rewrite H; auto ..].
Qed.

End Logic.

Section LogicRules.
Import Row Server Spec.
Variable env : Env.
Variables P E : Db.table -> Prop.
Hypothesis PE : forall t, P t -> E t.

(** Sequencing when the assertion stays and the first step yields a fact
    about its value. *)
Lemma hoare_seq {A B} (m : M A) (f : A -> M B) (F : A -> Prop)
    (R : B -> Db.table -> Prop) :
  hoare P m (fun a t => P t /\ F a) E ->
  (forall a, F a -> hoare P (f a) R E) ->
  hoare P (bind m f) R E.
Proof.
  intros Hm Hf. eapply hoare_bind; [exact Hm|].
  intros a w [Hw Ha]. exact (Hf a Ha w Hw).
Qed.

Lemma hoare_pure {A} (o : outcome A) :
  hoare P (lift o) (fun a t => P t /\ o = Ok a) E.
Proof. apply hoare_lift; auto. Qed.

Lemma hoare_send st hs b (Q : Reply -> Db.table -> Prop) :
  (forall t, P t -> Q {| status := st; headers := hs; body := b |} t) ->
  hoare P (send st hs b) Q E.
Proof. intros H. apply hoare_ret. exact H. Qed.

Lemma hoare_first_by_id i :
  hoare P (db_first_by_id i)
        (fun o t => P t /\ exists t1, P t1 /\ o = Db.first_by_id i t1) E.
Proof. intros w Hw. simpl. eauto. Qed.

Lemma hoare_first_by_sam s :
  hoare P (db_first_by_sam s)
        (fun o t => P t /\ exists t1, P t1 /\ o = Db.first_by_sam s t1) E.
Proof. intros w Hw. simpl. eauto. Qed.

Lemma hoare_now : hoare P (now env) (fun _ t => P t /\ True) E.
Proof. intros w Hw. simpl. auto. Qed.

Lemma hoare_uuidv4 : hoare P (uuidv4 env) (fun _ t => P t /\ True) E.
Proof. intros w Hw. simpl. auto. Qed.

Lemma hoare_executePowerShell script cmd params uid :
  hoare P (executePowerShell env script cmd params uid)
        (fun res t => P t /\ tool_result env res) E.
Proof.
  intros w Hw. unfold executePowerShell.
  destruct (PowerShell.executePowerShell _ _ _ _ _ _) as [res audit] eqn:Eq. simpl.
  split; [exact Hw|].
  exists (steps w), script, cmd, params, uid. now rewrite Eq.
Qed.

Lemma hoare_execNewAdUser params uid :
  hoare P (execNewAdUser env params uid) (fun res t => P t /\ tool_result env res) E.
Proof.
  unfold execNewAdUser. eapply hoare_seq; [apply hoare_pure|].
  intros [script logged] _. apply hoare_executePowerShell.
Qed.

Lemma hoare_execSetAdUser ident params uid :
  hoare P (execSetAdUser env ident params uid)
        (fun res t => P t /\ tool_result env res) E.
Proof.
  unfold execSetAdUser. destruct (PowerShell.setAdUserScript ident params).
  apply hoare_executePowerShell.
Qed.

Lemma hoare_execRemoveAdUser ident uid :
  hoare P (execRemoveAdUser env ident uid)
        (fun res t => P t /\ tool_result env res) E.
Proof.
  unfold execRemoveAdUser. destruct (PowerShell.removeAdUserScript ident).
  apply hoare_executePowerShell.
Qed.

Lemma hoare_db_insert row (Q : unit -> Db.table -> Prop) :
  (forall t t', P t -> Db.insert row t = Some t' -> Q tt t') ->
  hoare P (db_insert row) Q E.
Proof.
  intros H w Hw. unfold db_insert.
  destruct (Db.insert row (scim_users w)) eqn:Eq; simpl; eauto.
Qed.

Lemma hoare_db_update i f (Q : unit -> Db.table -> Prop) :
  (forall t t', P t -> Db.update i f t = Some t' -> Q tt t') ->
  hoare P (db_update i f) Q E.
Proof.
  intros H w Hw. unfold db_update.
  destruct (Db.update i f (scim_users w)) eqn:Eq; simpl; eauto.
Qed.

Lemma hoare_db_delete i (Q : unit -> Db.table -> Prop) :
  (forall t, P t -> Q tt (Db.delete i t)) ->
  hoare P (db_delete i) Q E.
Proof. intros H w Hw. simpl. auto. Qed.

End LogicRules.

(** The tool's answers when it always fails. *)
Lemma tool_result_failed (env : Server.Env) (res : PowerShell.PowerShellResult) :
  (forall n script, Spec.exits_nonzero (Server.powershell_exe env n script)) ->
  Spec.tool_result env res ->
  Z.eqb (PowerShell.exitCode res) 0 = false
  /\ exists n script,
       PowerShell.stderr res = Spec.stderr_of (Server.powershell_exe env n script).
Proof.
  intros Hfail (n & script & cmd & params & uid & ->).
  specialize (Hfail n script). unfold PowerShell.executePowerShell.
  destruct (Server.powershell_exe env n script) as [o e|o e c msg] eqn:Eo; simpl in *.
  - destruct Hfail.
  - split; [now apply Z.eqb_neq|].
    exists n, script. now rewrite Eo.
Qed.

Ltac hprim :=
  lazymatch goal with
  | |- Spec.hoare _ (Server.lift _) _ _ => apply hoare_pure
  | |- Spec.hoare _ (Server.db_first_by_id _) _ _ => apply hoare_first_by_id
  | |- Spec.hoare _ (Server.db_first_by_sam _) _ _ => apply hoare_first_by_sam
  | |- Spec.hoare _ (Server.now _) _ _ => apply hoare_now
  | |- Spec.hoare _ (Server.uuidv4 _) _ _ => apply hoare_uuidv4
  | |- Spec.hoare _ (Server.execNewAdUser _ _ _) _ _ => apply hoare_execNewAdUser
  | |- Spec.hoare _ (Server.execSetAdUser _ _ _ _) _ _ => apply hoare_execSetAdUser
  | |- Spec.hoare _ (Server.execRemoveAdUser _ _ _) _ _ => apply hoare_execRemoveAdUser
  | |- Spec.hoare _ (Server.executePowerShell _ _ _ _ _) _ _ =>
      apply hoare_executePowerShell
  end; auto.

Ltac hstep := eapply hoare_seq; [ hprim | intros ? ?; cbv beta in * ].

Tactic Notation "hstep" "as" ident(x) ident(H) :=
  eapply hoare_seq; [ hprim | intros x H; cbv beta in * ].

(** *** C2: a failed create leaves the cache alone *)

Section CreateFailure.
Import Row Server Spec.
Variable env : Env.
Hypothesis tool_fails : forall n script, exits_nonzero (powershell_exe env n script).

Lemma hoare_userId (P : Db.table -> Prop) (externalId : value) :
  hoare P (match externalId with
           | VUndefined | VNull => uuidv4 env
           | VStr s => ret s
           | _ => lift Beyond
           end) (fun _ t => P t /\ True) P.
Proof.
  destruct externalId; try (apply hoare_uuidv4; auto);
    try (apply hoare_lift; intros; [discriminate | auto]).
  apply hoare_ret. auto.
Qed.

Lemma POST_when_tool_fails (t0 : Db.table) user baseUrl :
  hoare (eq t0) (POST env user baseUrl)
        (fun reply t =>
           t0 = t /\
           (reply = {| status := 400; headers := [];
                       body := Formatter.formatError 400 "userName is required."
                                 (Some "invalidValue") |}
            \/ (exists name,
                  reply = {| status := 409; headers := [];
                             body := Formatter.formatError 409
                                       ("A user with userName '" +:+ name
                                        +:+ "' already exists.")
                                       (Some "uniqueness") |})
            \/ (exists n script,
                  reply = classified_reply (stderr_of (powershell_exe env n script)))))
        (eq t0).
Proof.
  unfold POST. hstep.
  destruct (JS.truthy a); cbn [negb]; [|apply hoare_send; auto].
  hstep. hstep. destruct a1.
  { apply hoare_send. intros t Ht. split; [exact Ht|]. right; left. eauto. }
  hstep.
  eapply hoare_seq; [apply hoare_userId | intros userId _].
  hstep. hstep.
  destruct (tool_result_failed env a3 tool_fails H4) as [Hcode (n & script & Herr)].
  rewrite Hcode. cbn [negb]. unfold classified. apply hoare_send.
  intros t Ht. split; [exact Ht|]. right; right. exists n, script.
  unfold classified_reply. now rewrite Herr.
Qed.

Lemma createUser_when_tool_fails (t0 : Db.table) user :
  hoare (eq t0) (Backend.createUser env user)
        (fun out t =>
           t0 = t /\
           exists e, out = inl e /\
             (Backend.status e = 409%Z /\ Backend.scimType e = Some "uniqueness"
              \/ exists n script,
                   let c := Formatter.mapPsErrorToScim
                              (stderr_of (powershell_exe env n script)) in
                   e = {| Backend.status := Formatter.status c;
                          Backend.detail := Formatter.detail c;
                          Backend.scimType := Formatter.scimType c |}))
        (eq t0).
Proof.
  unfold Backend.createUser. hstep. hstep. hstep. destruct a1.
  { apply hoare_ret. intros t Ht. split; [exact Ht|]. eexists. split; [reflexivity|].
    left. split; reflexivity. }
  hstep.
  eapply hoare_seq; [apply hoare_userId | intros userId _].
  hstep. hstep.
  destruct (tool_result_failed env a3 tool_fails H4) as [Hcode (n & script & Herr)].
  rewrite Hcode. cbn [negb]. apply hoare_ret.
  intros t Ht. split; [exact Ht|]. eexists. split; [reflexivity|].
  right. exists n, script. cbn zeta. now rewrite Herr.
Qed.

(** How a create ends when the tool fails: a run that does not reply ends
    before the tool is consulted; a run that consulted the tool replies with
    the classified error of its stderr. *)
Lemma POST_replies_once_tool_ran user baseUrl w :
  match POST env user baseUrl w with
  | Return reply w' =>
      (powershell_executions w' = powershell_executions w
       /\ (reply = {| status := 400; headers := [];
                      body := Formatter.formatError 400 "userName is required."
                                (Some "invalidValue") |}
           \/ exists name,
                reply = {| status := 409; headers := [];
                           body := Formatter.formatError 409
                                     ("A user with userName '" +:+ name
                                      +:+ "' already exists.")
                                     (Some "uniqueness") |}))
      \/ exists n script audit,
           powershell_executions w' = powershell_executions w ++ [audit]
           /\ reply = classified_reply (stderr_of (powershell_exe env n script))
  | Raise w' => powershell_executions w' = powershell_executions w
  | Outside w' => powershell_executions w' = powershell_executions w
  end.
Proof.
  unfold POST, bind, lift.
  destruct (JS.get user "userName") as [userName| |]; try reflexivity.
  destruct (JS.truthy userName); cbn [negb];
    [|left; split; [reflexivity | left; reflexivity]].
  destruct (samOf userName) as [sam| |]; try reflexivity.
  unfold db_first_by_sam.
  destruct (Db.first_by_sam sam (scim_users w));
    [left; split; [reflexivity | right; eexists; reflexivity]|].
  destruct (JS.get user "externalId") as [externalId| |]; try reflexivity.
  set (m := match externalId with
            | VUndefined | VNull => uuidv4 env
            | VStr s => ret s
            | _ => fun w0 => Outside w0
            end).
  assert (Hid : match m w with
                | Return _ w1 | Raise w1 | Outside w1 =>
                    powershell_executions w1 = powershell_executions w
                end) by (subst m; destruct externalId; reflexivity).
  clearbody m. destruct (m w) as [userId w1|w1|w1]; try exact Hid.
  destruct (Mapping.scimToAdParams user _) as [adParams| |]; try exact Hid.
  unfold execNewAdUser, bind, lift.
  destruct (PowerShell.newAdUserScript _) as [[script logged]| |]; try exact Hid.
  unfold executePowerShell.
  destruct (PowerShell.executePowerShell _ _ _ _ _ _) as [res audit] eqn:Erun.
  assert (Hres : tool_result env res).
  { exists (steps w1), script, "New-ADUser", logged, (Some userId).
    now rewrite Erun. }
  destruct (tool_result_failed env res tool_fails Hres) as [Hcode (n & script' & Herr)].
  rewrite Hcode. cbn [negb]. unfold classified, send, ret. cbn.
  right. exists n, script', audit. rewrite Hid. split; [reflexivity|].
  unfold classified_reply. now rewrite Herr.
Qed.

End CreateFailure.



(** *** The table operations *)

Section DbFacts.
Import Row.
Implicit Types (t : Db.table) (r : ScimUserRow) (f : ScimUserRow -> ScimUserRow).

Lemma first_by_id_some i t r : Db.first_by_id i t = Some r -> In r t /\ id r = i.
Proof.
  unfold Db.first_by_id. intros H. apply find_some in H.
  destruct H as [Hin Heq]. apply String.eqb_eq in Heq. auto.
Qed.

Lemma first_by_id_in i t : In i (map id t) -> exists r, Db.first_by_id i t = Some r.
Proof.
  unfold Db.first_by_id. induction t as [|x t IH]; simpl; [tauto|].
  intros [<-|Hin].
  - rewrite String.eqb_refl. eauto.
  - destruct (String.eqb (id x) i); eauto.
Qed.

Lemma update_rows i f t t' :
  Db.update i f t = Some t' ->
  t' = t \/ t' = map (fun r => if String.eqb (id r) i then f r else r) t.
Proof.
  unfold Db.update. destruct (Db.first_by_id i t); [|intros [= <-]; now left].
  destruct (Db.sam_taken_by_other _ _ _); [discriminate|].
  intros [= <-]. now right.
Qed.

Lemma update_Forall (P : ScimUserRow -> Prop) i f t t' :
  (forall r, In r t -> id r = i -> P r -> P (f r)) ->
  Forall P t -> Db.update i f t = Some t' -> Forall P t'.
Proof.
  intros Hf Ht Hu. destruct (update_rows _ _ _ _ Hu) as [->| ->]; [exact Ht|].
  rewrite List.Forall_forall in *. intros r' Hin. apply in_map_iff in Hin.
  destruct Hin as (r & <- & Hin).
  destruct (String.eqb (id r) i) eqn:Eq; auto.
  apply String.eqb_eq in Eq. auto.
Qed.

Lemma update_ids i f t t' :
  (forall r, id (f r) = id r) -> Db.update i f t = Some t' -> map id t' = map id t.
Proof.
  intros Hf Hu. destruct (update_rows _ _ _ _ Hu) as [->| ->]; [reflexivity|].
  rewrite map_map. apply map_ext. intros r.
  destruct (String.eqb (id r) i); auto.
Qed.

Lemma update_first i f t t' r :
  Db.first_by_id i t = Some r -> Db.update i f t = Some t' ->
  (forall r, id (f r) = id r) ->
  Db.first_by_id i t' = Some (f r).
Proof.
  intros Hr Hu Hid. unfold Db.update in Hu. rewrite Hr in Hu.
  destruct (Db.sam_taken_by_other _ _ _); [discriminate|].
  injection Hu as <-. revert Hr. unfold Db.first_by_id.
  induction t as [|x t IH]; simpl; [discriminate|].
  destruct (String.eqb (id x) i) eqn:Eq.
  - intros [= ->]. rewrite Hid, Eq. reflexivity.
  - rewrite Eq. exact IH.
Qed.

Lemma insert_Forall (P : ScimUserRow -> Prop) row t t' :
  P row -> Forall P t -> Db.insert row t = Some t' -> Forall P t'.
Proof.
  unfold Db.insert. intros Hrow Ht.
  destruct (_ || _); [discriminate|]. intros [= <-].
  apply List.Forall_app. split; [exact Ht | now constructor].
Qed.

Lemma insert_fresh row t t' :
  Db.insert row t = Some t' ->
  t' = t ++ [row] /\ Forall (fun r => id r <> id row) t.
Proof.
  unfold Db.insert. destruct (existsb _ t) eqn:Ex; [discriminate|]. simpl.
  destruct (Db.sam_taken_by_other _ _ _); [discriminate|]. intros [= <-].
  split; [reflexivity|]. rewrite List.Forall_forall. intros r Hin Heq.
  assert (existsb (fun r => String.eqb (id r) (id row)) t = true) as Hx.
  { apply existsb_exists. exists r. split; [exact Hin|]. now apply String.eqb_eq. }
  congruence.
Qed.

Lemma delete_Forall (P : ScimUserRow -> Prop) i t :
  Forall P t -> Forall P (Db.delete i t).
Proof.
  unfold Db.delete. rewrite !List.Forall_forall. intros H r Hin.
  apply filter_In in Hin. apply H. tauto.
Qed.

End DbFacts.

(** *** Row-wise invariants through the shared steps of the handlers *)

Lemma hoare_execGetAdUser (env : Server.Env) (P E : Db.table -> Prop) ident uid :
  (forall t, P t -> E t) ->
  Spec.hoare P (Server.execGetAdUser env ident uid) (fun _ t => P t /\ True) E.
Proof.
  intros PE. unfold Server.execGetAdUser.
  destruct (PowerShell.getAdUserScript ident).
  eapply hoare_seq; [apply hoare_executePowerShell; exact PE|].
  intros res _. apply hoare_ret. auto.
Qed.

Lemma setters_keep_id :
  (forall ts a r, Row.id (Db.set_updated_at ts (Db.set_ad_resource a r)) = Row.id r)
  /\ (forall ts e s r,
        Row.id (Db.set_updated_at ts (Db.set_last_error e (Db.set_sync_status s r)))
        = Row.id r)
  /\ (forall ts s v r,
        Row.id (Db.set_updated_at ts
                  (Db.set_sync_status Row.pending
                     (Db.set_sam_account_name s (Db.set_scim_resource v r))))
        = Row.id r)
  /\ (forall ts v r,
        Row.id (Db.set_updated_at ts
                  (Db.set_sync_status Row.pending (Db.set_scim_resource v r)))
        = Row.id r).
Proof. repeat split; reflexivity. Qed.

Section Tail.
Import Row Server Spec.
Variable env : Env.
Variable P : ScimUserRow -> Prop.
Variable X : list string -> Prop.
Hypothesis P_refresh :
  forall r ts a, P r -> P (Db.set_updated_at ts (Db.set_ad_resource a r)).
Hypothesis P_error :
  forall r ts e, P r ->
    P (Db.set_updated_at ts (Db.set_last_error (Some e) (Db.set_sync_status error r))).
Hypothesis P_synced :
  forall r ts, P r ->
    P (Db.set_updated_at ts (Db.set_last_error None (Db.set_sync_status synced r))).

Local Abbreviation Inv := (fun t : Db.table => Forall P t /\ X (map id t)).

Lemma Inv_update i f t t' :
  (forall r, P r -> P (f r)) -> (forall r, id (f r) = id r) ->
  Inv t -> Db.update i f t = Some t' -> Inv t'.
Proof.
  intros Hf Hid [HP HX] Hu. split.
  - eapply update_Forall; eauto.
  - now rewrite (update_ids _ _ _ _ Hid Hu).
Qed.

Lemma hoare_refreshAdResource ident uid :
  hoare Inv (refreshAdResource env ident uid) (fun _ t => Inv t /\ True) Inv.
Proof.
  unfold refreshAdResource.
  apply hoare_try_catch with (E' := Inv); [|auto|apply hoare_ret; auto].
  eapply hoare_seq; [apply hoare_execGetAdUser; auto|]. intros adUser _.
  destruct adUser as [a|]; [|apply hoare_ret; auto].
  hstep. apply hoare_db_update; [auto|].
  intros t t' Ht Hu. split; [|exact Logic.I].
  refine (Inv_update _ _ _ _ _ _ Ht Hu); intros; auto.
Qed.

Lemma hoare_mark_synced i :
  hoare Inv (mark_synced env i) (fun _ t => Inv t /\ True) Inv.
Proof.
  unfold mark_synced. hstep. apply hoare_db_update; [auto|].
  intros t t' Ht Hu. split; [|exact Logic.I].
  refine (Inv_update _ _ _ _ _ _ Ht Hu); intros; auto.
Qed.

Lemma hoare_send_user st hs row baseUrl (Pre : Db.table -> Prop)
    (Q : Reply -> Db.table -> Prop) :
  (forall t, Pre t -> Inv t) ->
  (forall r u t, row = Some r -> Pre t ->
     Q {| status := st; headers := hs; body := u |} t) ->
  hoare Pre (send_user st hs row baseUrl) Q Inv.
Proof.
  intros HPre HQ. unfold send_user. destruct row as [r|].
  - eapply hoare_seq; [apply hoare_pure; auto|]. intros u _.
    apply hoare_send. eauto.
  - apply hoare_lift; [discriminate | auto].
Qed.

(** The end of PUT and PATCH once the tool has succeeded. *)
Lemma hoare_finish i ident baseUrl :
  hoare Inv
    (let! _ := mark_synced env i in
     let! _ := refreshAdResource env ident i in
     let! updated := db_first_by_id i in
     send_user 200 [scim_json] updated baseUrl)
    (fun _ t => Inv t) Inv.
Proof.
  eapply hoare_seq; [apply hoare_mark_synced|]. intros _ _.
  eapply hoare_seq; [apply hoare_refreshAdResource|]. intros _ _.
  hstep. apply hoare_send_user; auto.
Qed.

Lemma hoare_after_set res i (k : M Reply) :
  hoare Inv k (fun _ t => Inv t) Inv ->
  hoare Inv (after_set env res i k) (fun _ t => Inv t) Inv.
Proof.
  intros Hk. unfold after_set.
  destruct (negb _); [|exact Hk].
  hstep. eapply hoare_seq with (F := fun _ => True).
  - apply hoare_db_update; [auto|].
    intros t t' Ht Hu. split; [|exact Logic.I].
    refine (Inv_update _ _ _ _ _ _ Ht Hu); intros; auto.
  - intros _ _. unfold classified. apply hoare_send. auto.
Qed.

End Tail.

(** *** Row-wise invariants through the four mutating handlers *)

Section HandlersKeep.
Import Row Server Spec.
Variable env : Env.
Variable P : ScimUserRow -> Prop.
Variable good : option string -> Prop.     (* what [P] asks of a sam_account_name *)
Hypothesis good_row : forall r, P r -> good (sam_account_name r).
Hypothesis good_derived : forall x s, samOf x = Ok s -> good (Some s).
Hypothesis P_refresh :
  forall r ts a, P r -> P (Db.set_updated_at ts (Db.set_ad_resource a r)).
Hypothesis P_error :
  forall r ts e, P r ->
    P (Db.set_updated_at ts (Db.set_last_error (Some e) (Db.set_sync_status error r))).
Hypothesis P_synced :
  forall r ts, P r ->
    P (Db.set_updated_at ts (Db.set_last_error None (Db.set_sync_status synced r))).
Hypothesis P_put :
  forall r ts v s, P r -> good s ->
    P (Db.set_updated_at ts
         (Db.set_sync_status pending
            (Db.set_sam_account_name s (Db.set_scim_resource v r)))).
Hypothesis P_patch :
  forall r ts v, P r ->
    P (Db.set_updated_at ts (Db.set_sync_status pending (Db.set_scim_resource v r))).
Hypothesis P_insert :
  forall uid guid s v ts, good (Some s) ->
    P (mk uid guid (Some s) v None synced None ts ts).

Local Abbreviation Inv := (fun t : Db.table => Forall P t /\ True).

Local Ltac updated Ht Hu :=
  split; [|exact Logic.I];
  refine (Inv_update P (fun _ => True) _ _ _ _ _ _ Ht Hu); intros; auto.

Lemma POST_Inv user baseUrl :
  hoare Inv (POST env user baseUrl) (fun _ t => Inv t) Inv.
Proof.
  unfold POST. hstep.
  destruct (JS.truthy a); cbn [negb]; [|apply hoare_send; auto].
  hstep. hstep. destruct a1; [apply hoare_send; auto|].
  hstep. eapply hoare_seq; [apply hoare_userId|]. intros userId _.
  hstep. hstep.
  destruct (negb _); [unfold classified; apply hoare_send; auto|].
  hstep.
  eapply hoare_seq with (F := fun _ => True).
  { apply hoare_db_insert; [auto|]. intros t t' [Ht _] Hi.
    repeat split. eapply insert_Forall; [|exact Ht|exact Hi].
    apply P_insert. eauto. }
  intros _ _.
  eapply hoare_seq with (F := fun _ => True).
  { destruct (PowerShell.extractObjectGuid _) as [[|c g]|];
      try (apply hoare_ret; auto).
    apply (hoare_refreshAdResource env P (fun _ => True)); auto. }
  intros _ _. hstep.
  apply (hoare_send_user P (fun _ => True)); auto.
Qed.

Lemma PUT_Inv i user baseUrl :
  hoare Inv (PUT env i user baseUrl) (fun _ t => Inv t) Inv.
Proof.
  unfold PUT. hstep.
  destruct a as [row|]; [|unfold not_found; apply hoare_send; auto].
  assert (Hrow : P row).
  { destruct H as (t1 & [Ht1 _] & Hf). symmetry in Hf.
    apply first_by_id_some in Hf. rewrite List.Forall_forall in Ht1. apply Ht1, Hf. }
  hstep.
  eapply hoare_seq with (F := good).
  { destruct (JS.truthy a).
    - hstep. apply hoare_ret. eauto.
    - apply hoare_ret. auto. }
  intros sam Hsam. hstep.
  eapply hoare_seq with (F := fun _ => True).
  { apply hoare_db_update; [auto|]. intros t t' Ht Hu. updated Ht Hu. }
  intros _ _.
  destruct (identityOf row); [|unfold no_identity; apply hoare_send; auto].
  hstep. hstep.
  apply (hoare_after_set env P (fun _ => True)); auto.
  apply (hoare_finish env P (fun _ => True)); auto.
Qed.

Lemma PATCH_Inv i ops baseUrl :
  hoare Inv (PATCH env i ops baseUrl) (fun _ t => Inv t) Inv.
Proof.
  unfold PATCH. destruct ops as [[|o ops]|]; try (apply hoare_send; auto).
  hstep.
  destruct a as [row|]; [|unfold not_found; apply hoare_send; auto].
  hstep. destruct a as [patchedResource changedFields].
  hstep.
  eapply hoare_seq with (F := fun _ => True).
  { apply hoare_db_update; [auto|]. intros t t' Ht Hu. updated Ht Hu. }
  intros _ _.
  destruct (identityOf row); [|unfold no_identity; apply hoare_send; auto].
  hstep as adParams HadParams.
  assert (Hfin := hoare_finish env P (fun _ => True) P_refresh P_synced i s baseUrl).
  destruct (PowerShell.without _ adParams); [exact Hfin|].
  hstep. apply (hoare_after_set env P (fun _ => True)); auto.
Qed.

Lemma DELETE_Inv i :
  hoare Inv (DELETE env i) (fun _ t => Inv t) Inv.
Proof.
  unfold DELETE. hstep.
  destruct a as [row|]; [|unfold not_found; apply hoare_send; auto].
  assert (Hrm : hoare Inv (let! _ := db_delete i in send 204 [] VUndefined)
                      (fun _ t => Inv t) Inv).
  { eapply hoare_seq with (F := fun _ => True).
    - apply hoare_db_delete. intros t [Ht _]. repeat split. now apply delete_Forall.
    - intros _ _. apply hoare_send. auto. }
  destruct (identityOf row); [|exact Hrm].
  hstep. destruct (_ && _); [unfold classified; apply hoare_send; auto | exact Hrm].
Qed.

Lemma handlers_keep :
  (forall user baseUrl, keeps (Forall P) (POST env user baseUrl))
  /\ (forall i user baseUrl, keeps (Forall P) (PUT env i user baseUrl))
  /\ (forall i ops baseUrl, keeps (Forall P) (PATCH env i ops baseUrl))
  /\ (forall i, keeps (Forall P) (DELETE env i)).
Proof.
  assert (K : forall A (m : M A),
             hoare Inv m (fun _ t => Inv t) Inv -> keeps (Forall P) m).
  { intros A m H w Hw. specialize (H w (conj Hw Logic.I)).
    destruct (m w); simpl; tauto. }
  repeat split; intros; apply K;
    [apply POST_Inv | apply PUT_Inv | apply PATCH_Inv | apply DELETE_Inv].
Qed.

End HandlersKeep.

(** *** The derived sam_account_name *)

Lemma substring_length m : forall s, String.length (String.substring 0 m s) <= m.
Proof.
  induction m as [|m IH]; intros [|c s]; simpl; try lia.
  specialize (IH s). lia.
Qed.

Lemma includes_at_cons c s :
  Str.includes (String c s) "@" = Ascii.eqb c "@" || Str.includes s "@".
Proof.
  cbn [Str.includes String.prefix].
  destruct (ascii_dec "@" c) as [<-|Hne].
  - destruct s; reflexivity.
  - destruct (Ascii.eqb c "@") eqn:Eq; [|reflexivity].
    apply Ascii.eqb_eq in Eq. congruence.
Qed.

Lemma includes_at_substring m : forall s,
  Str.includes s "@" = false -> Str.includes (String.substring 0 m s) "@" = false.
Proof.
  induction m as [|m IH]; intros [|c s] H; try reflexivity; try exact H.
  change (String.substring 0 (S m) (String c s))
    with (String c (String.substring 0 m s)).
  rewrite includes_at_cons in *. apply orb_false_iff in H. destruct H as [-> H].
  simpl. now apply IH.
Qed.

Lemma split_head_no_at s :
  Str.includes (hd EmptyString (Str.split "@" s)) "@" = false.
Proof.
  induction s as [|c s IH]; [reflexivity|].
  cbn [Str.split]. destruct (Ascii.eqb c "@") eqn:Eq; [reflexivity|].
  destruct (Str.split "@" s) as [|w ws]; cbn [hd] in *;
    rewrite includes_at_cons, Eq; [reflexivity | exact IH].
Qed.

Lemma derive_sam_ok s :
  String.length (Spec.derive_sam s) <= 20
  /\ Str.includes (Spec.derive_sam s) "@" = false.
Proof.
  unfold Spec.derive_sam, Str.substring. split.
  - apply (substring_length 20).
  - apply (includes_at_substring 20), split_head_no_at.
Qed.

Lemma samOf_derive x s :
  Server.samOf x = Ok s -> exists u, x = VStr u /\ s = Spec.derive_sam u.
Proof. destruct x; simpl; try discriminate. intros [= <-]. eauto. Qed.

(** *** What a successful create leaves in the cache *)

Lemma classifier_statuses stderr :
  In (Formatter.status (Formatter.mapPsErrorToScim stderr)) [409; 404; 400; 403; 500]%Z.
Proof.
  unfold Formatter.mapPsErrorToScim.
  repeat match goal with
         | |- context [if ?b then _ else _] => destruct b
         end; simpl; auto 10.
Qed.

Lemma hoare_first_by_id_now (P E : Db.table -> Prop) i :
  Spec.hoare P (Server.db_first_by_id i)
             (fun o t => P t /\ o = Db.first_by_id i t) E.
Proof. intros w Hw. simpl. auto. Qed.

Section Created.
Import Row Server Spec.
Variable env : Env.

Local Abbreviation Any := (fun _ : Db.table => True).

(** The row of [uid] has this sam_account_name, is synced and has no error. *)
Local Abbreviation fresh_row uid sam :=
  (fun r : ScimUserRow =>
     id r = uid ->
     sam_account_name r = Some sam /\ sync_status r = synced /\ last_error r = None).

Local Abbreviation fresh_table uid sam :=
  (fun t : Db.table => Forall (fresh_row uid sam) t /\ In uid (map id t)).

Lemma POST_created user baseUrl :
  hoare Any (POST env user baseUrl)
    (fun reply t =>
       status reply = 201%Z ->
       exists s userId r,
         JS.get user "userName" = Ok (VStr s)
         /\ In ("Location", baseUrl +:+ "/scim/v2/Users/" +:+ userId) (headers reply)
         /\ Db.first_by_id userId t = Some r
         /\ sam_account_name r = Some (derive_sam s)
         /\ sync_status r = synced /\ last_error r = None)
    Any.
Proof.
  unfold POST. hstep as userName Hu.
  destruct (JS.truthy userName); cbn [negb];
    [|apply hoare_send; intros; simpl in *; discriminate].
  hstep as sam Hsam. apply samOf_derive in Hsam. destruct Hsam as (u & -> & ->).
  hstep. destruct a; [apply hoare_send; intros; simpl in *; discriminate|].
  hstep. eapply hoare_seq; [apply hoare_userId|]. intros userId _.
  hstep. hstep as psResult Hps.
  destruct (negb _).
  { unfold classified. apply hoare_send. intros t _ Hst. simpl in Hst.
    pose proof (classifier_statuses (PowerShell.stderr psResult)) as Hin.
    rewrite Hst in Hin. simpl in Hin. intuition discriminate. }
  hstep as ts Hts.
  eapply hoare_bind with (Q := fun _ t => fresh_table userId (derive_sam u) t).
  { apply hoare_db_insert; [auto|]. intros t t' _ Hi.
    apply insert_fresh in Hi. destruct Hi as [-> Hold]. simpl in Hold. split.
    - apply List.Forall_app. split.
      + eapply List.Forall_impl; [|exact Hold]. simpl. intros r Hne Heq. congruence.
      + constructor; [|constructor]. simpl. auto.
    - rewrite map_app. apply in_or_app. right. simpl. auto. }
  intros _.
  eapply hoare_bind with (Q := fun _ t => fresh_table userId (derive_sam u) t).
  { destruct (PowerShell.extractObjectGuid _) as [[|c g]|];
      try (apply hoare_ret; auto).
    eapply hoare_conseq;
      [apply (hoare_refreshAdResource env (fresh_row userId (derive_sam u))
                (fun ids => In userId ids))
      | auto | simpl; tauto | auto].
    intros r ts0 a1 Hr. exact Hr. }
  intros _.
  eapply hoare_bind; [apply hoare_first_by_id_now; auto|]. intros row.
  eapply hoare_conseq;
    [apply (hoare_send_user (fresh_row userId (derive_sam u))
              (fun ids => In userId ids))
    | intros t Ht; exact Ht | intros a1 t Ht; exact Ht | auto ].
  - intros t [Ht _]. exact Ht.
  - intros r v t -> [[HF _] Hrow] _. symmetry in Hrow.
    exists u, userId, r. repeat split; auto; try (simpl; auto; fail);
      destruct (first_by_id_some _ _ _ Hrow) as [Hin Hid];
      rewrite List.Forall_forall in HF; destruct (HF r Hin Hid) as (? & ? & ?); auto.
Qed.

End Created.

(** *** C3: synced rows carry no error *)

Lemma update_sets i f t t' :
  (forall r, Row.id (f r) = Row.id r) ->
  Db.update i f t = Some t' ->
  Forall (fun r' => Row.id r' = i -> exists r, r' = f r) t'.
Proof.
  intros Hid Hu. unfold Db.update in Hu.
  destruct (Db.first_by_id i t) eqn:Ef.
  - destruct (Db.sam_taken_by_other _ _ _); [discriminate|]. injection Hu as <-.
    rewrite List.Forall_forall. intros r' Hin Hr'. apply in_map_iff in Hin.
    destruct Hin as (r & <- & _).
    destruct (String.eqb (Row.id r) i) eqn:Eq; [eauto|].
    apply String.eqb_neq in Eq. contradiction.
  - injection Hu as <-. rewrite List.Forall_forall. intros r' Hin Hr'.
    unfold Db.first_by_id in Ef. apply (find_none _ _ Ef) in Hin.
    apply String.eqb_neq in Hin. contradiction.
Qed.

(** C3.  The invariant "sync_status = synced implies last_error is null"
    is preserved by create, replace, patch and delete, however the request
    ends; the transition that sets a row to synced clears its last_error in
    the same update; and the row a successful create inserts is synced with a
    null last_error. *)
Theorem synced_rows_have_no_error (env : Server.Env) :
  (forall user baseUrl,
     Spec.keeps (Forall Spec.synced_clean) (Server.POST env user baseUrl))
  /\ (forall i user baseUrl,
        Spec.keeps (Forall Spec.synced_clean) (Server.PUT env i user baseUrl))
  /\ (forall i ops baseUrl,
        Spec.keeps (Forall Spec.synced_clean) (Server.PATCH env i ops baseUrl))
  /\ (forall i, Spec.keeps (Forall Spec.synced_clean) (Server.DELETE env i))
  /\ (forall i w w',
        Server.mark_synced env i w = Server.Return tt w' ->
        Forall (fun r => Row.id r = i ->
                         Row.sync_status r = Row.synced /\ Row.last_error r = None)
               (Server.scim_users w'))
  /\ (forall user baseUrl w reply w',
        Server.POST env user baseUrl w = Server.Return reply w' ->
        Server.status reply = 201%Z ->
        exists userId r,
          Db.first_by_id userId (Server.scim_users w') = Some r
          /\ Row.sync_status r = Row.synced /\ Row.last_error r = None).
Proof.
  assert (K := handlers_keep env Spec.synced_clean (fun _ => True)).
  destruct K as (K1 & K2 & K3 & K4);
    try (unfold Spec.synced_clean; simpl; intros; auto; congruence).
  repeat split; auto.
  - intros i w w'. unfold Server.mark_synced, Server.bind, Server.now, Server.db_update.
    simpl. destruct (Db.update _ _ _) as [t'|] eqn:Hu; [|discriminate].
    intros [= <-]. simpl.
    apply update_sets in Hu; [|reflexivity].
    eapply List.Forall_impl; [|exact Hu]. simpl.
    intros r' H Hi. destruct (H Hi) as (r & ->). simpl. auto.
  - intros user baseUrl w reply w' Hrun Hst.
    pose proof (POST_created env user baseUrl w Logic.I) as H. rewrite Hrun in H.
    destruct (H Hst) as (s & userId & r & _ & _ & Hr & _ & Hs & He).
    exists userId, r. auto.
Qed.

(** A replace that the directory refuses: the row ends in [error], and the
    invariant still holds. *)
Lemma synced_rows_have_no_error_witness :
  Forall Spec.synced_clean (Server.scim_users Sample.with_alice)
  /\ Forall Spec.synced_clean
       (Server.scim_users
          (Spec.world_of
             (Server.PUT Sample.env_denied "abc" Sample.alice "https://idp"
                         Sample.with_alice))).
Proof.
  assert (H : Forall Spec.synced_clean (Server.scim_users Sample.with_alice)).
  { repeat constructor. }
  split; [exact H|].
  exact (proj1 (proj2 (synced_rows_have_no_error Sample.env_denied))
           "abc" Sample.alice "https://idp" Sample.with_alice H).
Defined.

(** *** C7: the derived sam_account_name *)

Section Replaced.
Import Row Server Spec.
Variable env : Env.

Local Abbreviation Any := (fun _ : Db.table => True).

(** The rows of [i] hold this sam_account_name, and there is such a row. *)
Local Abbreviation target_row i target :=
  (fun r : ScimUserRow => id r = i -> sam_account_name r = target).
Local Abbreviation target_table i target :=
  (fun t : Db.table => Forall (target_row i target) t /\ In i (map id t)).

Lemma target_table_row i target t :
  target_table i target t ->
  exists r, Db.first_by_id i t = Some r /\ sam_account_name r = target.
Proof.
  intros [HF Hin]. destruct (first_by_id_in _ _ Hin) as (r & Hr).
  exists r. split; [exact Hr|].
  destruct (first_by_id_some _ _ _ Hr) as [Hin' Hid].
  rewrite List.Forall_forall in HF. exact (HF r Hin' Hid).
Qed.

Lemma replaced_sam_truthy user userName s :
  JS.get user "userName" = Ok userName -> JS.truthy userName = true ->
  samOf userName = Ok s -> Some s = replaced_sam user None
  /\ forall old, replaced_sam user old = Some s.
Proof.
  intros Hu Ht Hs. apply samOf_derive in Hs. destruct Hs as (u & -> & ->).
  unfold replaced_sam. rewrite Hu. destruct u as [|c u]; [discriminate|]. auto.
Qed.

Lemma replaced_sam_falsy user userName old :
  JS.get user "userName" = Ok userName -> JS.truthy userName = false ->
  replaced_sam user old = old.
Proof.
  intros Hu Ht. unfold replaced_sam. rewrite Hu.
  destruct userName as [| | | |[|c u]| |]; try reflexivity. discriminate.
Qed.

Lemma PUT_replaced i user baseUrl t0 r0 :
  Db.first_by_id i t0 = Some r0 ->
  hoare (eq t0) (PUT env i user baseUrl)
    (fun _ t => exists r, Db.first_by_id i t = Some r
                          /\ sam_account_name r = replaced_sam user (sam_account_name r0))
    Any.
Proof.
  intros Hr0. unfold PUT. hstep as found Hf.
  destruct Hf as (t1 & <- & ->). rewrite Hr0.
  hstep as userName Hu.
  eapply hoare_seq with (F := fun s => s = replaced_sam user (sam_account_name r0)).
  { destruct (JS.truthy userName) eqn:Ht.
    - hstep as s Hs. apply hoare_ret. intros t Heq. split; [exact Heq|].
      symmetry. apply (replaced_sam_truthy user userName s Hu Ht Hs).
    - apply hoare_ret. intros t Heq. split; [exact Heq|].
      symmetry. eapply replaced_sam_falsy; eauto. }
  intros sam ->. hstep as ts Hts.
  set (target := replaced_sam user (sam_account_name r0)).
  eapply hoare_bind with (Q := fun _ t => target_table i target t).
  { apply hoare_db_update; [auto|]. intros t t' <- Hup. split.
    - pose proof (fun H => update_sets _ _ _ _ H Hup) as Hs.
      specialize (Hs (fun r => eq_refl)).
      eapply List.Forall_impl; [|exact Hs]. simpl.
      intros r' H Hi. destruct (H Hi) as (r & ->). reflexivity.
    - pose proof (fun H => update_ids _ _ _ _ H Hup) as Hi.
      rewrite (Hi (fun r => eq_refl)).
      destruct (first_by_id_some _ _ _ Hr0) as [Hin <-]. now apply in_map. }
  intros _.
  destruct (identityOf r0) as [ident|];
    [|unfold no_identity; apply hoare_send; intros t Ht; now apply target_table_row].
  hstep. hstep as psResult Hps.
  eapply hoare_conseq;
    [ apply (hoare_after_set env (target_row i target) (fun ids => In i ids));
      [ auto | apply (hoare_finish env (target_row i target) (fun ids => In i ids)); auto ]
    | auto | intros reply t Ht; now apply target_table_row | auto ].
Qed.

End Replaced.

Lemma handlers_keep_sam_ok (env : Server.Env) :
  (forall user baseUrl, Spec.keeps (Forall Spec.sam_ok) (Server.POST env user baseUrl))
  /\ (forall i user baseUrl,
        Spec.keeps (Forall Spec.sam_ok) (Server.PUT env i user baseUrl))
  /\ (forall i ops baseUrl,
        Spec.keeps (Forall Spec.sam_ok) (Server.PATCH env i ops baseUrl))
  /\ (forall i, Spec.keeps (Forall Spec.sam_ok) (Server.DELETE env i)).
Proof.
  apply (handlers_keep env Spec.sam_ok
           (fun s => forall x, s = Some x ->
                               String.length x <= 20 /\ Str.includes x "@" = false));
    unfold Spec.sam_ok; simpl; auto.
  intros x s Hs y [= <-]. apply samOf_derive in Hs.
  destruct Hs as (u & _ & ->). apply derive_sam_ok.
Qed.

(** A replace whose userName is the empty string keeps the sam_account_name
    of the row, [alice], which is not the one derived from that userName. *)
Lemma replace_with_empty_userName_keeps_sam :
  ~ Spec.replace_derives_sam Sample.env_created "abc"
      (VObj [("userName", VStr EmptyString)]) "https://idp" Sample.with_alice.
Proof.
  assert (E : exists reply w' r,
             Server.PUT Sample.env_created "abc"
               (VObj [("userName", VStr EmptyString)]) "https://idp"
               Sample.with_alice = Server.Return reply w'
             /\ Db.first_by_id "abc" (Server.scim_users w') = Some r
             /\ Row.sam_account_name r = Some "alice").
  { vm_compute. do 3 eexists. repeat split; reflexivity. }
  destruct E as (reply & w' & r & Hrun & Hr & Hsam).
  intros H. specialize (H reply w' r EmptyString Hrun Hr eq_refl).
  rewrite Hsam in H. discriminate.
Qed.

(** C7 (amended).  A create that succeeds stores the sam_account_name
    derived from userName (the portion before the first at-sign, cut to 20
    characters); a replace of an existing row that returns leaves in the row
    the sam_account_name derived from a non-empty userName, and the one the
    row had when userName is empty or absent.  Hence every operation keeps
    "each stored sam_account_name has at most 20 characters and no at-sign";
    and userName [a...a@b] with 25 leading [a] gives 20 times [a]. *)
Theorem sam_account_name_is_derived (env : Server.Env) :
  (forall user baseUrl w reply w',
     Server.POST env user baseUrl w = Server.Return reply w' ->
     Server.status reply = 201%Z ->
     exists s userId r,
       JS.get user "userName" = Ok (VStr s)
       /\ In ("Location", baseUrl +:+ "/scim/v2/Users/" +:+ userId)
             (Server.headers reply)
       /\ Db.first_by_id userId (Server.scim_users w') = Some r
       /\ Row.sam_account_name r = Some (Spec.derive_sam s))
  /\ (forall i user baseUrl w r0 reply w',
        Db.first_by_id i (Server.scim_users w) = Some r0 ->
        Server.PUT env i user baseUrl w = Server.Return reply w' ->
        exists r,
          Db.first_by_id i (Server.scim_users w') = Some r
          /\ Row.sam_account_name r
             = Spec.replaced_sam user (Row.sam_account_name r0))
  /\ (forall user baseUrl, Spec.keeps (Forall Spec.sam_ok) (Server.POST env user baseUrl))
  /\ (forall i user baseUrl,
        Spec.keeps (Forall Spec.sam_ok) (Server.PUT env i user baseUrl))
  /\ (forall i ops baseUrl,
        Spec.keeps (Forall Spec.sam_ok) (Server.PATCH env i ops baseUrl))
  /\ (forall i, Spec.keeps (Forall Spec.sam_ok) (Server.DELETE env i))
  /\ (forall s, String.length (Spec.derive_sam s) <= 20
                /\ Str.includes (Spec.derive_sam s) "@" = false)
  /\ Spec.derive_sam "aaaaaaaaaaaaaaaaaaaaaaaaa@b" = "aaaaaaaaaaaaaaaaaaaa".
Proof.
  split; [|split; [|split; [|split; [|split; [|split; [|split]]]]]];
    try apply (handlers_keep_sam_ok env).
  - intros user baseUrl w reply w' Hrun Hst.
    pose proof (POST_created env user baseUrl w Logic.I) as H. rewrite Hrun in H.
    destruct (H Hst) as (s & userId & r & Hu & Hloc & Hr & Hsam & _).
    exists s, userId, r. auto.
  - intros i user baseUrl w r0 reply w' Hr0 Hrun.
    pose proof (PUT_replaced env i user baseUrl _ r0 Hr0 w eq_refl) as H.
    rewrite Hrun in H. exact H.
  - exact derive_sam_ok.
  - reflexivity.
Qed.

(** A replace of the row of alice by a user named [bob.builder@ex.com]. *)
Lemma sam_account_name_is_derived_witness :
  exists reply w' r,
    Server.PUT Sample.env_denied "abc"
      (VObj [("userName", VStr "bob.builder@ex.com")]) "https://idp"
      Sample.with_alice = Server.Return reply w'
    /\ Db.first_by_id "abc" (Server.scim_users w') = Some r
    /\ Row.sam_account_name r = Some "bob.builder".
Proof.
  assert (E : exists reply w',
             Server.PUT Sample.env_denied "abc"
               (VObj [("userName", VStr "bob.builder@ex.com")]) "https://idp"
               Sample.with_alice = Server.Return reply w').
  { vm_compute. eauto. }
  destruct E as (reply & w' & E). exists reply, w'.
  destruct (proj1 (proj2 (sam_account_name_is_derived Sample.env_denied))
              "abc" (VObj [("userName", VStr "bob.builder@ex.com")]) "https://idp"
              Sample.with_alice Sample.alice_row reply w' eq_refl E)
    as (r & Hr & Hsam).
  exists r. repeat split; [exact E | exact Hr | exact Hsam].
Defined.

(** *** C10: the row without identity *)

Section NoIdentity.
Import Row Server.
Variables (env : Env) (i baseUrl : string) (w : World) (row : ScimUserRow).
Hypothesis Hrow : Db.first_by_id i (scim_users w) = Some row.
Hypothesis Hguid : ad_object_guid row = None.
Hypothesis Hsam : sam_account_name row = None.

Local Abbreviation cannot_identify :=
  {| status := 500; headers := [];
     body := Formatter.formatError 500
               "Cannot identify AD account: no objectGUID or samAccountName." None |}.

(** What the persist step leaves when the request is then refused. *)
Local Abbreviation persisted view w' :=
  (exists row', Db.first_by_id i (scim_users w') = Some row'
                /\ scim_resource row' = view
                /\ sync_status row' = pending).

Lemma no_identity_row : identityOf row = None.
Proof. unfold identityOf. now rewrite Hguid, Hsam. Qed.

Lemma persist_then_refuse f view :
  (forall r, id (f r) = id r) ->
  (forall r, scim_resource (f r) = view /\ sync_status (f r) = pending) ->
  match bind (db_update i f) (fun _ => no_identity) (tick w) with
  | Return reply w' =>
      reply = cannot_identify
      /\ powershell_executions w' = powershell_executions w
      /\ persisted view w'
  | Raise w' => scim_users w' = scim_users w
                /\ powershell_executions w' = powershell_executions w
  | Outside w' => scim_users w' = scim_users w
                  /\ powershell_executions w' = powershell_executions w
  end.
Proof.
  intros Hid Hf. unfold bind, db_update. cbn [tick scim_users].
  destruct (Db.update i f (scim_users w)) as [t'|] eqn:Hu; cbn; [|auto].
  repeat split. exists (f row). split; [|apply Hf].
  eapply update_first; eauto.
Qed.

Lemma PUT_no_identity user :
  match PUT env i user baseUrl w with
  | Return reply w' =>
      reply = cannot_identify
      /\ powershell_executions w' = powershell_executions w
      /\ persisted (JSON.reparse (VObj (Obj.set "id" (VStr i) (JS.spread user)))) w'
  | Raise w' => scim_users w' = scim_users w
                /\ powershell_executions w' = powershell_executions w
  | Outside w' => scim_users w' = scim_users w
                  /\ powershell_executions w' = powershell_executions w
  end.
Proof.
  unfold PUT. unfold bind at 1. unfold db_first_by_id. rewrite Hrow, no_identity_row.
  unfold bind at 1. destruct (JS.get user "userName") as [userName| |]; cbn [lift]; auto.
  unfold bind at 1.
  assert (Hs : (exists sam,
                  (if JS.truthy userName
                   then let! s := lift (samOf userName) in ret (Some s)
                   else ret (sam_account_name row)) w = Return sam w)
               \/ (if JS.truthy userName
                   then let! s := lift (samOf userName) in ret (Some s)
                   else ret (sam_account_name row)) w = Raise w).
  { destruct (JS.truthy userName); [|left; now exists (sam_account_name row)].
    unfold bind, lift. destruct userName; simpl; eauto. }
  destruct Hs as [(sam & ->) | ->]; [|auto].
  unfold bind at 1. cbn [now].
  apply persist_then_refuse; intros; now simpl.
Qed.

Lemma PATCH_no_identity o ops :
  match PATCH env i (Some (o :: ops)) baseUrl w with
  | Return reply w' =>
      reply = cannot_identify
      /\ powershell_executions w' = powershell_executions w
      /\ exists patched changed,
           applyPatchOps_parsed (scim_resource row) (o :: ops) = Ok (patched, changed)
           /\ persisted (JSON.reparse (VObj (Obj.set "id" (VStr i) (JS.spread patched)))) w'
  | Raise w' => scim_users w' = scim_users w
                /\ powershell_executions w' = powershell_executions w
  | Outside w' => scim_users w' = scim_users w
                  /\ powershell_executions w' = powershell_executions w
  end.
Proof.
  unfold PATCH. unfold bind at 1. unfold db_first_by_id. rewrite Hrow, no_identity_row.
  unfold bind at 1.
  destruct (applyPatchOps_parsed (scim_resource row) (o :: ops))
    as [[patched changed]| |]; cbn [lift]; auto.
  unfold bind at 1. cbn [now].
  pose proof (persist_then_refuse
                (fun r => Db.set_updated_at (clock env (steps w))
                            (Db.set_sync_status pending
                               (Db.set_scim_resource
                                  (JSON.reparse
                                     (VObj (Obj.set "id" (VStr i) (JS.spread patched))))
                                  r)))
                _ (fun r => eq_refl) (fun r => conj eq_refl eq_refl)) as H.
  destruct (bind _ _ _) as [reply w'|w'|w']; auto.
  destruct H as (Hr & Ha & Hp). repeat split; auto. exists patched, changed. auto.
Qed.

(** The write goes through when no other row holds the sam_account_name it
    stores, and the refusal follows. *)
Lemma persist_returns f :
  Db.sam_taken_by_other i (sam_account_name (f row)) (scim_users w) = false ->
  exists w', bind (db_update i f) (fun _ => no_identity) (tick w)
             = Return cannot_identify w'.
Proof.
  intros Hfree. unfold bind, db_update, Db.update. cbn [tick scim_users].
  rewrite Hrow, Hfree. eexists. reflexivity.
Qed.

Lemma PUT_no_identity_returns user userName :
  JS.get user "userName" = Ok userName ->
  (JS.truthy userName = true ->
   exists s, samOf userName = Ok s
             /\ Db.sam_taken_by_other i (Some s) (scim_users w) = false) ->
  exists w', PUT env i user baseUrl w = Return cannot_identify w'.
Proof.
  intros Hu Hs.
  unfold PUT. unfold bind at 1. unfold db_first_by_id. rewrite Hrow, no_identity_row.
  unfold bind at 1. rewrite Hu. cbn [lift].
  unfold bind at 1.
  destruct (JS.truthy userName).
  - destruct (Hs eq_refl) as (s & -> & Hfree). unfold bind at 1. cbn [lift ret].
    unfold bind at 1. cbn [now]. apply persist_returns. exact Hfree.
  - cbn [ret]. unfold bind at 1. cbn [now]. apply persist_returns.
    simpl. now rewrite Hsam.
Qed.

Lemma PATCH_no_identity_returns o ops patched changed :
  applyPatchOps_parsed (scim_resource row) (o :: ops) = Ok (patched, changed) ->
  exists w', PATCH env i (Some (o :: ops)) baseUrl w = Return cannot_identify w'.
Proof.
  intros Hp.
  unfold PATCH. unfold bind at 1. unfold db_first_by_id. rewrite Hrow, no_identity_row.
  unfold bind at 1. rewrite Hp. cbn [lift].
  unfold bind at 1. cbn [now]. apply persist_returns. simpl. now rewrite Hsam.
Qed.

End NoIdentity.

(** Read literally, the claim fails for a request that does not get as far
    as the write: a patch whose only operation has neither path nor value
    throws while the operations are applied, and a replace whose derived
    sam_account_name another row holds is rejected by the unique constraint;
    both runs end without a reply of the handler and leave the orphan row as
    it was. *)
Lemma no_identity_request_fails_before_the_write :
  (~ Spec.refused_after_persist "o1"
       (Server.PATCH Sample.env_created "o1" (Some [Sample.add_without_value])
          "https://idp" Sample.with_orphan)
   /\ Spec.untouched Sample.with_orphan
        (Spec.world_of
           (Server.PATCH Sample.env_created "o1" (Some [Sample.add_without_value])
              "https://idp" Sample.with_orphan)))
  /\ (~ Spec.refused_after_persist "o1"
         (Server.PUT Sample.env_created "o1" (VObj [("userName", VStr "x@y")])
            "https://idp" Sample.with_orphan_and_x)
      /\ Spec.untouched Sample.with_orphan_and_x
           (Spec.world_of
              (Server.PUT Sample.env_created "o1" (VObj [("userName", VStr "x@y")])
                 "https://idp" Sample.with_orphan_and_x))).
Proof.
  assert (E1 : exists w',
             Server.PATCH Sample.env_created "o1" (Some [Sample.add_without_value])
               "https://idp" Sample.with_orphan = Server.Raise w'
             /\ Spec.untouched Sample.with_orphan w').
  { vm_compute. eexists. repeat split. }
  assert (E2 : exists w',
             Server.PUT Sample.env_created "o1" (VObj [("userName", VStr "x@y")])
               "https://idp" Sample.with_orphan_and_x = Server.Raise w'
             /\ Spec.untouched Sample.with_orphan_and_x w').
  { vm_compute. eexists. repeat split. }
  destruct E1 as (w1 & -> & U1), E2 as (w2 & -> & U2).
  split; (split; [intros (reply & w' & view & Hr & _); discriminate Hr | assumption]).
Qed.

(** C10 (amended).  On a row that has neither ad_object_guid nor
    sam_account_name, a replace or a patch that gets as far as the write (a
    replace whose userName is falsy, or is a string whose derived
    sam_account_name no other row holds; a patch whose operations apply
    without throwing) returns 500 "Cannot identify AD account", without
    having run the directory tool, and only after the new SCIM view was
    written to the row with sync_status pending: the write is not rolled
    back.  Whatever the request, a run that replies does so in this way, and
    a run that ends without reply leaves both tables as they were. *)
Theorem no_identity_refused_after_persist
    (env : Server.Env) (i baseUrl : string) (w : Server.World)
    (row : Row.ScimUserRow) :
  Db.first_by_id i (Server.scim_users w) = Some row ->
  Row.ad_object_guid row = None ->
  Row.sam_account_name row = None ->
  (forall user userName,
     JS.get user "userName" = Ok userName ->
     (JS.truthy userName = true ->
      exists s, Server.samOf userName = Ok s
                /\ Db.sam_taken_by_other i (Some s) (Server.scim_users w) = false) ->
     exists w',
       Server.PUT env i user baseUrl w = Server.Return Spec.cannot_identify w'
       /\ Server.powershell_executions w' = Server.powershell_executions w
       /\ Spec.persisted_pending i
            (JSON.reparse (VObj (Obj.set "id" (VStr i) (JS.spread user)))) w')
  /\ (forall o ops patched changed,
        applyPatchOps_parsed (Row.scim_resource row) (o :: ops) = Ok (patched, changed) ->
        exists w',
          Server.PATCH env i (Some (o :: ops)) baseUrl w
          = Server.Return Spec.cannot_identify w'
          /\ Server.powershell_executions w' = Server.powershell_executions w
          /\ Spec.persisted_pending i
               (JSON.reparse (VObj (Obj.set "id" (VStr i) (JS.spread patched)))) w')
  /\ (forall user,
        match Server.PUT env i user baseUrl w with
        | Server.Return reply w' =>
            reply = Spec.cannot_identify
            /\ Server.powershell_executions w' = Server.powershell_executions w
            /\ Spec.persisted_pending i
                 (JSON.reparse (VObj (Obj.set "id" (VStr i) (JS.spread user)))) w'
        | Server.Raise w' => Spec.untouched w w'
        | Server.Outside w' => Spec.untouched w w'
        end)
  /\ (forall o ops,
        match Server.PATCH env i (Some (o :: ops)) baseUrl w with
        | Server.Return reply w' =>
            reply = Spec.cannot_identify
            /\ Server.powershell_executions w' = Server.powershell_executions w
            /\ exists patched changed,
                 applyPatchOps_parsed (Row.scim_resource row) (o :: ops)
                 = Ok (patched, changed)
                 /\ Spec.persisted_pending i
                      (JSON.reparse
                         (VObj (Obj.set "id" (VStr i) (JS.spread patched)))) w'
        | Server.Raise w' => Spec.untouched w w'
        | Server.Outside w' => Spec.untouched w w'
        end).
Proof.
  intros Hrow Hguid Hsam. split; [|split; [|split]].
  - intros user userName Hu Hs.
    destruct (PUT_no_identity_returns env i baseUrl w row Hrow Hguid Hsam
                user userName Hu Hs) as (w' & E).
    pose proof (PUT_no_identity env i baseUrl w row Hrow Hguid Hsam user) as H.
    rewrite E in H. destruct H as (_ & Ha & Hp). exists w'. auto.
  - intros o ops patched changed Hp.
    destruct (PATCH_no_identity_returns env i baseUrl w row Hrow Hguid Hsam
                o ops patched changed Hp) as (w' & E).
    pose proof (PATCH_no_identity env i baseUrl w row Hrow Hguid Hsam o ops) as H.
    rewrite E in H. destruct H as (_ & Ha & patched' & changed' & Hp' & Hv).
    rewrite Hp in Hp'. injection Hp' as <- <-. exists w'. auto.
  - intros user. exact (PUT_no_identity env i baseUrl w row Hrow Hguid Hsam user).
  - intros o ops. exact (PATCH_no_identity env i baseUrl w row Hrow Hguid Hsam o ops).
Qed.

(** A replace and a patch of the orphan row: each is refused with 500, yet
    the new view is stored. *)
Lemma no_identity_refused_after_persist_witness :
  (exists w',
     Server.PUT Sample.env_created "o1" (VObj [("userName", VStr "renamed")])
                "https://idp" Sample.with_orphan
     = Server.Return Spec.cannot_identify w'
     /\ Spec.persisted_pending "o1"
          (VObj [("userName", VStr "renamed"); ("id", VStr "o1")]) w')
  /\ (exists w',
        Server.PATCH Sample.env_created "o1" (Some [Sample.set_nickName])
                     "https://idp" Sample.with_orphan
        = Server.Return Spec.cannot_identify w'
        /\ Spec.persisted_pending "o1"
             (VObj [("userName", VStr "orphan"); ("id", VStr "o1");
                    ("nickName", VStr "Orph")]) w').
Proof.
  destruct (no_identity_refused_after_persist Sample.env_created "o1"
              "https://idp" Sample.with_orphan Sample.orphan_row
              eq_refl eq_refl eq_refl) as (Hput & Hpatch & _).
  split.
  - destruct (Hput (VObj [("userName", VStr "renamed")]) (VStr "renamed") eq_refl)
      as (w' & E & _ & Hp).
    { intros _. eexists. split; reflexivity. }
    exists w'. split; [exact E | exact Hp].
  - destruct (Hpatch Sample.set_nickName []
                (VObj [("userName", VStr "orphan"); ("id", VStr "o1");
                       ("nickName", VStr "Orph")])
                (VObj [("nickName", VStr "Orph")]) eq_refl)
      as (w' & E & _ & Hp).
    exists w'. split; [exact E | exact Hp].
Defined.

(** *** C6: the userName filter *)

(** A filter on userName compares its value with the sam_account_name column
    as it stands: a value containing an at-sign selects no row of a cache
    whose sam_account_name values contain none. *)
Lemma where_sam_with_at_is_empty (t : Db.table) (v : string) :
  Forall Spec.sam_ok t -> Str.includes v "@" = true ->
  Db.where_eq "sam_account_name" v t = [].
Proof.
  intros Ht Hv. unfold Db.where_eq. induction Ht as [|r t Hr _ IH]; [reflexivity|].
  simpl. rewrite IH. unfold Db.column. simpl.
  destruct (Row.sam_account_name r) as [s|] eqn:Es; simpl; [|reflexivity].
  destruct (String.eqb s v) eqn:Eq; [|reflexivity].
  apply String.eqb_eq in Eq. subst v.
  destruct (Hr s Es) as [_ Hno]. congruence.
Qed.

(** C6, on the code.  The filter [userName eq Qx@yQ] (Q the double quote) is
    parsed as supported, on column sam_account_name; the row of the user
    [x@y] has sam_account_name [x]; and the list operation with that filter
    returns an empty page with totalResults 0: the row is not in it. *)
Theorem userName_filter_misses_the_row :
  FilterParser.parseScimFilter Sample.filter_x_at_y
  = Some {| FilterParser.attribute := "userName"; FilterParser.operator := "eq";
            FilterParser.value := "x@y";
            FilterParser.dbColumn := "sam_account_name" |}
  /\ Row.sam_account_name Sample.x_row = Some (Spec.derive_sam "x@y")
  /\ Row.sam_account_name Sample.x_row = Some "x"
  /\ Server.GET_list (Some Sample.filter_x_at_y) None None "https://idp" Sample.with_x
     = Server.Return
         {| Server.status := 200;
            Server.headers := [Server.scim_json];
            Server.body := Formatter.formatListResponse [] 0 1 |}
         Sample.with_x.
Proof. vm_compute. repeat split; reflexivity. Qed.

(** *** C5: the original resource *)

(** C5, on the code.  A replace at the dotted path [name.givenName] writes
    into the [name] object the original resource shares with the copy, and a
    replace at a multi-valued path with a sub-attribute writes into the list
    element they share: after the call the original reads differently. *)
Theorem applyPatchOps_mutates_the_original :
  (let '(original, h) :=
     Heap.store (VObj [("name", VObj [("givenName", VStr "A")])]) [] in
   exists updated changed h',
     PatchApplier.applyPatchOps h original
       [ {| PatchApplier.op := "replace";
            PatchApplier.path := Some "name.givenName";
            PatchApplier.value := Heap.RStr "B" |} ]
     = Ok (updated, changed, h')
     /\ Heap.read h original = Some (VObj [("name", VObj [("givenName", VStr "A")])])
     /\ Heap.read h' original = Some (VObj [("name", VObj [("givenName", VStr "B")])]))
  /\ (let '(original, h) :=
        Heap.store
          (VObj [("emails", VArr [VObj [("type", VStr "work"); ("value", VStr "old")]])])
          [] in
      exists updated changed h',
        PatchApplier.applyPatchOps h original
          [ {| PatchApplier.op := "replace";
               PatchApplier.path := Some "emails[type eq work].value";
               PatchApplier.value := Heap.RStr "new" |} ]
        = Ok (updated, changed, h')
        /\ Heap.read h original
           = Some (VObj [("emails",
                          VArr [VObj [("type", VStr "work"); ("value", VStr "old")]])])
        /\ Heap.read h' original
           = Some (VObj [("emails",
                          VArr [VObj [("type", VStr "work"); ("value", VStr "new")]])])).
Proof. vm_compute. split; do 3 eexists; repeat split; reflexivity. Qed.

(** *** C4: the attribute mapper, there and back *)

Section MapperFacts.
Import Mapping.
Implicit Types (ps : list (string * value)) (k : string) (v : value).

Lemma lookup_set ps k k' v :
  Obj.lookup k (Obj.set k' v ps)
  = if String.eqb k' k then Some v else Obj.lookup k ps.
Proof.
  destruct (String.eqb k' k) eqn:E.
  - apply String.eqb_eq in E. subst. apply lookup_set_eq.
  - apply String.eqb_neq in E. apply lookup_set_ne. congruence.
Qed.

Lemma lookup_set_if ps k k' v :
  Obj.lookup k (set_if_truthy k' v ps)
  = if String.eqb k' k && JS.truthy v then Some v else Obj.lookup k ps.
Proof.
  unfold set_if_truthy. destruct (JS.truthy v); [|now rewrite andb_false_r].
  rewrite andb_true_r. apply lookup_set.
Qed.

Lemma truthy_lookup ps k :
  JS.truthy (default VUndefined (Obj.lookup k ps)) = true ->
  Obj.lookup k ps = Some (default VUndefined (Obj.lookup k ps)).
Proof. destruct (Obj.lookup k ps); simpl; [reflexivity | discriminate]. Qed.

Lemma set_if_truthy_same ps k :
  set_if_truthy k (default VUndefined (Obj.lookup k ps)) ps = ps.
Proof.
  unfold set_if_truthy.
  destruct (JS.truthy _) eqn:E; [|reflexivity].
  apply set_same, truthy_lookup, E.
Qed.

Lemma field_of_name name k :
  String.eqb k "length" = false -> JS.index_of_key k = None ->
  JS.truthy (JS.get_opt name k) = true ->
  exists nps, name = VObj nps /\ Obj.lookup k nps = Some (JS.get_opt name k).
Proof.
  intros Hl Hi. unfold JS.get_opt.
  destruct name as [| | | |s|l|nps]; simpl; try discriminate;
    rewrite ?Hl, ?Hi; try discriminate.
  intros Ht. exists nps. split; [reflexivity|].
  destruct (Obj.lookup k nps); simpl in *; [reflexivity | discriminate].
Qed.

End MapperFacts.

Section MapperRoundTrip.
Import Mapping.

Lemma lookup_enabled k (ac : value) (p : list (string * value)) :
  Obj.lookup k (match ac with VBool _ => Obj.set "Enabled" ac p | _ => p end)
  = if String.eqb "Enabled" k && match ac with VBool _ => true | _ => false end
    then Some ac else Obj.lookup k p.
Proof.
  destruct ac; rewrite ?andb_false_r; try reflexivity.
  rewrite andb_true_r. apply lookup_set.
Qed.

Lemma lookup_path k (baseOu : option string) (p : list (string * value)) :
  String.eqb "Path" k = false ->
  Obj.lookup k (match baseOu with
                | Some ou => set_if_truthy "Path" (VStr ou) p
                | None => p
                end) = Obj.lookup k p.
Proof.
  intros Hk. destruct baseOu; [|reflexivity].
  rewrite lookup_set_if, Hk. reflexivity.
Qed.

Local Ltac lookups :=
  repeat first
    [ rewrite lookup_path by reflexivity
    | rewrite lookup_set
    | rewrite lookup_set_if
    | rewrite lookup_enabled
    | progress cbn [String.eqb Ascii.eqb Bool.eqb andb Obj.lookup] ].

(** What the parameter set holds under the six keys the merge reads. *)
Lemma scimToAdParams_reads ps baseOu params :
  scimToAdParams (VObj ps) baseOu = Ok params ->
  let u := default VUndefined (Obj.lookup "userName" ps) in
  let name := default VUndefined (Obj.lookup "name" ps) in
  let dn := default VUndefined (Obj.lookup "displayName" ps) in
  let ac := default VUndefined (Obj.lookup "active" ps) in
  Obj.lookup "SamAccountName" params = (if JS.truthy u then Some u else None)
  /\ Obj.lookup "DisplayName" params = (if JS.truthy dn then Some dn else None)
  /\ Obj.lookup "GivenName" params
     = (if JS.truthy (JS.get_opt name "givenName")
        then Some (JS.get_opt name "givenName") else None)
  /\ Obj.lookup "Surname" params
     = (if JS.truthy (JS.get_opt name "familyName")
        then Some (JS.get_opt name "familyName") else None)
  /\ Obj.lookup "Enabled" params = (match ac with VBool _ => Some ac | _ => None end)
  /\ (Obj.lookup "EmailAddress" params = None
      \/ exists v, Spec.primary_email_value (VObj ps) = Ok v /\ JS.truthy v = true
                   /\ Obj.lookup "EmailAddress" params = Some v).
Proof.
  intros H.
  unfold scimToAdParams in H. cbn [JS.get obind] in H.
  unfold Spec.primary_email_value. cbn [JS.get obind].
  set (u := default VUndefined (Obj.lookup "userName" ps)) in *.
  set (name := default VUndefined (Obj.lookup "name" ps)) in *.
  set (dn := default VUndefined (Obj.lookup "displayName" ps)) in *.
  set (ac := default VUndefined (Obj.lookup "active" ps)) in *.
  set (ex := default VUndefined (Obj.lookup "externalId" ps)) in *.
  set (em := default VUndefined (Obj.lookup "emails" ps)) in *.
  set (gn := JS.get_opt name "givenName") in *.
  set (sn := JS.get_opt name "familyName") in *.
  cbv zeta. clearbody u name dn ac ex em gn sn.
  destruct (JS.truthy u) eqn:Tu;
    [destruct (JS.includes u "@") as [[|]| |]; cbn [obind] in H; try discriminate|].
  all: destruct em as [| | | |s|[|e l]|eps];
    repeat first
      [ progress cbn [obind JS.truthy JS.get JS.gt_zero negb length Z.of_nat Z.ltb
                      Z.compare] in H
      | match type of H with
        | context [if ?b then _ else _] => destruct b eqn:?; try discriminate
        | context [obind (find_primary ?x) _] =>
            destruct (find_primary x) eqn:?; try discriminate
        | context [obind (JS.get ?x ?k) _] =>
            destruct (JS.get x k) eqn:?; try discriminate
        | context [obind (JS.gt_zero ?x) _] =>
            destruct (JS.gt_zero x) eqn:?; try discriminate
        end ].
  all: match type of H with
       | context [set_if_truthy "DisplayName" _ ?p3] => set (P3 := p3) in H
       end.
  all: injection H as <-.
  all: repeat split.
  all: lookups; subst P3; lookups; try reflexivity.
  all: try (destruct ac; reflexivity).
  all: try (left; reflexivity).
  all: match goal with
       | Hv : JS.get match ?found with _ => _ end "value" = Ok ?v |- _ =>
           destruct (JS.truthy v) eqn:Tv; [right; exists v | left; reflexivity];
           cbn [obind]; destruct found; auto
       end.
Qed.

Lemma keep_userName ps k :
  let x := default VUndefined (Obj.lookup k ps) in
  forall k' params,
    Obj.lookup k' params = (if JS.truthy x then Some x else None) ->
    set_if_truthy k (default VUndefined (Obj.lookup k' params)) ps = ps.
Proof.
  intros x k' params ->. destruct (JS.truthy x) eqn:Tx; simpl.
  - apply set_if_truthy_same.
  - reflexivity.
Qed.

Lemma keep_name ps (gv sv : option value) :
  let name := default VUndefined (Obj.lookup "name" ps) in
  gv = (if JS.truthy (JS.get_opt name "givenName")
        then Some (JS.get_opt name "givenName") else None) ->
  sv = (if JS.truthy (JS.get_opt name "familyName")
        then Some (JS.get_opt name "familyName") else None) ->
  (if JS.truthy (default VUndefined gv) || JS.truthy (default VUndefined sv)
   then Obj.set "name"
          (VObj (Obj.assign
                   (Obj.assign
                      (JS.spread (JS.coalesce (default VUndefined (Obj.lookup "name" ps))
                                              (VObj [])))
                      (if JS.truthy (default VUndefined gv)
                       then [("givenName", default VUndefined gv)] else []))
                   (if JS.truthy (default VUndefined sv)
                    then [("familyName", default VUndefined sv)] else [])))
          ps
   else ps) = ps.
Proof.
  intros name -> ->.
  destruct (JS.truthy (JS.get_opt name "givenName")) eqn:Tg;
    destruct (JS.truthy (JS.get_opt name "familyName")) eqn:Ts;
    cbn [default from_option id JS.truthy orb]; rewrite ?Tg, ?Ts; cbn [orb];
    try reflexivity.
  all: try (destruct (field_of_name name "givenName" eq_refl eq_refl Tg)
              as (nps & Hn & Hg));
       try (destruct (field_of_name name "familyName" eq_refl eq_refl Ts)
              as (nps' & Hn' & Hs));
       subst name; try (rewrite Hn in Hn'; injection Hn' as <-);
       try rewrite Hn in *; try rewrite Hn' in *;
       cbn [JS.coalesce JS.nullish JS.spread Obj.assign fold_left fst snd];
       rewrite ?(set_same _ _ _ Hg), ?(set_same _ _ _ Hs);
       apply set_same;
       match goal with
       | E : default VUndefined ?o = VObj _ |- _ =>
           destruct o; simpl in E; [now subst | discriminate]
       end.
Qed.

Lemma mapped_subset_emails ps v :
  Spec.primary_email_value (VObj ps) = Ok v ->
  Spec.mapped_subset
    (VObj (Obj.set "emails"
             (VArr [VObj [("value", v); ("type", VStr "work"); ("primary", VBool true)]])
             ps))
  = Spec.mapped_subset (VObj ps).
Proof.
  intros Hv. unfold Spec.mapped_subset. rewrite Hv.
  replace (Spec.primary_email_value (VObj (Obj.set "emails" _ ps))) with (Ok v).
  - unfold JS.get_opt. cbn [JS.get]. rewrite !lookup_set. reflexivity.
  - unfold Spec.primary_email_value. cbn [JS.get obind]. rewrite lookup_set.
    reflexivity.
Qed.

End MapperRoundTrip.

(** C4.  Whenever [scimToAdParams] maps a SCIM user [u] to a parameter
    set, merging that parameter set back into [u] with [mergeAdIntoScim]
    succeeds, and the result agrees with [u] on the mapped subset:
    userName, name.givenName, name.familyName, the primary email value,
    displayName, active and externalId. *)
Theorem mapper_round_trip ps baseOu params :
  Mapping.scimToAdParams (VObj ps) baseOu = Ok params ->
  exists merged,
    Mapping.mergeAdIntoScim (VObj ps) (VObj params) = Ok merged
    /\ Spec.mapped_subset merged = Spec.mapped_subset (VObj ps).
Proof.
  intros H.
  destruct (scimToAdParams_reads _ _ _ H) as (R1 & R2 & R3 & R4 & R5 & R6).
  cbv zeta in *.
  unfold Mapping.mergeAdIntoScim. cbn [JS.get obind JS.spread].
  rewrite (keep_userName ps "userName" "SamAccountName" params R1).
  rewrite (keep_userName ps "displayName" "DisplayName" params R2).
  rewrite (keep_name ps _ _ R3 R4).
  assert (Hactive : forall m,
             Obj.lookup "active" m = Obj.lookup "active" ps ->
             match default VUndefined (Obj.lookup "Enabled" params) with
             | VBool _ =>
                 Obj.set "active" (default VUndefined (Obj.lookup "Enabled" params)) m
             | _ => m
             end = m).
  { intros m Hm. rewrite R5.
    destruct (Obj.lookup "active" ps) as [[]|] eqn:Ea; try reflexivity.
    simpl. apply set_same. exact Hm. }
  destruct R6 as [E | (v & Hv & Tv & E)]; rewrite E; cbn [default from_option id JS.truthy].
  - rewrite Hactive by reflexivity. eauto.
  - rewrite Tv, Hactive by (rewrite lookup_set; reflexivity).
    eexists. split; [reflexivity|]. apply mapped_subset_emails, Hv.
Qed.

(** The round trip of [Sample.carol], whose primary email is the second
    entry of the list. *)
Lemma mapper_round_trip_witness :
  exists merged,
    Mapping.mergeAdIntoScim (VObj Sample.carol) (VObj Sample.carol_params) = Ok merged
    /\ Spec.mapped_subset merged = Spec.mapped_subset (VObj Sample.carol).
Proof.
  apply (mapper_round_trip Sample.carol (Some "OU=Users,DC=ex,DC=com")
           Sample.carol_params).
  vm_compute. reflexivity.
Defined.

(** *** C9: a work email added to an empty list *)

Section AddWorkEmail.
Import Heap PatchApplier.
Implicit Types (h : heap) (c : cell) (l : list cell).

Lemma work_path_groups :
  exists m,
    Re.exec MV_RE Sample.work_email_path = Some m
    /\ Re.group 1 m = Some "emails"
    /\ Re.group 2 m = Some Sample.work_filter
    /\ Re.group 3 m = Some "value".
Proof. vm_compute. eexists. repeat split; reflexivity. Qed.

Lemma work_filter_item h :
  buildItemFromFilter h Sample.work_filter = alloc (CObj [("type", RStr "work")]) h.
Proof.
  unfold buildItemFromFilter.
  assert (E : exists m, Re.exec ITEM_RE (Str.trim Sample.work_filter) = Some m
                        /\ Re.group 1 m = Some "type" /\ Re.group 2 m = Some "work")
    by (vm_compute; eexists; repeat split; reflexivity).
  destruct E as (m & -> & -> & ->). reflexivity.
Qed.

Lemma lookup_end h c l : (h ++ c :: l) !! length h = Some c.
Proof. induction h; simpl; auto. Qed.

Lemma lookup_old h l i c : h !! i = Some c -> (h ++ l) !! i = Some c.
Proof. revert i. induction h; intros [|i]; simpl; try discriminate; auto. Qed.

Lemma insert_end h c c' l : <[length h := c']> (h ++ c :: l) = h ++ c' :: l.
Proof. induction h; simpl; [reflexivity|]. f_equal. exact IHh. Qed.

Lemma lookup_next h c0 c l : (h ++ c0 :: c :: l) !! (length h + 1) = Some c.
Proof. induction h; simpl; auto. Qed.

Lemma insert_next h c0 c c' l :
  <[length h + 1 := c']> (h ++ c0 :: c :: l) = h ++ c0 :: c' :: l.
Proof. induction h; simpl; [reflexivity|]. f_equal. exact IHh. Qed.

Lemma lookup_after h l i : (h ++ l) !! (i + length h) = l !! i.
Proof. rewrite Nat.add_comm. induction h; simpl; auto. Qed.

Lemma insert_old h l i c : i < length h -> <[i := c]> (h ++ l) = <[i := c]> h ++ l.
Proof.
  revert i. induction h; intros [|i] Hi; simpl in *; try lia; try reflexivity.
  f_equal. apply IHh. lia.
Qed.

Lemma applyPath_add_work_email h u ps a :
  h !! u = Some (CObj ps) ->
  Obj.lookup "emails" ps = Some (RPtr a) ->
  h !! a = Some (CArr []) ->
  applyPath h u Sample.work_email_path "add" (RStr "a@b")
  = Ok ("emails",
        <[u := CObj (Obj.set "emails" (RPtr (S (length h))) ps)]> h
          ++ [Sample.work_item; CArr [RPtr (length h)]]).
Proof.
  intros Hu He Ha.
  unfold applyPath.
  replace (negb (Str.includes Sample.work_email_path ".")
           && negb (Str.includes Sample.work_email_path "[")) with false
    by (vm_compute; reflexivity).
  destruct work_path_groups as (m & -> & -> & -> & ->).
  cbn [default from_option id Heap.get obind].
  rewrite Hu, He. cbn [default from_option id obind nullish elements].
  rewrite Ha. cbn [String.eqb Ascii.eqb Bool.eqb find obind truthy].
  rewrite work_filter_item. cbn [alloc Heap.set obind app].
  rewrite lookup_end, insert_end. cbn [obind Obj.set String.eqb Ascii.eqb Bool.eqb].
  rewrite <- app_assoc. cbn [app].
  rewrite (lookup_old _ _ _ _ Hu), length_app. cbn [length].
  rewrite Nat.add_1_r, insert_old by (apply lookup_lt_Some in Hu; exact Hu).
  reflexivity.
Qed.

Lemma applyOp_add_work_email h (u changed : loc) :
  applyOp h u changed Sample.add_work_email
  = let* (k, h1) := applyPath h u Sample.work_email_path "add" (RStr "a@b") in
    if String.eqb k EmptyString then Ok h1
    else let* v := Heap.get h1 (RPtr u) k in
         Heap.set h1 (RPtr changed) k v.
Proof.
  unfold applyOp.
  replace (Str.toLowerCase (op Sample.add_work_email)) with "add"
    by (vm_compute; reflexivity).
  reflexivity.
Qed.

Lemma applyPatchOps_add_work_email h res ps a :
  h !! res = Some (CObj ps) ->
  Obj.lookup "emails" ps = Some (RPtr a) ->
  h !! a = Some (CArr []) ->
  applyPatchOps h (RPtr res) [Sample.add_work_email]
  = Ok (length h, S (length h),
        h ++ [CObj (Obj.set "emails" (RPtr (3 + length h)) ps);
              CObj [("emails", RPtr (3 + length h))];
              Sample.work_item;
              CArr [RPtr (2 + length h)]]).
Proof.
  intros Hres He Ha.
  unfold applyPatchOps. cbn [spread]. rewrite Hres. cbn [alloc applyOps].
  rewrite applyOp_add_work_email.
  rewrite <- !app_assoc, !length_app. cbn [app length].
  rewrite (applyPath_add_work_email (h ++ [CObj ps; CObj []]) (length h) ps a)
    by (first [apply lookup_end | exact He | apply lookup_old, Ha]).
  cbn [obind String.eqb Ascii.eqb Bool.eqb].
  rewrite insert_end, <- app_assoc, length_app. cbn [app length].
  unfold Heap.get. rewrite lookup_end, lookup_set_eq.
  cbn [default from_option id obind Heap.set].
  rewrite lookup_next, insert_next.
  cbn [obind Obj.set].
  replace (S (length h + 2)) with (3 + length h) by lia.
  replace (length h + 2) with (2 + length h) by lia.
  replace (length h + 1) with (S (length h)) by lia.
  reflexivity.
Qed.

Lemma read_work_emails fuel h n p :
  h !! p = Some (CArr [RPtr n]) ->
  h !! n = Some Sample.work_item ->
  load (S (S fuel)) h (RPtr p) = Some Sample.work_emails.
Proof.
  intros Hp Hn. cbn [load]. rewrite Hp. cbn. rewrite Hn.
  destruct fuel; reflexivity.
Qed.

(** C9.  In any store where the resource is an object whose [emails] is an
    empty list, applying the single operation add at the path
    [emails[type eq QworkQ].value] (Q the double quote) with value [a@b]
    returns; the emails of the updated resource read as the one-element
    list [{type: work, value: a@b}], built from the filter and appended;
    changedFields reads as the object with exactly the key [emails] and that
    list; and [scimToAdParams] of changedFields holds EmailAddress [a@b]. *)
Theorem add_work_email_to_empty_list h res ps a :
  h !! res = Some (CObj ps) ->
  Obj.lookup "emails" ps = Some (RPtr a) ->
  h !! a = Some (CArr []) ->
  exists updated changedFields h',
    applyPatchOps h (RPtr res) [Sample.add_work_email]
    = Ok (updated, changedFields, h')
    /\ (let* emails := Heap.get h' (RPtr updated) "emails" in
        Ok (Heap.read h' emails)) = Ok (Some Sample.work_emails)
    /\ Heap.read h' (RPtr changedFields) = Some (VObj [("emails", Sample.work_emails)])
    /\ exists params,
         Mapping.scimToAdParams (VObj [("emails", Sample.work_emails)]) None = Ok params
         /\ Obj.lookup "EmailAddress" params = Some (VStr "a@b").
Proof.
  intros Hres He Ha. do 3 eexists.
  split; [exact (applyPatchOps_add_work_email h res ps a Hres He Ha)|].
  set (h' := h ++ _).
  assert (Hp : h' !! (3 + length h) = Some (CArr [RPtr (2 + length h)])).
  { unfold h'. rewrite lookup_after. reflexivity. }
  assert (Hn : h' !! (2 + length h) = Some Sample.work_item).
  { unfold h'. rewrite lookup_after. reflexivity. }
  assert (Hl : length h' = S (S (S (S (length h))))).
  { subst h'. rewrite length_app. simpl. lia. }
  split; [|split].
  - unfold Heap.get. replace (h' !! length h) with (h' !! (0 + length h)) by reflexivity.
    unfold h' at 1. rewrite lookup_after. cbn [lookup list_lookup].
    rewrite lookup_set_eq. cbn [default from_option id obind].
    unfold Heap.read. rewrite Hl. f_equal. apply read_work_emails with (n := 2 + length h); assumption.
  - unfold Heap.read. rewrite Hl.
    assert (Hc : h' !! S (length h) = Some (CObj [("emails", RPtr (3 + length h))])).
    { unfold h'. rewrite (lookup_after h _ 1). reflexivity. }
    change (load (S (S (S (S (length h))))) h' (RPtr (S (length h))))
      with (match h' !! S (length h) with
            | Some (CArr rs) => VArr <$> mapM (load (S (S (S (length h)))) h') rs
            | Some (CObj ps) =>
                VObj <$> mapM (fun kr => pair (fst kr)
                                           <$> load (S (S (S (length h)))) h' (snd kr)) ps
            | None => None
            end).
    rewrite Hc. cbn [mapM fst snd].
    rewrite (read_work_emails _ h' _ _ Hp Hn). reflexivity.
  - eexists. split; [vm_compute; reflexivity | reflexivity].
Qed.

(** The resource [{userName: x, emails: []}], stored at positions 1 and 0. *)
Lemma add_work_email_to_empty_list_witness :
  exists updated changedFields h',
    applyPatchOps [CArr []; CObj [("userName", RStr "x"); ("emails", RPtr 0)]] (RPtr 1)
      [Sample.add_work_email]
    = Ok (updated, changedFields, h')
    /\ (let* emails := Heap.get h' (RPtr updated) "emails" in
        Ok (Heap.read h' emails)) = Ok (Some Sample.work_emails)
    /\ Heap.read h' (RPtr changedFields) = Some (VObj [("emails", Sample.work_emails)])
    /\ exists params,
         Mapping.scimToAdParams (VObj [("emails", Sample.work_emails)]) None = Ok params
         /\ Obj.lookup "EmailAddress" params = Some (VStr "a@b").
Proof.
  apply (add_work_email_to_empty_list
           [CArr []; CObj [("userName", RStr "x"); ("emails", RPtr 0)]] 1
           [("userName", RStr "x"); ("emails", RPtr 0)] 0); reflexivity.
Defined.

(** The same on freshly parsed documents, as the PATCH handler calls it. *)
Example add_work_email_parsed :
  applyPatchOps_parsed
    (VObj [("userName", VStr "x"); ("emails", VArr [])])
    [ {| op := "add"; path := Some Sample.work_email_path; value := VStr "a@b" |} ]
  = Ok (VObj [("userName", VStr "x"); ("emails", Sample.work_emails)],
        VObj [("emails", Sample.work_emails)]).
Proof. vm_compute. reflexivity. Qed.

End AddWorkEmail.

(** *** mapping.ts: what the parameter set holds *)

Section ParameterSet.
Import Mapping Notions.
Implicit Types (ps : list (string * value)) (k : string) (v : value).

Lemma keys_set {A} (ps : list (string * A)) k (v : A) k' :
  In k' (keys (Obj.set k v ps)) -> k' = k \/ In k' (keys ps).
Proof.
  unfold keys. induction ps as [|[k0 v0] ps IH]; simpl.
  - intros [<-|[]]. now left.
  - destruct (String.eqb k0 k) eqn:E; simpl.
    + intros [<-|H]; [right; now left | right; now right].
    + intros [<-|H]; [right; now left|].
      destruct (IH H); [now left | right; now right].
Qed.

Lemma keys_set_NoDup {A} (ps : list (string * A)) k (v : A) :
  List.NoDup (keys ps) -> List.NoDup (keys (Obj.set k v ps)).
Proof.
  unfold keys. induction ps as [|[k0 v0] ps IH]; simpl; intros Hn.
  - constructor; [intros [] | constructor].
  - rewrite List.NoDup_cons_iff in Hn. destruct Hn as [Hin Hn].
    destruct (String.eqb k0 k) eqn:E; simpl.
    + constructor; assumption.
    + constructor; [|now apply IH].
      intros H. apply (keys_set ps k v k0) in H. destruct H as [->|H].
      * now rewrite String.eqb_refl in E.
      * contradiction.
Qed.

Local Abbreviation well_keyed ps :=
  ((forall k, In k (keys ps) -> In k AdUserParams_fields) /\ List.NoDup (keys ps)).

Lemma well_keyed_set ps k v :
  In k AdUserParams_fields -> well_keyed ps -> well_keyed (Obj.set k v ps).
Proof.
  intros Hk [Hin Hn]. split; [|now apply keys_set_NoDup].
  intros k' H. apply keys_set in H. destruct H as [->|H]; auto.
Qed.

Lemma well_keyed_set_if ps k v :
  In k AdUserParams_fields -> well_keyed ps -> well_keyed (set_if_truthy k v ps).
Proof.
  intros Hk H. unfold set_if_truthy. destruct (JS.truthy v); [|exact H].
  now apply well_keyed_set.
Qed.

Lemma well_keyed_nil : well_keyed (@nil (string * value)).
Proof. split; [intros k [] | constructor]. Qed.

Local Ltac field := simpl; repeat first [left; reflexivity | right].

Local Ltac wk :=
  repeat first
    [ assumption
    | apply well_keyed_nil
    | apply well_keyed_set_if; [field|]
    | apply well_keyed_set; [field|]
    | match goal with
      | |- context [match ?x with _ => _ end] => destruct x
      end
    | solve [ split;
              [ intros k Hk; simpl in Hk;
                repeat (destruct Hk as [<-|Hk]; [field|]); destruct Hk
              | repeat (constructor; [simpl; intuition discriminate|]); constructor ] ] ].

(** X1. Every parameter set [scimToAdParams] returns holds only fields of
    [interface AdUserParams], each of them at most once. *)
Theorem scimToAdParams_fields scimUser baseOu params :
  scimToAdParams scimUser baseOu = Ok params ->
  (forall k, In k (keys params) -> In k AdUserParams_fields) /\ List.NoDup (keys params).
Proof.
  unfold scimToAdParams.
  destruct (JS.get scimUser "userName") as [userName| |]; try discriminate.
  cbn [obind].
  assert (H1 : forall p1,
             (if JS.truthy userName
              then let* has_at := JS.includes userName "@" in
                   Ok (if has_at
                       then Obj.set "UserPrincipalName" userName
                              (Obj.set "SamAccountName" userName [])
                       else Obj.set "SamAccountName" userName [])
              else Ok []) = Ok p1 -> well_keyed p1).
  { intros p1. destruct (JS.truthy userName).
    - destruct (JS.includes userName "@") as [has_at| |]; try discriminate.
      intros E; injection E as <-. wk. 
    - intros E; injection E as <-. wk. }
  destruct (if JS.truthy userName then _ else _) as [p1| |]; try discriminate.
  specialize (H1 p1 eq_refl). cbn [obind].
  destruct (JS.get scimUser "name") as [name| |]; try discriminate. cbn [obind].
  destruct (JS.get scimUser "emails") as [emails| |]; try discriminate. cbn [obind].
  set (p2 := set_if_truthy "Surname" _ _).
  assert (H2 : well_keyed p2) by (subst p2; wk).
  clearbody p2.
  assert (H3 : forall p3,
             (if JS.truthy emails
              then let* len := JS.get emails "length" in
                   let* nonempty := JS.gt_zero len in
                   if nonempty
                   then match emails with
                        | VArr l =>
                            let* found := find_primary l in
                            let* emailValue :=
                              JS.get match found with
                                     | Some e => e
                                     | None => nth 0 l VUndefined
                                     end "value" in
                            Ok (set_if_truthy "EmailAddress" emailValue p2)
                        | _ => Throws
                        end
                   else Ok p2
              else Ok p2) = Ok p3 -> well_keyed p3).
  { intros p3. destruct (JS.truthy emails); [|intros [= <-]; exact H2].
    destruct (JS.get emails "length") as [len| |]; try discriminate. cbn [obind].
    destruct (JS.gt_zero len) as [[|]| |]; try discriminate; cbn [obind];
      [|intros [= <-]; exact H2].
    destruct emails as [| | | | |l|]; try discriminate.
    destruct (find_primary l) as [found| |]; try discriminate. cbn [obind].
    destruct (JS.get _ "value") as [emailValue| |]; try discriminate.
    intros [= <-]. wk. }
  destruct (if JS.truthy emails then _ else _) as [p3| |]; try discriminate.
  specialize (H3 p3 eq_refl). cbn [obind].
  destruct (JS.get scimUser "displayName") as [displayName| |]; try discriminate.
  cbn [obind].
  destruct (JS.get scimUser "active") as [active| |]; try discriminate. cbn [obind].
  destruct (JS.get scimUser "externalId") as [externalId| |]; try discriminate.
  cbn [obind]. intros [= <-].
  destruct baseOu; wk.
Qed.


Local Ltac lookups :=
  repeat first
    [ rewrite lookup_path by reflexivity
    | rewrite lookup_set
    | rewrite lookup_set_if
    | rewrite lookup_enabled
    | progress cbn [String.eqb Ascii.eqb Bool.eqb andb Obj.lookup] ].

(** X2. For a user that is an object, the derived parameters of a returned set:
    [Name] is always present and is the displayName when that is truthy, else
    the userName when that is truthy, else undefined; [UserPrincipalName] is the
    userName exactly when that is truthy and contains an at sign; [EmployeeID]
    is the externalId exactly when that is truthy; [Path] is the base OU exactly
    when one is given and is not empty. *)
Theorem scimToAdParams_derived ps baseOu params :
  scimToAdParams (VObj ps) baseOu = Ok params ->
  let userName := JS.get_opt (VObj ps) "userName" in
  let displayName := JS.get_opt (VObj ps) "displayName" in
  let externalId := JS.get_opt (VObj ps) "externalId" in
  Obj.lookup "Name" params
  = Some (if JS.truthy displayName then displayName
          else if JS.truthy userName then userName else VUndefined)
  /\ Obj.lookup "UserPrincipalName" params
     = (if JS.truthy userName
        then match JS.includes userName "@" with
             | Ok true => Some userName
             | _ => None
             end
        else None)
  /\ Obj.lookup "EmployeeID" params
     = (if JS.truthy externalId then Some externalId else None)
  /\ Obj.lookup "Path" params
     = match baseOu with
       | Some ou => if String.eqb ou EmptyString then None else Some (VStr ou)
       | None => None
       end.
Proof.
  unfold scimToAdParams, JS.get_opt. cbn [JS.get obind].
  set (userName := default VUndefined (Obj.lookup "userName" ps)).
  set (name := default VUndefined (Obj.lookup "name" ps)).
  set (emails := default VUndefined (Obj.lookup "emails" ps)).
  set (displayName := default VUndefined (Obj.lookup "displayName" ps)).
  set (active := default VUndefined (Obj.lookup "active" ps)).
  set (externalId := default VUndefined (Obj.lookup "externalId" ps)).
  clearbody userName name emails displayName active externalId.
  assert (H1 : forall p1,
             (if JS.truthy userName
              then let* has_at := JS.includes userName "@" in
                   Ok (if has_at
                       then Obj.set "UserPrincipalName" userName
                              (Obj.set "SamAccountName" userName [])
                       else Obj.set "SamAccountName" userName [])
              else Ok []) = Ok p1 ->
             Obj.lookup "SamAccountName" p1
             = (if JS.truthy userName then Some userName else None)
             /\ Obj.lookup "UserPrincipalName" p1
                = (if JS.truthy userName
                   then match JS.includes userName "@" with
                        | Ok true => Some userName
                        | _ => None
                        end
                   else None)
             /\ Obj.lookup "DisplayName" p1 = None
             /\ Obj.lookup "EmployeeID" p1 = None
             /\ Obj.lookup "Enabled" p1 = None
             /\ Obj.lookup "Name" p1 = None
             /\ Obj.lookup "Path" p1 = None).
  { intros p1. destruct (JS.truthy userName).
    - destruct (JS.includes userName "@") as [[|]| |]; try discriminate;
        intros E; injection E as <-; repeat split; reflexivity.
    - intros E; injection E as <-. repeat split; reflexivity. }
  destruct (if JS.truthy userName then _ else _) as [p1| |]; try discriminate.
  specialize (H1 p1 eq_refl). cbn [obind].
  set (p2 := set_if_truthy "Surname" _ _).
  assert (H2 : forall k, String.eqb "GivenName" k = false ->
                         String.eqb "Surname" k = false ->
                         Obj.lookup k p2 = Obj.lookup k p1).
  { intros k E1 E2. subst p2. now rewrite !lookup_set_if, E1, E2. }
  clearbody p2.
  assert (H3 : forall p3,
             (if JS.truthy emails
              then let* len := JS.get emails "length" in
                   let* nonempty := JS.gt_zero len in
                   if nonempty
                   then match emails with
                        | VArr l =>
                            let* found := find_primary l in
                            let* emailValue :=
                              JS.get match found with
                                     | Some e => e
                                     | None => nth 0 l VUndefined
                                     end "value" in
                            Ok (set_if_truthy "EmailAddress" emailValue p2)
                        | _ => Throws
                        end
                   else Ok p2
              else Ok p2) = Ok p3 ->
             forall k, String.eqb "EmailAddress" k = false ->
                       Obj.lookup k p3 = Obj.lookup k p2).
  { intros p3. destruct (JS.truthy emails); [|intros [= <-]; reflexivity].
    destruct (JS.get emails "length") as [len| |]; try discriminate. cbn [obind].
    destruct (JS.gt_zero len) as [[|]| |]; try discriminate; cbn [obind];
      [|intros [= <-]; reflexivity].
    destruct emails as [| | | | |l|]; try discriminate.
    destruct (find_primary l) as [found| |]; try discriminate. cbn [obind].
    destruct (JS.get _ "value") as [emailValue| |]; try discriminate.
    intros E k Ek; injection E as <-. now rewrite lookup_set_if, Ek. }
  destruct (if JS.truthy emails then _ else _) as [p3| |]; try discriminate.
  specialize (H3 p3 eq_refl). cbn [obind].
  assert (H4 : forall k, String.eqb "GivenName" k = false ->
                         String.eqb "Surname" k = false ->
                         String.eqb "EmailAddress" k = false ->
                         Obj.lookup k p3 = Obj.lookup k p1).
  { intros k E1 E2 E3. now rewrite H3, H2. }
  clear H2 H3. destruct H1 as (L1 & L2 & L3 & L4 & L5 & L6 & L7).
  intros E; injection E as <-.
  repeat split; lookups; rewrite ?H4 by reflexivity;
    rewrite ?L1, ?L2, ?L3, ?L4, ?L5, ?L6, ?L7; try reflexivity.
  - destruct displayName, userName; simpl;
      repeat match goal with
             | |- context [if ?b then _ else _] => destruct b
             end; reflexivity.
  - destruct baseOu as [ou|]; lookups; rewrite ?H4 by reflexivity;
      rewrite ?L7; [|reflexivity].
    simpl. destruct (String.eqb ou EmptyString); reflexivity.
Qed.


Lemma find_primary_objects l :
  forallb is_object l = true ->
  exists found, find_primary l = Ok found
                /\ match found with Some e => is_object e = true | None => True end.
Proof.
  induction l as [|e l IH]; simpl;
    [intros _; exists None; split; [reflexivity | exact Logic.I]|].
  intros H. apply andb_prop in H. destruct H as [He Hl].
  destruct e; try discriminate. cbn [JS.get obind].
  destruct (JS.strict_eq_prim _ _); [|now apply IH].
  eexists. split; [reflexivity | reflexivity].
Qed.

Lemma obind_settles {A B} (o : outcome A) (f : A -> outcome B) :
  (exists a, o = Ok a) -> (forall a, exists b, f a = Ok b) ->
  exists b, obind o f = Ok b.
Proof. intros (a & ->) Hf. exact (Hf a). Qed.

(** X3. [scimToAdParams] returns, and does not throw, on every user whose
    userName, when present, is a string and whose emails, when present, are a
    list of objects; whatever the other members hold. *)
Theorem scimToAdParams_accepts_typed_users ps baseOu :
  typed_user ps -> exists params, scimToAdParams (VObj ps) baseOu = Ok params.
Proof.
  intros [Hu He]. unfold scimToAdParams. cbn [JS.get obind].
  apply obind_settles.
  { destruct (Obj.lookup "userName" ps) as [[| | | |s| |]|]; try contradiction;
      cbn [default from_option id JS.truthy]; eauto.
    destruct (negb _); cbn [JS.includes obind]; eauto. }
  intros p1. apply obind_settles; [|eauto].
  set (p2 := set_if_truthy "Surname" _ _). clearbody p2.
  destruct (Obj.lookup "emails" ps) as [[| | | | |l|]|]; try contradiction;
    cbn [default from_option id JS.truthy]; eauto.
  cbn [JS.get String.eqb Ascii.eqb Bool.eqb obind JS.gt_zero].
  destruct l as [|e l]; [cbn; eauto|].
  replace (Z.ltb 0 (Z.of_nat (length (e :: l)))) with true
    by (symmetry; apply Z.ltb_lt; simpl length; lia).
  destruct (find_primary_objects (e :: l) He) as (found & -> & Hf). cbn [obind].
  assert (Ho : is_object (match found with
                          | Some e0 => e0
                          | None => nth 0 (e :: l) VUndefined
                          end) = true).
  { destruct found; [exact Hf|]. simpl. simpl in He.
    now apply andb_prop in He. }
  destruct (match found with Some e0 => e0 | None => _ end); try discriminate.
  cbn [JS.get obind]. eauto.
Qed.

End ParameterSet.

(** X1 at a sample input. *)
Lemma scimToAdParams_fields_witness :
  (forall k, In k (Notions.keys Sample.carol_params) -> In k Notions.AdUserParams_fields)
  /\ List.NoDup (Notions.keys Sample.carol_params).
Proof.
  apply (scimToAdParams_fields (VObj Sample.carol) (Some "OU=Users,DC=ex,DC=com")
           Sample.carol_params).
  vm_compute. reflexivity.
Defined.

(** X2 at a sample input. *)
Lemma scimToAdParams_derived_witness :
  Obj.lookup "Name" Sample.carol_params = Some (VStr "carol@ex.com")
  /\ Obj.lookup "UserPrincipalName" Sample.carol_params = Some (VStr "carol@ex.com")
  /\ Obj.lookup "EmployeeID" Sample.carol_params = Some (VStr "c7")
  /\ Obj.lookup "Path" Sample.carol_params = Some (VStr "OU=Users,DC=ex,DC=com").
Proof.
  apply (scimToAdParams_derived Sample.carol (Some "OU=Users,DC=ex,DC=com")
           Sample.carol_params).
  vm_compute. reflexivity.
Defined.

(** X3 at a sample input. *)
Lemma scimToAdParams_accepts_typed_users_witness :
  exists params, Mapping.scimToAdParams (VObj Sample.carol) None = Ok params.
Proof.
  apply (scimToAdParams_accepts_typed_users Sample.carol None).
  split; [exact Logic.I | reflexivity].
Defined.

(** *** mapping.ts: what the merge leaves alone *)

Section MergeFrame.
Import Mapping Notions.

Lemma not_member k (l : list string) k' :
  ~ In k l -> In k' l -> String.eqb k' k = false.
Proof.
  intros Hn Hin. apply String.eqb_neq. intros ->. contradiction.
Qed.

Lemma lookup_assign_other (ps : list (string * value)) k k' (v : value) (b : bool) :
  String.eqb k' k = false ->
  Obj.lookup k (Obj.assign ps (if b then [(k', v)] else [])) = Obj.lookup k ps.
Proof.
  intros E. destruct b; [|reflexivity].
  unfold Obj.assign. simpl. now rewrite lookup_set, E.
Qed.

(** X4. [mergeAdIntoScim] on an object returns an object whose top-level members
    other than userName, displayName, name, emails and active are those of the
    existing resource, and whose name keeps every member other than givenName
    and familyName. *)
Theorem mergeAdIntoScim_keeps_the_rest ps adUser merged :
  mergeAdIntoScim (VObj ps) adUser = Ok merged ->
  exists ms,
    merged = VObj ms
    /\ (forall k, ~ In k merged_members -> Obj.lookup k ms = Obj.lookup k ps)
    /\ (forall k, k <> "givenName" -> k <> "familyName" ->
                  Obj.lookup k (JS.spread (JS.coalesce (JS.get_opt merged "name")
                                                       (VObj [])))
                  = Obj.lookup k (JS.spread (JS.coalesce (JS.get_opt (VObj ps) "name")
                                                         (VObj [])))).
Proof.
  unfold mergeAdIntoScim. cbn [JS.spread].
  destruct (JS.get adUser "SamAccountName") as [sam| |]; try discriminate.
  cbn [obind].
  destruct (JS.get adUser "DisplayName") as [dn| |]; try discriminate. cbn [obind].
  destruct (JS.get adUser "GivenName") as [gn| |]; try discriminate. cbn [obind].
  destruct (JS.get adUser "Surname") as [sn| |]; try discriminate. cbn [obind].
  destruct (JS.get adUser "EmailAddress") as [em| |]; try discriminate. cbn [obind].
  destruct (JS.get adUser "Enabled") as [en| |]; try discriminate. cbn [obind].
  intros E; injection E as <-. eexists. split; [reflexivity|]. split.
  - intros k Hk.
    assert (E : forall k', In k' merged_members -> String.eqb k' k = false)
      by (intros k'; apply not_member; exact Hk).
    assert (E1 := E "userName" ltac:(cbn [In merged_members]; auto 10)).
    assert (E2 := E "displayName" ltac:(cbn [In merged_members]; auto 10)).
    assert (E3 := E "name" ltac:(cbn [In merged_members]; auto 10)).
    assert (E4 := E "emails" ltac:(cbn [In merged_members]; auto 10)).
    assert (E5 := E "active" ltac:(cbn [In merged_members]; auto 10)).
    destruct en; destruct (JS.truthy em); destruct (JS.truthy gn || JS.truthy sn);
      rewrite ?lookup_set, ?lookup_set_if, ?E1, ?E2, ?E3, ?E4, ?E5; reflexivity.
  - intros k Hg Hs.
    apply String.eqb_neq in Hg, Hs. rewrite String.eqb_sym in Hg, Hs.
    unfold JS.get_opt. cbn [JS.get].
    assert (Hname : forall m0 : list (string * value),
               Obj.lookup "name" m0 = Obj.lookup "name" ps ->
               Obj.lookup k
                 (JS.spread
                    (JS.coalesce
                       (default VUndefined
                          (Obj.lookup "name"
                             (if JS.truthy gn || JS.truthy sn
                              then Obj.set "name"
                                     (VObj
                                        (Obj.assign
                                           (Obj.assign
                                              (JS.spread
                                                 (JS.coalesce
                                                    (default VUndefined
                                                       (Obj.lookup "name" m0))
                                                    (VObj [])))
                                              (if JS.truthy gn
                                               then [("givenName", gn)] else []))
                                           (if JS.truthy sn
                                            then [("familyName", sn)] else [])))
                                     m0
                              else m0)))
                       (VObj [])))
               = Obj.lookup k
                   (JS.spread
                      (JS.coalesce
                         (default VUndefined (Obj.lookup "name" ps))
                         (VObj [])))).
    { intros m0 Hm0. destruct (JS.truthy gn || JS.truthy sn).
      - rewrite lookup_set, String.eqb_refl. cbn [default from_option id].
        cbn [JS.coalesce JS.nullish JS.spread].
        now rewrite !lookup_assign_other, Hm0 by assumption.
      - now rewrite Hm0. }
    destruct en; destruct (JS.truthy em);
      rewrite ?lookup_set; cbn [String.eqb Ascii.eqb Bool.eqb];
      apply Hname; now rewrite !lookup_set_if.
Qed.

End MergeFrame.

(** X4 at a sample input. *)
Lemma mergeAdIntoScim_keeps_the_rest_witness :
  exists merged,
    Mapping.mergeAdIntoScim (VObj Sample.carol) (VObj [("GivenName", VStr "Caroline")])
    = Ok merged
    /\ exists ms,
         merged = VObj ms
         /\ (forall k, ~ In k Notions.merged_members ->
                       Obj.lookup k ms = Obj.lookup k Sample.carol)
         /\ (forall k, k <> "givenName" -> k <> "familyName" ->
                       Obj.lookup k (JS.spread (JS.coalesce (JS.get_opt merged "name")
                                                            (VObj [])))
                       = Obj.lookup k
                           (JS.spread (JS.coalesce (JS.get_opt (VObj Sample.carol) "name")
                                                   (VObj [])))).
Proof.
  assert (E : exists merged,
             Mapping.mergeAdIntoScim (VObj Sample.carol)
               (VObj [("GivenName", VStr "Caroline")]) = Ok merged).
  { vm_compute. eauto. }
  destruct E as (merged & E). exists merged. split; [exact E|].
  exact (mergeAdIntoScim_keeps_the_rest Sample.carol
           (VObj [("GivenName", VStr "Caroline")]) merged E).
Defined.

(** *** routes/scim/users.ts: requests refused before anything is touched *)

Section Refusals.
Import Row Server.
Variable env : Env.

(** X5. The requests the routes refuse at once leave the cache and the audit log
    as they were: a PATCH without operations is answered 400 (whether or not the
    id exists); GET, PUT, PATCH (with operations) and DELETE of an id that is
    not cached are answered 404; a POST whose userName is falsy is answered 400;
    a POST whose derived sam_account_name is already cached is answered 409,
    naming the userName. *)
Theorem refused_requests_touch_nothing (i baseUrl : string) (user : value)
    (ops : option (list (PatchApplier.PatchOperation value))) (w : World) :
  (* PATCH without operations: 400, whether or not the id exists *)
  (default [] ops = [] ->
   PATCH env i ops baseUrl w
   = Return {| status := 400; headers := [];
               body := Formatter.formatError 400
                         "Operations array is required and must not be empty."
                         (Some "invalidValue") |} w)
  (* an id that is not in the cache: 404 *)
  /\ (Db.first_by_id i (scim_users w) = None ->
      GET_one i baseUrl w = not_found i w
      /\ PUT env i user baseUrl w = not_found i w
      /\ (default [] ops <> [] -> PATCH env i ops baseUrl w = not_found i w)
      /\ DELETE env i w = not_found i w)
  (* POST without a userName: 400 *)
  /\ (forall userName,
        JS.get user "userName" = Ok userName -> JS.truthy userName = false ->
        POST env user baseUrl w
        = Return {| status := 400; headers := [];
                    body := Formatter.formatError 400 "userName is required."
                              (Some "invalidValue") |} w)
  (* POST of a userName whose sam_account_name is taken: 409 *)
  /\ (forall s r,
        JS.get user "userName" = Ok (VStr s) -> s <> EmptyString ->
        Db.first_by_sam (Spec.derive_sam s) (scim_users w) = Some r ->
        POST env user baseUrl w
        = Return {| status := 409; headers := [];
                    body := Formatter.formatError 409
                              ("A user with userName '" +:+ s +:+ "' already exists.")
                              (Some "uniqueness") |} w).
Proof.
  repeat split.
  - intros H. destruct ops as [[|o l]|]; try discriminate; reflexivity.
  - unfold GET_one, try_catch, bind, db_first_by_id. now rewrite H.
  - unfold PUT, bind, db_first_by_id. now rewrite H.
  - intros Hops. destruct ops as [[|o l]|]; try (now elim Hops).
    unfold PATCH, bind, db_first_by_id. now rewrite H.
  - unfold DELETE, bind, db_first_by_id. now rewrite H.
  - intros userName Hu Ht. unfold POST, bind, lift. now rewrite Hu, Ht.
  - intros s r Hu Hs Hd. unfold POST, bind, lift. rewrite Hu.
    assert (Ht : JS.truthy (VStr s) = true).
    { simpl. destruct s; [contradiction | reflexivity]. }
    rewrite Ht. cbn [negb samOf]. unfold db_first_by_sam.
    unfold Spec.derive_sam, Str.substring in Hd.
    unfold Str.substring. now rewrite Hd.
Qed.

End Refusals.

(** *** routes/scim/users.ts: the two read operations *)

Section Reads.
Import Row Server Notions.

Lemma coalesce_string a s : JS.nullish (JS.coalesce a (VStr s)) = false.
Proof. destruct a; reflexivity. Qed.

(** X6. GET of one user always answers and leaves the state as it was: 404 for
    an id that is not cached, 500 when the cached resource is JSON null, and
    otherwise 200 with a body whose id is the requested id, whose meta.location
    is the base URL followed by /scim/v2/Users/ and the id, and whose userName
    is neither null nor undefined. *)
Theorem GET_one_answers (i baseUrl : string) (w : World) :
  exists reply,
    GET_one i baseUrl w = Return reply w
    /\ match Db.first_by_id i (scim_users w) with
       | None => status reply = 404%Z
       | Some r =>
           if JS.nullish (scim_resource r) then status reply = 500%Z
           else status reply = 200%Z
                /\ JS.get_opt (body reply) "id" = VStr i
                /\ JS.get_opt (JS.get_opt (body reply) "meta") "location"
                   = VStr (baseUrl +:+ "/scim/v2/Users/" +:+ i)
                /\ JS.nullish (JS.get_opt (body reply) "userName") = false
       end.
Proof.
  unfold GET_one, try_catch, bind, db_first_by_id.
  destruct (Db.first_by_id i (scim_users w)) as [r|] eqn:Hr.
  - apply first_by_id_some in Hr. destruct Hr as [_ <-].
    unfold send_user, bind, lift, Formatter.formatScimUser.
    destruct (scim_resource r) eqn:Hres; cbn [JS.nullish];
      try (eexists; split; [reflexivity | reflexivity]).
    all: cbn [JS.get obind]; eexists; (split; [reflexivity|]); cbn;
      repeat split; try reflexivity; apply coalesce_string.
  - eexists. split; reflexivity.
Qed.

Lemma length_insert_sorted r t : length (Db.insert_sorted r t) = S (length t).
Proof.
  induction t as [|x t IH]; simpl; [reflexivity|].
  destruct (String.ltb _ _); simpl; [now rewrite IH | reflexivity].
Qed.

Lemma length_orderBy t : length (Db.orderBy_created_at t) = length t.
Proof.
  induction t as [|x t IH]; simpl; [reflexivity|].
  now rewrite length_insert_sorted, IH.
Qed.

Lemma length_page o n t :
  length (Db.page o n t) <= n /\ length (Db.page o n t) <= length t.
Proof.
  unfold Db.page. rewrite length_firstn, length_skipn. lia.
Qed.

(** X7. The list route applies a filter only when it parses and its operator is
    eq: a filter that does not parse, or names an attribute without a column, or
    has another operator, gives the reply of the request without a filter. (The
    attribute is not one of the names every object inherits.) *)
Theorem GET_list_applies_eq_only (filter : string)
    (startIndexStr countStr : option string) (baseUrl : string) (w : World) :
  plain_attribute filter = true ->
  match FilterParser.parseScimFilter filter with
  | Some parsed => FilterParser.operator parsed <> "eq"
  | None => True
  end ->
  GET_list (Some filter) startIndexStr countStr baseUrl w
  = GET_list None startIndexStr countStr baseUrl w.
Proof.
  intros _ H. unfold GET_list.
  destruct (parseInt _) as [si|]; [|reflexivity].
  destruct (parseInt _) as [c|]; [|reflexivity].
  destruct filter as [|a f]; [reflexivity|].
  destruct (FilterParser.parseScimFilter (String a f)) as [parsed|]; [|reflexivity].
  apply String.eqb_neq in H. now rewrite H.
Qed.

Lemma formatScimUser_settles r baseUrl :
  Formatter.formatScimUser r baseUrl <> Beyond.
Proof.
  unfold Formatter.formatScimUser. destruct (scim_resource r); cbn; discriminate.
Qed.

(** X8. When startIndex and count parse as numbers, the list route answers and
    leaves the state as it was: either 500, or 200 with a list response that
    echoes the start index clamped to at least 1, holds at most 200 users, at
    most max(1, count) users, at most totalResults users, while totalResults is
    at most the number of cached rows. *)
Theorem GET_list_page (filter startIndexStr countStr : option string)
    (baseUrl : string) (w : World) (si c : Z) :
  parseInt (default "1" startIndexStr) = Some si ->
  parseInt (default "100" countStr) = Some c ->
  exists reply,
    GET_list filter startIndexStr countStr baseUrl w = Return reply w
    /\ (reply = {| status := 500; headers := [];
                   body := Formatter.formatError 500 "Internal server error" None |}
        \/ exists users total,
             reply = {| status := 200; headers := [scim_json];
                        body := Formatter.formatListResponse users total (Z.max 1 si) |}
             /\ (Z.of_nat (length users) <= 200)%Z
             /\ (Z.of_nat (length users) <= Z.max 1 c)%Z
             /\ (Z.of_nat (length users) <= total)%Z
             /\ (total <= Z.of_nat (length (scim_users w)))%Z).
Proof.
  intros Hsi Hc. unfold GET_list. rewrite Hsi, Hc. unfold try_catch, bind, lift.
  set (selected := match filter with Some (String a f) => _ | _ => _ end).
  assert (Hsel : length selected <= length (scim_users w)).
  { subst selected. destruct filter as [[|a f]|]; try lia.
    destruct (FilterParser.parseScimFilter _) as [parsed|]; try lia.
    destruct (String.eqb _ _); try lia.
    unfold Db.where_eq. apply List.filter_length_le. }
  clearbody selected.
  set (rows := Db.page _ _ _).
  assert (Hrows : length rows <= Z.to_nat (Z.min 200 (Z.max 1 c))
                  /\ length rows <= length selected).
  { subst rows. rewrite <- (length_orderBy selected). apply length_page. }
  clearbody rows.
  set (each := fix each (rs : list ScimUserRow) : outcome (list value) := _).
  assert (Heach : forall rs,
             match each rs with
             | Ok us => length us = length rs
             | Throws => True
             | Beyond => False
             end).
  { induction rs as [|r rs IH]; simpl; [reflexivity|].
    pose proof (formatScimUser_settles r baseUrl) as Hf.
    destruct (Formatter.formatScimUser r baseUrl); try contradiction; cbn [obind];
      [|exact Logic.I].
    destruct (each rs) as [us'| |]; try contradiction; cbn [obind];
      [|exact Logic.I].
    simpl. now rewrite IH. }
  specialize (Heach rows). destruct (each rows) as [users| |].
  - eexists. split; [reflexivity|]. right. exists users, (Z.of_nat (length selected)).
    split; [reflexivity|]. rewrite Heach. lia.
  - eexists. split; [reflexivity|]. now left.
  - contradiction.
Qed.

End Reads.

(** X7 at a sample input. *)
Lemma GET_list_applies_eq_only_witness :
  Server.GET_list (Some Cases.filter_ne) None None "https://idp" Sample.with_x
  = Server.GET_list None None None "https://idp" Sample.with_x.
Proof.
  apply (GET_list_applies_eq_only Cases.filter_ne None None "https://idp" Sample.with_x).
  - vm_compute. reflexivity.
  - vm_compute. discriminate.
Defined.

(** X8 at a sample input. *)
Lemma GET_list_page_witness :
  exists reply,
    Server.GET_list None (Some "2") (Some "1") "https://idp" Sample.with_alice
    = Server.Return reply Sample.with_alice
    /\ (reply = {| Server.status := 500; Server.headers := [];
                   Server.body := Formatter.formatError 500 "Internal server error"
                                    None |}
        \/ exists users total,
             reply = {| Server.status := 200; Server.headers := [Server.scim_json];
                        Server.body := Formatter.formatListResponse users total
                                         (Z.max 1 2) |}
             /\ (Z.of_nat (length users) <= 200)%Z
             /\ (Z.of_nat (length users) <= Z.max 1 1)%Z
             /\ (Z.of_nat (length users) <= total)%Z
             /\ (total <= Z.of_nat (length (Server.scim_users Sample.with_alice)))%Z).
Proof.
  apply (GET_list_page None (Some "2") (Some "1") "https://idp" Sample.with_alice 2 1);
    reflexivity.
Defined.

(** *** routes/scim/users.ts: removal *)

Section Removal.
Import Row Server Notions.
Variable env : Env.

Lemma first_by_id_delete i j t :
  Db.first_by_id j (Db.delete i t)
  = if String.eqb j i then None else Db.first_by_id j t.
Proof.
  unfold Db.first_by_id, Db.delete.
  induction t as [|r t IH]; simpl.
  - now destruct (String.eqb j i).
  - destruct (String.eqb (id r) i) eqn:Ei; simpl.
    + rewrite IH. destruct (String.eqb j i) eqn:Ej; [reflexivity|].
      destruct (String.eqb (id r) j) eqn:Er; [|reflexivity].
      apply String.eqb_eq in Ei, Er. subst. now rewrite String.eqb_refl in Ej.
    + destruct (String.eqb (id r) j) eqn:Er.
      * apply String.eqb_eq in Er. subst j. now rewrite Ei.
      * exact IH.
Qed.

(** X9. DELETE of a cached user always replies. For a row without objectGUID and
    sam_account_name it removes the row, replies 204 and writes no audit row.
    Otherwise it writes exactly one audit row, of Remove-ADUser; when the tool
    exits non-zero and its stderr contains neither 'cannot find' nor 'not found'
    (case-insensitively), the reply is the classified error and the cache is
    unchanged; in every other case the row is removed and the reply is 204.
    After a 204 the id is not found any more and every other id is found as
    before. *)
Theorem DELETE_outcome (i : string) (w : World) (row : ScimUserRow) :
  Db.first_by_id i (scim_users w) = Some row ->
  exists reply w',
    DELETE env i w = Return reply w'
    /\ match identityOf row with
       | None =>
           reply = no_content
           /\ scim_users w' = Db.delete i (scim_users w)
           /\ powershell_executions w' = powershell_executions w
       | Some adIdentity =>
           let settled :=
             powershell_exe env (steps w)
               (fst (PowerShell.removeAdUserScript adIdentity)) in
           (exists audit,
              powershell_executions w' = powershell_executions w ++ [audit]
              /\ PowerShell.cmdlet audit = "Remove-ADUser")
           /\ if negb (Z.eqb (exit_of settled) 0)
                 && negb (already_gone (Spec.stderr_of settled))
              then reply = Spec.classified_reply (Spec.stderr_of settled)
                   /\ scim_users w' = scim_users w
              else reply = no_content
                   /\ scim_users w' = Db.delete i (scim_users w)
       end
    /\ (status reply = 204%Z ->
        forall j, Db.first_by_id j (scim_users w')
                  = if String.eqb j i then None
                    else Db.first_by_id j (scim_users w)).
Proof.
  intros Hrow. unfold DELETE, bind, db_first_by_id. rewrite Hrow.
  destruct (identityOf row) as [adIdentity|].
  - unfold execRemoveAdUser, executePowerShell, PowerShell.removeAdUserScript.
    cbn [fst snd].
    set (settled := powershell_exe env (steps w) _).
    unfold PowerShell.executePowerShell.
    destruct settled as [o e|o e c msg]; cbn [exit_of Spec.stderr_of PowerShell.exitCode
      PowerShell.stderr Z.eqb negb andb].
    + do 2 eexists. split; [reflexivity|]. split.
      * split; [eexists; split; reflexivity|]. split; reflexivity.
      * intros _ j. apply first_by_id_delete.
    + unfold already_gone.
      destruct (negb (Z.eqb (default 1%Z c) 0) && negb _) eqn:E.
      * do 2 eexists. split; [reflexivity|]. split.
        -- split; [eexists; split; reflexivity|]. split; reflexivity.
        -- unfold classified, send, ret. cbn [status].
           intros Hst. exfalso.
           pose proof (classifier_statuses (default msg e)) as Hc.
           cbn [status] in Hst. rewrite Hst in Hc.
           destruct Hc as [Hc|[Hc|[Hc|[Hc|[Hc|[]]]]]]; discriminate.
      * do 2 eexists. split; [reflexivity|]. split.
        -- split; [eexists; split; reflexivity|]. split; reflexivity.
        -- intros _ j. apply first_by_id_delete.
  - do 2 eexists. split; [reflexivity|]. split; [repeat split|].
    intros _ j. apply first_by_id_delete.
Qed.

End Removal.

(** X9 at a sample input. *)
Lemma DELETE_outcome_witness :
  exists reply w',
    Server.DELETE Cases.env_gone "abc" Sample.with_alice = Server.Return reply w'
    /\ Server.status reply = 204%Z
    /\ forall j, Db.first_by_id j (Server.scim_users w')
                 = if String.eqb j "abc" then None
                   else Db.first_by_id j (Server.scim_users Sample.with_alice).
Proof.
  destruct (DELETE_outcome Cases.env_gone "abc" Sample.with_alice Sample.alice_row
              eq_refl) as (reply & w' & E & Hcase & Hgone).
  exists reply, w'. cbn in Hcase. destruct Hcase as (_ & -> & _).
  split; [exact E|]. split; [reflexivity|]. apply Hgone. reflexivity.
Defined.

(** *** scim/patch-applier.ts: filters and the items built from them *)

Section PatchFacts.
Import Heap PatchApplier Notions.
Implicit Types (h : heap) (l : list cell).

Lemma load_string fuel h s : load fuel h (RStr s) = Some (VStr s).
Proof. destruct fuel; reflexivity. Qed.

(** X10. The item [buildItemFromFilter] builds for a filter matches that filter,
    for every filter the pattern accepts, unless the filter's value is the text
    true or false; a filter the pattern does not accept gives the empty item,
    which matches nothing. *)
Theorem built_item_matches h filterExpr :
  matchesFilter (snd (buildItemFromFilter h filterExpr))
                (RPtr (fst (buildItemFromFilter h filterExpr))) filterExpr
  = Ok (match Re.exec ITEM_RE (Str.trim filterExpr) with
        | Some m =>
            let val := default EmptyString (Re.group 2 m) in
            negb (String.eqb val "true") && negb (String.eqb val "false")
        | None => false
        end).
Proof.
  unfold matchesFilter, buildItemFromFilter.
  destruct (Re.exec ITEM_RE (Str.trim filterExpr)) as [m|]; [|reflexivity].
  set (val := default EmptyString (Re.group 2 m)).
  set (attr := default EmptyString (Re.group 1 m)).
  cbn [alloc fst snd Heap.get]. rewrite lookup_end.
  cbn [Obj.lookup]. rewrite String.eqb_refl. cbn [default from_option id obind].
  destruct (String.eqb val "true") eqn:Et; [reflexivity|].
  destruct (String.eqb val "false") eqn:Ef; [reflexivity|].
  unfold Heap.read. rewrite load_string. cbn [JS.toString].
  now rewrite String.eqb_refl.
Qed.


(** *** scim/patch-applier.ts: operations on top-level attributes *)

Lemma lookup_beyond h l x : (h ++ l) !! (length h + x) = l !! x.
Proof. rewrite Nat.add_comm. apply lookup_after. Qed.

Lemma set_frame h l x k v hp :
  Heap.set (h ++ l) (RPtr (length h + x)) k v = Ok hp ->
  exists l', hp = h ++ l' /\ length l' = length l.
Proof.
  unfold Heap.set. rewrite lookup_beyond.
  destruct (l !! x) as [[ps|rs]|]; try discriminate.
  intros [= <-]. eexists. split; [apply insert_app_r|].
  apply length_insert.
Qed.

Lemma remove_frame h l x k hp :
  Heap.remove (h ++ l) (RPtr (length h + x)) k = Ok hp ->
  exists l', hp = h ++ l' /\ length l' = length l.
Proof.
  unfold Heap.remove. rewrite lookup_beyond.
  destruct (l !! x) as [[ps|rs]|]; try discriminate.
  intros [= <-]. eexists. split; [apply insert_app_r|].
  apply length_insert.
Qed.

Lemma for_each_frame h (entries : list (string * ref)) : forall l hp,
  for_each entries
    (fun h0 key val =>
       let* h1 := Heap.set h0 (RPtr (length h + 0)) key val in
       Heap.set h1 (RPtr (length h + 1)) key val) (h ++ l) = Ok hp ->
  exists l', hp = h ++ l' /\ length l' = length l.
Proof.
  induction entries as [|[key val] entries IH]; intros l hp; cbn [for_each].
  - intros [= <-]. eauto.
  - destruct (Heap.set (h ++ l) (RPtr (length h + 0)) key val) as [h1| |] eqn:E1;
      try discriminate.
    apply set_frame in E1. destruct E1 as (l1 & -> & Hl1). cbn [obind].
    destruct (Heap.set (h ++ l1) (RPtr (length h + 1)) key val) as [h2| |] eqn:E2;
      try discriminate.
    apply set_frame in E2. destruct E2 as (l2 & -> & Hl2). cbn [obind].
    intros H. apply IH in H. destruct H as (l' & -> & Hl'). exists l'.
    split; [reflexivity | congruence].
Qed.

Lemma applyOp_frame h l (o : PatchOperation ref) hp :
  top_level o = true ->
  applyOp (h ++ l) (length h + 0) (length h + 1) o = Ok hp ->
  exists l', hp = h ++ l' /\ length l' = length l.
Proof.
  unfold top_level, applyOp. destruct (path o) as [[|c p]|].
  - intros _. destruct (_ || _); [|intros [= <-]; eauto].
    destruct (nullish (value o)); [discriminate|]. apply for_each_frame.
  - intros Hs. unfold applyPath. unfold simple_path in Hs. rewrite Hs.
    set (first := if String.eqb _ "remove" then _ else _).
    assert (Hf : forall h1, first = Ok h1 ->
                            exists l1, h1 = h ++ l1 /\ length l1 = length l).
    { intros h1. subst first. destruct (String.eqb _ "remove").
      - apply remove_frame.
      - apply set_frame. }
    destruct first as [h1| |]; try discriminate.
    destruct (Hf h1 eq_refl) as (l1 & -> & Hl1). cbn [obind String.eqb].
    destruct (Heap.get _ _ _) as [v| |]; try discriminate. cbn [obind].
    intros H. apply set_frame in H. destruct H as (l' & -> & Hl').
    exists l'. split; [reflexivity | congruence].
  - intros _. destruct (_ || _); [|intros [= <-]; eauto].
    destruct (nullish (value o)); [discriminate|]. apply for_each_frame.
Qed.

Lemma applyOps_frame h (ops : list (PatchOperation ref)) : forall l hp,
  forallb top_level ops = true ->
  applyOps (h ++ l) (length h + 0) (length h + 1) ops = Ok hp ->
  exists l', hp = h ++ l' /\ length l' = length l.
Proof.
  induction ops as [|o ops IH]; intros l hp; cbn [applyOps forallb].
  - intros _ [= <-]. eauto.
  - intros Ht. apply andb_prop in Ht. destruct Ht as [Ho Hops].
    destruct (applyOp _ _ _ o) as [h1| |] eqn:E1; try discriminate.
    apply applyOp_frame in E1; [|exact Ho]. destruct E1 as (l1 & -> & Hl1).
    cbn [obind]. intros H. apply IH in H; [|exact Hops].
    destruct H as (l' & -> & Hl'). exists l'. split; [reflexivity | congruence].
Qed.

Lemma applyOps_frame_at h (ops : list (PatchOperation ref)) u c l hp :
  u = length h -> c = S (length h) ->
  forallb top_level ops = true ->
  applyOps (h ++ l) u c ops = Ok hp ->
  exists l', hp = h ++ l' /\ length l' = length l.
Proof.
  intros -> ->.
  replace (applyOps (h ++ l) (length h) (S (length h)) ops)
    with (applyOps (h ++ l) (length h + 0) (length h + 1) ops)
    by (f_equal; lia).
  apply applyOps_frame.
Qed.

(** X11. Operations without a path, or with a path that has neither a dot nor a
    bracket, leave every object that existed before the call as it was: a
    successful [applyPatchOps] only allocates the two objects it returns. *)
Theorem top_level_operations_leave_the_store h resource
    (ops : list (PatchOperation ref)) updated changedFields h' :
  forallb top_level ops = true ->
  applyPatchOps h resource ops = Ok (updated, changedFields, h') ->
  updated = length h
  /\ changedFields = S (length h)
  /\ exists u c, h' = h ++ [u; c].
Proof.
  intros Ht. unfold applyPatchOps. cbn [alloc].
  destruct (applyOps _ _ _ ops) as [hp| |] eqn:E; try discriminate.
  intros [= <- <- <-]. rewrite <- app_assoc in E. cbn [app] in E.
  apply applyOps_frame_at in E; [| reflexivity | | exact Ht].
  - destruct E as (l' & -> & Hl').
    rewrite length_app. cbn [length].
    split; [reflexivity|]. split; [lia|].
    destruct l' as [|u [|c [|x l']]]; try discriminate. eauto.
  - rewrite length_app. cbn [length]. lia.
Qed.

Lemma lookup_remove_eq {A} (ps : list (string * A)) k :
  Obj.lookup k (Obj.remove k ps) = None.
Proof.
  induction ps as [|[k' v'] ps IH]; simpl; [reflexivity|].
  destruct (String.eqb k' k) eqn:E; simpl; [exact IH|]. now rewrite E.
Qed.

(** X12. One operation on a simple path k (not empty, not an inherited name) of
    an object resource: with the verb remove, in any letter case, the updated
    resource is the resource without k and changedFields holds k with undefined;
    with any other verb the updated resource has k set to the value and
    changedFields holds k with the value. *)
Theorem top_level_operation h res ps verb k v :
  h !! res = Some (CObj ps) ->
  simple_path k = true -> k <> EmptyString -> inherited k = false ->
  applyPatchOps h (RPtr res) [ {| op := verb; path := Some k; value := v |} ]
  = Ok (length h, S (length h),
        h ++ (if String.eqb (Str.toLowerCase verb) "remove"
              then [CObj (Obj.remove k ps); CObj [(k, RUndefined)]]
              else [CObj (Obj.set k v ps); CObj [(k, v)]])).
Proof.
  intros Hres Hs Hk _. unfold applyPatchOps. cbn [spread]. rewrite Hres.
  cbn [alloc applyOps applyOp path op value].
  destruct k as [|c p]; [contradiction|].
  unfold applyPath. unfold simple_path in Hs. rewrite Hs.
  rewrite <- app_assoc, length_app. cbn [app length].
  destruct (String.eqb (Str.toLowerCase verb) "remove").
  - unfold Heap.remove. rewrite lookup_end, insert_end. cbn [obind String.eqb].
    unfold Heap.get. rewrite lookup_end, lookup_remove_eq.
    cbn [default from_option id obind]. unfold Heap.set.
    rewrite lookup_next, insert_next. cbn [obind Obj.set].
    now replace (length h + 1) with (S (length h)) by lia.
  - unfold Heap.set at 1. rewrite lookup_end, insert_end. cbn [obind String.eqb].
    unfold Heap.get. rewrite lookup_end, lookup_set_eq.
    cbn [default from_option id obind]. unfold Heap.set.
    rewrite lookup_next, insert_next. cbn [obind Obj.set].
    now replace (length h + 1) with (S (length h)) by lia.
Qed.

Lemma applyOps_ignored hp u c (ops : list (PatchOperation ref)) :
  forallb ignored ops = true -> applyOps hp u c ops = Ok hp.
Proof.
  induction ops as [|o ops IH]; cbn [applyOps forallb]; [reflexivity|].
  intros H. apply andb_prop in H. destruct H as [Ho Hops].
  assert (E : applyOp hp u c o = Ok hp).
  { unfold ignored in Ho. unfold applyOp.
    destruct (path o) as [[|a p]|]; try discriminate;
      apply negb_true_iff in Ho; now rewrite Ho. }
  rewrite E. cbn [obind]. now apply IH.
Qed.

(** X13. Operations that have no path (or an empty one) and a verb other than
    add and replace are ignored: [applyPatchOps] returns a copy of the resource
    and an empty changedFields. *)
Theorem ignored_operations_change_nothing h resource
    (ops : list (PatchOperation ref)) :
  forallb ignored ops = true ->
  applyPatchOps h resource ops
  = Ok (length h, S (length h), h ++ [CObj (spread h resource); CObj []]).
Proof.
  intros H. unfold applyPatchOps. cbn [alloc].
  rewrite applyOps_ignored by exact H. cbn [obind].
  rewrite <- app_assoc, length_app. cbn [app length].
  now replace (length h + 1) with (S (length h)) by lia.
Qed.

End PatchFacts.

(** X11 at a sample input. *)
Lemma top_level_operations_leave_the_store_witness :
  exists updated changedFields h',
    PatchApplier.applyPatchOps Cases.one_user (Heap.RPtr 0)
      [Cases.set_displayName; Cases.remove_nothing]
    = Ok (updated, changedFields, h')
    /\ updated = 1 /\ changedFields = 2
    /\ exists u c, h' = Cases.one_user ++ [u; c].
Proof.
  assert (E : exists updated changedFields h',
             PatchApplier.applyPatchOps Cases.one_user (Heap.RPtr 0)
               [Cases.set_displayName; Cases.remove_nothing]
             = Ok (updated, changedFields, h')).
  { vm_compute. eauto. }
  destruct E as (updated & changedFields & h' & E). exists updated, changedFields, h'.
  split; [exact E|].
  exact (top_level_operations_leave_the_store Cases.one_user (Heap.RPtr 0)
           [Cases.set_displayName; Cases.remove_nothing] updated changedFields h'
           eq_refl E).
Defined.

(** X12 at a sample input. *)
Lemma top_level_operation_witness :
  PatchApplier.applyPatchOps Cases.one_user (Heap.RPtr 0) [Cases.set_displayName]
  = Ok (1, 2,
        Cases.one_user
        ++ [Heap.CObj [("userName", Heap.RStr "x"); ("displayName", Heap.RStr "X")];
            Heap.CObj [("displayName", Heap.RStr "X")]]).
Proof.
  apply (top_level_operation Cases.one_user 0 [("userName", Heap.RStr "x")]
           "Replace" "displayName" (Heap.RStr "X"));
    [reflexivity | reflexivity | discriminate | reflexivity].
Defined.

(** X13 at a sample input. *)
Lemma ignored_operations_change_nothing_witness :
  PatchApplier.applyPatchOps Cases.one_user (Heap.RPtr 0) [Cases.remove_nothing]
  = Ok (1, 2, Cases.one_user
              ++ [Heap.CObj [("userName", Heap.RStr "x")]; Heap.CObj []]).
Proof.
  apply (ignored_operations_change_nothing Cases.one_user (Heap.RPtr 0)
           [Cases.remove_nothing]).
  reflexivity.
Defined.

(** *** powershell.ts: escaping, logging, auditing *)

Section PowerShellFacts.
Import PowerShell Notions.

Lemma undouble_cons c s :
  Ascii.eqb c "'" = false -> undouble (String c s) = String c (undouble s).
Proof. intros E. cbn [undouble]. rewrite E. destruct s; reflexivity. Qed.

Lemma undouble_quotes s :
  undouble (String "'" (String "'" s)) = String "'" (undouble s).
Proof. reflexivity. Qed.

(** X14. [esc] returns on every string, and reading each pair of single quotes
    of its result as one quote gives the string back: the escaping loses
    nothing. *)
Theorem esc_loses_nothing (s : string) :
  exists t, esc (VStr s) = Ok t /\ undouble t = s.
Proof.
  eexists. split; [reflexivity|].
  induction s as [|c s IH]; [reflexivity|].
  cbn [Str.replaceAll]. destruct (Ascii.eqb c "'") eqn:E.
  - apply Ascii.eqb_eq in E. subst c.
    change ("''" +:+ Str.replaceAll "'" "''" s)
      with (String "'" (String "'" (Str.replaceAll "'" "''" s))).
    now rewrite undouble_quotes, IH.
  - now rewrite undouble_cons, IH.
Qed.


Lemma set_fresh {A} (ps : list (string * A)) k (v : A) :
  ~ In k (keys ps) -> Obj.set k v ps = ps ++ [(k, v)].
Proof.
  unfold keys. induction ps as [|[k' v'] ps IH]; simpl; intros Hn; [reflexivity|].
  destruct (String.eqb k' k) eqn:E.
  - apply String.eqb_eq in E. subst k'. elim Hn. now left.
  - f_equal. apply IH. intros H. apply Hn. now right.
Qed.

Lemma sanitize_from (params : list (string * value)) : forall acc,
  List.NoDup (keys acc ++ keys params) ->
  fold_left
    (fun safe kv =>
       Obj.set (fst kv) (if is_sensitive (fst kv) then VStr REDACTED else snd kv) safe)
    params acc
  = acc ++ map redacted params.
Proof.
  induction params as [|[k v] params IH]; intros acc Hn; simpl.
  - now rewrite app_nil_r.
  - rewrite set_fresh.
    + rewrite IH.
      * now rewrite <- app_assoc.
      * unfold keys in *. rewrite map_app. simpl. now rewrite <- app_assoc.
    + unfold keys in *. simpl in Hn. apply List.NoDup_remove_2 in Hn.
      intros H. apply Hn. apply in_or_app. now left.
Qed.

Lemma keys_redacted (params : list (string * value)) :
  keys (map redacted params) = keys params.
Proof. unfold keys. rewrite map_map. reflexivity. Qed.

Lemma redacted_twice (params : list (string * value)) :
  map redacted (map redacted params) = map redacted params.
Proof.
  rewrite map_map. apply map_ext. intros [k v]. unfold redacted. simpl.
  now destruct (is_sensitive k).
Qed.

(** X15. On parameters whose keys are distinct (and not __proto__),
    [sanitizeParams] works entry by entry: it keeps the keys and their order,
    replaces the value of each sensitive key by the marker, leaves every other
    value as it is, and applying it twice is the same as applying it once. *)
Theorem sanitizeParams_entrywise (params : list (string * value)) :
  List.NoDup (keys params) -> ~ In "__proto__" (keys params) ->
  sanitizeParams params = map redacted params
  /\ keys (sanitizeParams params) = keys params
  /\ sanitizeParams (sanitizeParams params) = sanitizeParams params.
Proof.
  intros Hn _.
  assert (E : forall ps, List.NoDup (keys ps) -> sanitizeParams ps = map redacted ps).
  { intros ps Hps. unfold sanitizeParams. now rewrite sanitize_from. }
  rewrite (E params Hn).
  rewrite (E (map redacted params)) by (rewrite keys_redacted; exact Hn).
  repeat split; [apply keys_redacted | apply redacted_twice].
Qed.

Lemma substring_prefix n : forall s, String.prefix (String.substring 0 n s) s = true.
Proof.
  induction n as [|n IH]; intros [|c s]; simpl; try reflexivity.
  destruct (ascii_dec c c); [apply IH | contradiction].
Qed.

(** X16. The audit row [executePowerShell] writes agrees with the result it
    returns: the exit code is 0 for a resolved process and the code of a
    rejected one (1 when it has none); the row carries that exit code and the
    duration; its stdout and stderr are prefixes of the result's, at most 65535
    characters long; the parsed value is null when stdout is blank, and the
    trimmed stdout itself when that is not JSON. *)
Theorem audit_row_follows_the_result json_parse settled elapsed cmd params uid :
  let run := executePowerShell json_parse settled elapsed cmd params uid in
  exitCode (fst run) = exit_of settled
  /\ stderr (fst run) = Spec.stderr_of settled
  /\ exit_code (snd run) = exitCode (fst run)
  /\ duration_ms (snd run) = durationMs (fst run)
  /\ String.prefix (audit_stdout (snd run)) (stdout (fst run)) = true
  /\ String.prefix (audit_stderr (snd run)) (stderr (fst run)) = true
  /\ String.length (audit_stdout (snd run)) <= 65535
  /\ String.length (audit_stderr (snd run)) <= 65535
  /\ (Str.trim (stdout (fst run)) = EmptyString -> parsed (fst run) = VNull)
  /\ (json_parse (Str.trim (stdout (fst run))) = None ->
      Str.trim (stdout (fst run)) <> EmptyString ->
      parsed (fst run) = VStr (Str.trim (stdout (fst run)))).
Proof.
  unfold executePowerShell.
  destruct settled as [o e|o e c msg]; cbn [fst snd exitCode stderr stdout exit_code
    duration_ms durationMs audit_stdout audit_stderr parsed exit_of Spec.stderr_of];
    unfold Str.substring; rewrite !Nat.sub_0_r;
    repeat split; try apply substring_prefix; try apply substring_length.
  all: try (intros ->; reflexivity).
  all: intros Hp Hne; rewrite Hp; apply String.eqb_neq in Hne; now rewrite Hne.
Qed.


Lemma lookup_remove {A} (ps : list (string * A)) k k' :
  Obj.lookup k (Obj.remove k' ps)
  = if String.eqb k' k then None else Obj.lookup k ps.
Proof.
  induction ps as [|[k0 v0] ps IH]; simpl.
  - now destruct (String.eqb k' k).
  - destruct (String.eqb k0 k') eqn:E0; simpl.
    + rewrite IH. destruct (String.eqb k' k) eqn:E; [reflexivity|].
      destruct (String.eqb k0 k) eqn:E1; [|reflexivity].
      apply String.eqb_eq in E0, E1. subst. now rewrite String.eqb_refl in E.
    + destruct (String.eqb k0 k) eqn:E1.
      * apply String.eqb_eq in E1. subst k0.
        now rewrite String.eqb_sym, E0.
      * exact IH.
Qed.

Lemma lookup_sanitize_none (params : list (string * value)) k : forall acc,
  Obj.lookup k acc = None -> Obj.lookup k params = None ->
  Obj.lookup k
    (fold_left
       (fun safe kv =>
          Obj.set (fst kv) (if is_sensitive (fst kv) then VStr REDACTED else snd kv)
                  safe)
       params acc) = None.
Proof.
  induction params as [|[k1 v1] params IH]; intros acc Hacc Hp; simpl; [exact Hacc|].
  simpl in Hp. destruct (String.eqb k1 k) eqn:E; [discriminate|].
  apply IH; [|exact Hp]. cbn [fst snd]. now rewrite lookup_set, E.
Qed.

Lemma sanitized_entries (params : list (string * value)) : forall acc k v,
  (forall k0 v0, In (k0, v0) acc -> is_sensitive k0 = true -> v0 = VStr REDACTED) ->
  In (k, v)
     (fold_left
        (fun safe kv =>
           Obj.set (fst kv) (if is_sensitive (fst kv) then VStr REDACTED else snd kv)
                   safe)
        params acc) ->
  is_sensitive k = true -> v = VStr REDACTED.
Proof.
  induction params as [|[k1 v1] params IH]; intros acc k v Hacc; simpl.
  - apply Hacc.
  - apply IH. intros k0 v0 Hin Hs. cbn [fst snd] in Hin.
    apply in_set in Hin. destruct Hin as [[-> ->]|Hin].
    + now rewrite Hs.
    + now apply (Hacc k0).
Qed.

Lemma lookup_assign_none {A} (src : list (string * A)) k : forall target,
  Obj.lookup k target = None -> Obj.lookup k src = None ->
  Obj.lookup k (Obj.assign target src) = None.
Proof.
  unfold Obj.assign.
  induction src as [|[k1 v1] src IH]; intros target Ht Hs; simpl; [exact Ht|].
  simpl in Hs. destruct (String.eqb k1 k) eqn:E; [discriminate|].
  apply IH; [|exact Hs]. rewrite lookup_set_ne; [exact Ht|].
  apply String.eqb_neq in E. congruence.
Qed.

Lemma lookup_without {A} (ks : list string) k : forall (ps : list (string * A)),
  In k ks -> Obj.lookup k (fold_left (fun acc k0 => Obj.remove k0 acc) ks ps) = None.
Proof.
  induction ks as [|k0 ks IH]; intros ps; simpl; [intros []|].
  intros [->|Hin]; [|now apply IH].
  clear IH. revert ps. induction ks as [|k1 ks IH]; intros ps; simpl.
  - apply lookup_remove_eq.
  - specialize (IH (Obj.remove k1 ps)).
    assert (E : Obj.remove k (Obj.remove k1 ps) = Obj.remove k1 (Obj.remove k ps)).
    { clear. induction ps as [|[a b] ps IHps]; simpl; [reflexivity|].
      destruct (String.eqb a k1) eqn:E1, (String.eqb a k) eqn:E2; simpl;
        rewrite ?E1, ?E2; congruence. }
    now rewrite <- E.
Qed.

(** X17. Whatever parameters [execNewAdUser] is given, the parameters it hands
    to the audit log have no AccountPassword entry, and every entry with a
    sensitive key holds the marker. *)
Theorem create_log_holds_no_password params script logged :
  newAdUserScript params = Ok (script, logged) ->
  Obj.lookup "AccountPassword" logged = None
  /\ forall k v, In (k, v) logged -> is_sensitive k = true -> v = VStr REDACTED.
Proof.
  unfold newAdUserScript.
  destruct (esc (prop "AccountPassword" params)); try discriminate. cbn [obind].
  destruct (esc (JS.coalesce _ _)); try discriminate. cbn [obind].
  destruct (if JS.truthy (prop "SamAccountName" params) then _ else _);
    try discriminate. cbn [obind].
  destruct (if JS.truthy (prop "Path" params) then _ else _);
    try discriminate. cbn [obind].
  intros [= _ <-]. split.
  - unfold sanitizeParams. apply lookup_sanitize_none; [reflexivity|].
    apply lookup_assign_none; [reflexivity|].
    apply (lookup_without ["AccountPassword"; "Name"; "Path"; "SamAccountName"]).
    now left.
  - intros k v. unfold sanitizeParams. apply sanitized_entries. intros k0 v0 [].
Qed.

End PowerShellFacts.

(** X15 at a sample input. *)
Lemma sanitizeParams_entrywise_witness :
  PowerShell.sanitizeParams Cases.with_token
  = [("identity", VStr "x"); ("Token", VStr PowerShell.REDACTED); ("Enabled", VBool true)]
  /\ Notions.keys (PowerShell.sanitizeParams Cases.with_token)
     = ["identity"; "Token"; "Enabled"]
  /\ PowerShell.sanitizeParams (PowerShell.sanitizeParams Cases.with_token)
     = PowerShell.sanitizeParams Cases.with_token.
Proof.
  apply (sanitizeParams_entrywise Cases.with_token).
  - repeat constructor; cbn; intuition discriminate.
  - cbn. intuition discriminate.
Defined.

(** X17 at a sample input. *)
Lemma create_log_holds_no_password_witness :
  exists script logged,
    PowerShell.newAdUserScript Cases.carol_new = Ok (script, logged)
    /\ Obj.lookup "AccountPassword" logged = None
    /\ forall k v, In (k, v) logged -> PowerShell.is_sensitive k = true ->
                   v = VStr PowerShell.REDACTED.
Proof.
  assert (E : exists script logged,
             PowerShell.newAdUserScript Cases.carol_new = Ok (script, logged)).
  { vm_compute. eauto. }
  destruct E as (script & logged & E). exists script, logged. split; [exact E|].
  exact (create_log_holds_no_password Cases.carol_new script logged E).
Defined.

(** *** plugins/auth.ts *)

Section AuthFacts.
Import Server Auth.
Variable base64_utf8 : string -> string.
Variable apiKey : string.

Lemma indexOf_app_colon user rest :
  indexOf ":" user = None ->
  indexOf ":" (user +:+ String ":" rest) = Some (String.length user).
Proof.
  induction user as [|c user IH]; simpl; [reflexivity|].
  destruct (Ascii.eqb c ":"); [discriminate|].
  destruct (indexOf ":" user); [discriminate|]. intros _.
  now rewrite IH.
Qed.

Lemma slice_app user rest :
  slice (String.length user + 1) (user +:+ String ":" rest) = rest.
Proof.
  unfold slice. induction user as [|c user IH]; simpl.
  - rewrite Nat.sub_0_r. clear. induction rest as [|c rest IH]; simpl; [reflexivity|].
    now rewrite IH.
  - exact IH.
Qed.

(** X18. For a header that starts with Basic and decodes to user:password, the
    user holding no colon, the hook lets the request through exactly when the
    password is the API key, whatever the user name is and also when the
    password holds colons; otherwise it answers 401 Invalid credentials. *)
Theorem authenticate_checks_the_password_only (header user password : string) :
  String.prefix "Basic " header = true ->
  base64_utf8 (slice 6 header) = user +:+ String ":" password ->
  indexOf ":" user = None ->
  authenticate base64_utf8 apiKey (Some header)
  = if String.eqb password apiKey then None
    else Some (unauthorized "Invalid credentials.").
Proof.
  intros Hp Hd Hu. unfold authenticate. cbn [default from_option id].
  rewrite Hp, Hd. cbn [negb].
  rewrite (indexOf_app_colon user password Hu), slice_app.
  now destruct (String.eqb password apiKey).
Qed.

Lemma authenticate_demands_basic (authorization : option string) :
  String.prefix "Basic " (default EmptyString authorization) = false ->
  authenticate base64_utf8 apiKey authorization
  = Some (unauthorized "Authorization header with Basic credentials is required.").
Proof. intros H. unfold authenticate. now rewrite H. Qed.

End AuthFacts.

(** X18 at a sample input. *)
Lemma authenticate_checks_the_password_only_witness :
  Auth.authenticate Cases.decode "secret" (Some Cases.basic_header) = None
  /\ Auth.authenticate Cases.decode "hunter2" (Some Cases.basic_header)
     = Some (Auth.unauthorized "Invalid credentials.").
Proof.
  split.
  - apply (authenticate_checks_the_password_only Cases.decode "secret"
             Cases.basic_header "scim" "secret"); reflexivity.
  - apply (authenticate_checks_the_password_only Cases.decode "hunter2"
             Cases.basic_header "scim" "secret"); reflexivity.
Defined.

(** *** middleware/request-logger.ts *)

Section QueryString.
Import RequestLogger.

Lemma append_cons c s t : String c s +:+ t = String c (s +:+ t).
Proof. reflexivity. Qed.

Lemma append_nil s : EmptyString +:+ s = s.
Proof. reflexivity. Qed.

Lemma includes_char_app p c q :
  Str.includes (p +:+ String c q) (String c EmptyString) = true.
Proof.
  induction p as [|d p IH]; rewrite ?append_nil, ?append_cons;
    cbn [Str.includes String.prefix].
  - destruct (ascii_dec c c); [|contradiction]. now destruct q.
  - rewrite IH. apply orb_true_r.
Qed.

Lemma split_at_first c p q :
  Str.includes p (String c EmptyString) = false ->
  Str.split c (p +:+ String c q) = p :: Str.split c q.
Proof.
  induction p as [|d p IH]; rewrite ?append_nil, ?append_cons; cbn [Str.split].
  - now rewrite Ascii.eqb_refl.
  - intros H. cbn [Str.includes String.prefix] in H.
    apply orb_false_iff in H. destruct H as [Hd Hp].
    destruct (Ascii.eqb d c) eqn:E.
    + apply Ascii.eqb_eq in E. subst d.
      destruct (ascii_dec c c); [|contradiction]. now destruct p.
    + now rewrite IH.
Qed.

Lemma split_nonempty c s : Str.split c s <> [].
Proof.
  induction s as [|d s IH]; simpl; [discriminate|].
  destruct (Ascii.eqb d c); [discriminate|].
  destruct (Str.split c s); [contradiction | discriminate].
Qed.

Lemma join_split c s : Str.join (String c EmptyString) (Str.split c s) = s.
Proof.
  induction s as [|d s IH]; [reflexivity|]. cbn [Str.split].
  destruct (Ascii.eqb d c) eqn:E.
  - apply Ascii.eqb_eq in E. subst d.
    pose proof (split_nonempty c s) as Hn.
    destruct (Str.split c s) as [|w ws] eqn:Es; [contradiction|].
    cbn [Str.join]. cbn [Str.join] in IH. simpl. now rewrite IH.
  - pose proof (split_nonempty c s) as Hn.
    destruct (Str.split c s) as [|w ws] eqn:Es; [contradiction|].
    destruct ws as [|w' ws]; cbn [Str.join] in *; simpl; now rewrite <- IH.
Qed.

(** X19. The query string the request logger stores is what follows the first
    question mark of the URL, later question marks included; a URL without a
    question mark stores null. *)
Theorem qs_is_what_follows_the_first_mark (path query : string) :
  Str.includes path "?" = false ->
  qs path = None /\ qs (path +:+ String "?" query) = Some query.
Proof.
  intros H. unfold qs. rewrite H. split; [reflexivity|].
  rewrite (includes_char_app path "?" query).
  rewrite (split_at_first "?" path query H). cbn [tl].
  now rewrite join_split.
Qed.

End QueryString.

(** X19 at a sample input. *)
Lemma qs_is_what_follows_the_first_mark_witness :
  RequestLogger.qs "/scim/v2/Users" = None
  /\ RequestLogger.qs "/scim/v2/Users?count=2&filter=a?b" = Some "count=2&filter=a?b".
Proof.
  apply (qs_is_what_follows_the_first_mark "/scim/v2/Users" "count=2&filter=a?b").
  reflexivity.
Defined.

(** *** backend.ts beside the routes *)

Section BackendBesideRoutes.
Import Row Server Backend BackendOps Notions.
Variable env : Env.
Variable classify : string -> Formatter.ScimErrorInfo.

(** X20. For a row whose cached resource is an object, the backend's
    [rowToScimUser] and the formatter's [formatScimUser] build the same user,
    member by member and in the same order, except that the formatter's meta
    ends with the location; the id is that of the row. *)
Theorem rowToScimUser_is_formatScimUser_without_location (row : ScimUserRow)
    (baseUrl : string) ps :
  scim_resource row = VObj ps ->
  exists members meta,
    rowToScimUser row = Ok (VObj (members ++ [("meta", VObj meta)]))
    /\ Formatter.formatScimUser row baseUrl
       = Ok (VObj (members
                   ++ [("meta",
                        VObj (meta ++ [("location",
                                        VStr (baseUrl +:+ "/scim/v2/Users/"
                                              +:+ id row))]))]))
    /\ Obj.lookup "meta" members = None
    /\ Obj.lookup "location" meta = None
    /\ Obj.lookup "id" members = Some (VStr (id row)).
Proof.
  intros Hres. unfold Formatter.formatScimUser, rowToScimUser. rewrite Hres.
  cbn [JS.get obind].
  eexists [_; _; _; _; _; _; _; _], [_; _; _].
  split; [reflexivity|]. split; [reflexivity|]. repeat split.
Qed.

(** X21. When the backend's error classifier is the formatter's, the backend's
    [deleteUser] and the DELETE route do the same to the cache and the audit
    log, and the route's reply is 204 where the method returns and the SCIM
    error of the thrown error where it throws. *)
Theorem deleteUser_mirrors_DELETE (i : string) (w : World) :
  (forall stderr, classify stderr = Formatter.mapPsErrorToScim stderr) ->
  exists reply out w',
    DELETE env i w = Return reply w'
    /\ deleteUser env classify i w = Return out w'
    /\ reply = match out with
               | inl e => error_reply e
               | inr _ => no_content
               end.
Proof.
  intros Hc. unfold DELETE, deleteUser, bind, db_first_by_id.
  destruct (Db.first_by_id i (scim_users w)) as [row|].
  - destruct (identityOf row) as [adIdentity|].
    + destruct (execRemoveAdUser env adIdentity i w) as [res w1|w1|w1] eqn:E.
      * destruct (negb _ && negb _); do 3 eexists; repeat split; try reflexivity.
        unfold error_reply, classified_error, classified, send, ret.
        cbn [Backend.status Backend.detail Backend.scimType]. now rewrite Hc.
      * exfalso. revert E. unfold execRemoveAdUser, executePowerShell.
        destruct (PowerShell.removeAdUserScript adIdentity).
        destruct (PowerShell.executePowerShell _ _ _ _ _ _). discriminate.
      * exfalso. revert E. unfold execRemoveAdUser, executePowerShell.
        destruct (PowerShell.removeAdUserScript adIdentity).
        destruct (PowerShell.executePowerShell _ _ _ _ _ _). discriminate.
    + do 3 eexists. repeat split; reflexivity.
  - do 3 eexists. repeat split; reflexivity.
Qed.

Lemma user_of_row (row : ScimUserRow) (baseUrl : string) ps :
  scim_resource row = VObj ps ->
  exists members meta,
    rowToScimUser row = Ok (VObj (members ++ [("meta", VObj meta)]))
    /\ Formatter.formatScimUser row baseUrl
       = Ok (VObj (members
                   ++ [("meta",
                        VObj (meta ++ [("location",
                                        VStr (baseUrl +:+ "/scim/v2/Users/"
                                              +:+ id row))]))])).
Proof.
  intros Hres. unfold Formatter.formatScimUser, rowToScimUser. rewrite Hres.
  cbn [JS.get obind].
  eexists [_; _; _; _; _; _; _; _], [_; _; _].
  split; reflexivity.
Qed.

(** X22. For a cached row whose resource is an object, the backend's [getUser]
    returns the user the GET route sends with status 200, without the
    meta.location the route adds; neither changes the state. *)
Theorem getUser_mirrors_GET_one (i baseUrl : string) (w : World) ps row :
  Db.first_by_id i (scim_users w) = Some row -> scim_resource row = VObj ps ->
  exists members meta,
    getUser i w = Return (inr (VObj (members ++ [("meta", VObj meta)]))) w
    /\ GET_one i baseUrl w
       = Return
           {| Server.status := 200; Server.headers := [scim_json];
              Server.body := VObj (members
                            ++ [("meta",
                                 VObj (meta
                                       ++ [("location",
                                            VStr (baseUrl +:+ "/scim/v2/Users/"
                                                  +:+ i))]))]) |} w.
Proof.
  intros Hrow Hres.
  destruct (user_of_row row baseUrl ps Hres) as (members & meta & Hb & Hf).
  apply first_by_id_some in Hrow as Hid. destruct Hid as [_ Hid].
  exists members, meta.
  unfold getUser, GET_one, try_catch, bind, db_first_by_id, send_user, bind, lift.
  rewrite Hrow, Hb, Hf, Hid. split; reflexivity.
Qed.

Lemma formats_together (row : ScimUserRow) (baseUrl : string) :
  match Formatter.formatScimUser row baseUrl, rowToScimUser row with
  | Ok _, Ok _ => True
  | Throws, Throws => True
  | _, _ => False
  end.
Proof.
  unfold Formatter.formatScimUser, rowToScimUser.
  destruct (scim_resource row); cbn; exact Logic.I.
Qed.

(** X23. For a user with a truthy userName, the backend's [createUser] and the
    POST route end in the same state, and end alike: where the method throws a
    backend error the route replies with the SCIM error of it; where it returns
    a user the route replies 201 with the same row formatted; where one fails
    outright so does the other. *)
Theorem createUser_mirrors_POST (user : value) (baseUrl : string) (w : World)
    (userName : value) :
  JS.get user "userName" = Ok userName -> JS.truthy userName = true ->
  match POST env user baseUrl w, createUser env user w with
  | Return reply w1, Return out w2 =>
      w1 = w2
      /\ match out with
         | inl e => reply = error_reply e
         | inr u =>
             Server.status reply = 201%Z
             /\ exists row,
                  Formatter.formatScimUser row baseUrl = Ok (body reply)
                  /\ rowToScimUser row = Ok u
         end
  | Raise w1, Raise w2 => w1 = w2
  | Outside w1, Outside w2 => w1 = w2
  | _, _ => False
  end.
Proof.
  intros Hu Ht. unfold POST, createUser, bind, lift. rewrite Hu, Ht. cbn [negb].
  destruct (samOf userName) as [sam| |]; try reflexivity.
  unfold db_first_by_sam.
  destruct (Db.first_by_sam sam (scim_users w)); [split; reflexivity|].
  destruct (JS.get user "externalId") as [externalId| |]; try reflexivity.
  set (m := match externalId with
            | VUndefined | VNull => uuidv4 env
            | VStr s => ret s
            | _ => fun w0 => Outside w0
            end).
  destruct (m w) as [userId w1|w1|w1]; try reflexivity.
  destruct (Mapping.scimToAdParams user _) as [adParams| |]; try reflexivity.
  destruct (execNewAdUser env _ userId w1) as [psResult w2|w2|w2]; try reflexivity.
  destruct (negb _); [split; reflexivity|].
  destruct (now env w2) as [ts w3|w3|w3]; try reflexivity.
  destruct (db_insert _ w3) as [[] w4|w4|w4]; try reflexivity.
  set (refresh := match PowerShell.extractObjectGuid _ with
                  | Some (String a g) => refreshAdResource env (String a g) userId
                  | _ => ret tt
                  end).
  destruct (refresh w4) as [[] w5|w5|w5]; try reflexivity.
  unfold db_first_by_id, send_user, bind, lift.
  destruct (Db.first_by_id userId (scim_users w5)) as [row|]; [|reflexivity].
  pose proof (formats_together row baseUrl) as Hf.
  destruct (Formatter.formatScimUser row baseUrl) as [u| |] eqn:E1,
           (rowToScimUser row) as [u'| |] eqn:E2; try contradiction;
    [|reflexivity].
  split; [reflexivity|]. split; [reflexivity|]. exists row. split; assumption.
Qed.

Lemma db_update_settles i f w :
  match db_update i f w with Outside _ => False | _ => True end.
Proof. unfold db_update. now destruct (Db.update i f (scim_users w)). Qed.

(** X24. When the backend's error classifier is the formatter's, the backend's
    [replaceUser] and the PUT route end in the same state, and end alike: where
    the method throws a backend error the route replies with the SCIM error of
    it; where it returns a user the route replies 200 with the same row
    formatted; where one fails outright so does the other. *)
Theorem replaceUser_mirrors_PUT (i baseUrl : string) (user : value) (w : World) :
  (forall stderr, classify stderr = Formatter.mapPsErrorToScim stderr) ->
  match PUT env i user baseUrl w, replaceUser env classify i user w with
  | Return reply w1, Return out w2 =>
      w1 = w2
      /\ match out with
         | inl e => reply = error_reply e
         | inr u =>
             Server.status reply = 200%Z
             /\ exists row,
                  Formatter.formatScimUser row baseUrl = Ok (body reply)
                  /\ rowToScimUser row = Ok u
         end
  | Raise w1, Raise w2 => w1 = w2
  | Outside w1, Outside w2 => w1 = w2
  | _, _ => False
  end.
Proof.
  intros Hc. unfold PUT, replaceUser, bind, db_first_by_id, lift.
  destruct (Db.first_by_id i (scim_users w)) as [row|]; [|split; reflexivity].
  destruct (JS.get user "userName") as [userName| |]; try reflexivity.
  set (sam := if JS.truthy userName then _ else _).
  destruct (sam w) as [s w1|w1|w1]; try reflexivity.
  destruct (now env w1) as [ts w2|w2|w2]; try reflexivity.
  destruct (db_update i _ w2) as [[] w3|w3|w3]; try reflexivity.
  destruct (identityOf row) as [adIdentity|]; [|split; reflexivity].
  destruct (Mapping.scimToAdParams user None) as [adParams| |]; try reflexivity.
  destruct (execSetAdUser env adIdentity _ i w3) as [psResult w4|w4|w4];
    try reflexivity.
  unfold Server.after_set, BackendOps.after_set, bind.
  destruct (negb _).
  - destruct (now env w4) as [ts' w5|w5|w5]; try reflexivity.
    destruct (db_update i _ w5) as [[] w6|w6|w6]; try reflexivity.
    split; [reflexivity|].
    unfold error_reply, classified_error, classified, send, ret.
    cbn [Backend.status Backend.detail Backend.scimType]. now rewrite Hc.
  - unfold finish, bind.
    destruct (mark_synced env i w4) as [[] w5|w5|w5]; try reflexivity.
    destruct (refreshAdResource env adIdentity i w5) as [[] w6|w6|w6];
      try reflexivity.
    unfold db_first_by_id, send_user, bind, lift.
    destruct (Db.first_by_id i (scim_users w6)) as [r|]; [|reflexivity].
    pose proof (formats_together r baseUrl) as Hf.
    destruct (Formatter.formatScimUser r baseUrl) as [u| |] eqn:E1,
             (rowToScimUser r) as [u'| |] eqn:E2; try contradiction;
      [|reflexivity].
    split; [reflexivity|]. split; [reflexivity|]. exists r. split; assumption.
Qed.

End BackendBesideRoutes.

(** X20 at a sample input. *)
Lemma rowToScimUser_is_formatScimUser_without_location_witness :
  exists members meta,
    Backend.rowToScimUser Sample.alice_row
    = Ok (VObj (members ++ [("meta", VObj meta)]))
    /\ Formatter.formatScimUser Sample.alice_row "https://idp"
       = Ok (VObj (members
                   ++ [("meta",
                        VObj (meta ++ [("location",
                                        VStr "https://idp/scim/v2/Users/abc")]))]))
    /\ Obj.lookup "meta" members = None
    /\ Obj.lookup "location" meta = None
    /\ Obj.lookup "id" members = Some (VStr "abc").
Proof.
  exact (rowToScimUser_is_formatScimUser_without_location Sample.alice_row
           "https://idp" _ eq_refl).
Defined.

(** X21 at a sample input. *)
Lemma deleteUser_mirrors_DELETE_witness :
  exists reply out w',
    Server.DELETE Sample.env_denied "abc" Sample.with_alice = Server.Return reply w'
    /\ BackendOps.deleteUser Sample.env_denied Formatter.mapPsErrorToScim "abc"
         Sample.with_alice = Server.Return out w'
    /\ reply = match out with
               | inl e => Notions.error_reply e
               | inr _ => Notions.no_content
               end.
Proof.
  apply (deleteUser_mirrors_DELETE Sample.env_denied Formatter.mapPsErrorToScim "abc"
           Sample.with_alice).
  reflexivity.
Defined.

(** X22 at a sample input. *)
Lemma getUser_mirrors_GET_one_witness :
  exists members meta,
    BackendOps.getUser "abc" Sample.with_alice
    = Server.Return (inr (VObj (members ++ [("meta", VObj meta)]))) Sample.with_alice
    /\ Server.GET_one "abc" "https://idp" Sample.with_alice
       = Server.Return
           {| Server.status := 200; Server.headers := [Server.scim_json];
              Server.body :=
                VObj (members
                      ++ [("meta",
                           VObj (meta
                                 ++ [("location",
                                      VStr "https://idp/scim/v2/Users/abc")]))]) |}
           Sample.with_alice.
Proof.
  exact (getUser_mirrors_GET_one "abc" "https://idp" Sample.with_alice _
           Sample.alice_row eq_refl eq_refl).
Defined.

(** X23 at a sample input. *)
Lemma createUser_mirrors_POST_witness :
  match Server.POST Sample.env_created Sample.alice "https://idp" Sample.empty,
        Backend.createUser Sample.env_created Sample.alice Sample.empty with
  | Server.Return reply w1, Server.Return out w2 =>
      w1 = w2
      /\ match out with
         | inl e => reply = Notions.error_reply e
         | inr u =>
             Server.status reply = 201%Z
             /\ exists row,
                  Formatter.formatScimUser row "https://idp" = Ok (Server.body reply)
                  /\ Backend.rowToScimUser row = Ok u
         end
  | Server.Raise w1, Server.Raise w2 => w1 = w2
  | Server.Outside w1, Server.Outside w2 => w1 = w2
  | _, _ => False
  end.
Proof.
  apply (createUser_mirrors_POST Sample.env_created Sample.alice "https://idp"
           Sample.empty (VStr "alice@ex.com")); reflexivity.
Defined.

(** X24 at a sample input. *)
Lemma replaceUser_mirrors_PUT_witness :
  match Server.PUT Sample.env_created "abc" (VObj Sample.carol) "https://idp"
          Sample.with_alice,
        BackendOps.replaceUser Sample.env_created Formatter.mapPsErrorToScim "abc"
          (VObj Sample.carol) Sample.with_alice with
  | Server.Return reply w1, Server.Return out w2 =>
      w1 = w2
      /\ match out with
         | inl e => reply = Notions.error_reply e
         | inr u =>
             Server.status reply = 200%Z
             /\ exists row,
                  Formatter.formatScimUser row "https://idp" = Ok (Server.body reply)
                  /\ Backend.rowToScimUser row = Ok u
         end
  | Server.Raise w1, Server.Raise w2 => w1 = w2
  | Server.Outside w1, Server.Outside w2 => w1 = w2
  | _, _ => False
  end.
Proof.
  apply (replaceUser_mirrors_PUT Sample.env_created Formatter.mapPsErrorToScim "abc"
           "https://idp" (VObj Sample.carol) Sample.with_alice).
  reflexivity.
Defined.

(** *** routes/scim/users.ts: the last_error column *)

Section ErrorColumn.
Import Row Server Spec Notions.
Variable env : Env.

Local Abbreviation Rec := (fun t : Db.table => Forall error_recorded t /\ True).

Lemma recorded_refresh r ts a :
  error_recorded r -> error_recorded (Db.set_updated_at ts (Db.set_ad_resource a r)).
Proof. intros H. exact H. Qed.

Lemma recorded_synced r ts :
  error_recorded
    (Db.set_updated_at ts (Db.set_last_error None (Db.set_sync_status synced r))).
Proof. split; simpl; [discriminate | intros e; discriminate]. Qed.

Lemma recorded_failure r ts stderr :
  error_recorded
    (Db.set_updated_at ts
       (Db.set_last_error (Some (Str.substring 0 2000 stderr))
          (Db.set_sync_status error r))).
Proof.
  split; simpl; [discriminate|]. intros e [= <-].
  unfold Str.substring. apply substring_length.
Qed.

Lemma recorded_pending r ts (f : ScimUserRow -> ScimUserRow) :
  last_error (f r) = last_error r ->
  error_recorded r ->
  error_recorded (Db.set_updated_at ts (Db.set_sync_status pending (f r))).
Proof.
  intros Hf [_ H]. split; simpl; [discriminate|]. rewrite Hf. exact H.
Qed.

Lemma recorded_update i f t t' :
  (forall r, error_recorded r -> error_recorded (f r)) ->
  (forall r, id (f r) = id r) ->
  Rec t -> Db.update i f t = Some t' -> Rec t'.
Proof. apply (Inv_update error_recorded (fun _ => True)). Qed.

Lemma recorded_finish i ident baseUrl :
  hoare Rec
    (let! _ := mark_synced env i in
     let! _ := refreshAdResource env ident i in
     let! updated := db_first_by_id i in
     send_user 200 [scim_json] updated baseUrl)
    (fun _ t => Rec t) Rec.
Proof.
  apply (hoare_finish env error_recorded (fun _ => True)).
  - intros r ts a. apply recorded_refresh.
  - intros r ts _. apply recorded_synced.
Qed.

Lemma recorded_after_set res i (k : M Reply) :
  hoare Rec k (fun _ t => Rec t) Rec ->
  hoare Rec (after_set env res i k) (fun _ t => Rec t) Rec.
Proof.
  intros Hk. unfold after_set. destruct (negb _); [|exact Hk].
  hstep. eapply hoare_seq with (F := fun _ => True).
  - apply hoare_db_update; [auto|]. intros t t' Ht Hu. split; [|exact Logic.I].
    refine (recorded_update _ _ _ _ _ _ Ht Hu); [|reflexivity].
    intros r _. apply recorded_failure.
  - intros _ _. unfold classified. apply hoare_send. auto.
Qed.

Lemma PUT_recorded i user baseUrl :
  hoare Rec (PUT env i user baseUrl) (fun _ t => Rec t) Rec.
Proof.
  unfold PUT. hstep.
  destruct a as [row|]; [|unfold not_found; apply hoare_send; auto].
  hstep.
  eapply hoare_seq with (F := fun _ => True).
  { destruct (JS.truthy a).
    - hstep. apply hoare_ret. auto.
    - apply hoare_ret. auto. }
  intros sam _. hstep.
  eapply hoare_seq with (F := fun _ => True).
  { apply hoare_db_update; [auto|]. intros t t' Ht Hu. split; [|exact Logic.I].
    refine (recorded_update _ _ _ _ _ _ Ht Hu); [|reflexivity].
    intros r Hr.
    apply (recorded_pending r _
             (fun r => Db.set_sam_account_name sam (Db.set_scim_resource _ r)));
      [reflexivity | exact Hr]. }
  intros _ _.
  destruct (identityOf row); [|unfold no_identity; apply hoare_send; auto].
  hstep. hstep. apply recorded_after_set, recorded_finish.
Qed.

Lemma PATCH_recorded i ops baseUrl :
  hoare Rec (PATCH env i ops baseUrl) (fun _ t => Rec t) Rec.
Proof.
  unfold PATCH. destruct ops as [[|o ops]|]; try (apply hoare_send; auto).
  hstep.
  destruct a as [row|]; [|unfold not_found; apply hoare_send; auto].
  hstep. destruct a as [patchedResource changedFields].
  hstep.
  eapply hoare_seq with (F := fun _ => True).
  { apply hoare_db_update; [auto|]. intros t t' Ht Hu. split; [|exact Logic.I].
    refine (recorded_update _ _ _ _ _ _ Ht Hu); [|reflexivity].
    intros r Hr.
    apply (recorded_pending r _ (fun r => Db.set_scim_resource _ r));
      [reflexivity | exact Hr]. }
  intros _ _.
  destruct (identityOf row) as [ident|];
    [|unfold no_identity; apply hoare_send; auto].
  hstep as adParams HadParams.
  destruct (PowerShell.without _ adParams); [apply recorded_finish|].
  hstep. apply recorded_after_set, recorded_finish.
Qed.

(** X25. Every route keeps the discipline of the last_error column, however it
    ends: if every cached row in status error has a last_error and no stored
    last_error is longer than 2000 characters before a POST, PUT, PATCH or
    DELETE, the same holds after it. *)
Theorem last_error_is_recorded_and_short :
  (forall user baseUrl, keeps (Forall error_recorded) (POST env user baseUrl))
  /\ (forall i user baseUrl, keeps (Forall error_recorded) (PUT env i user baseUrl))
  /\ (forall i ops baseUrl,
        keeps (Forall error_recorded) (PATCH env i ops baseUrl))
  /\ (forall i, keeps (Forall error_recorded) (DELETE env i)).
Proof.
  assert (K : forall A (m : M A),
             hoare Rec m (fun _ t => Rec t) Rec -> keeps (Forall error_recorded) m).
  { intros A m H w Hw. specialize (H w (conj Hw Logic.I)).
    destruct (m w); simpl; tauto. }
  repeat split; intros; apply K.
  - apply (POST_Inv env error_recorded (fun _ => True)); auto.
    intros uid guid s v ts _. split; simpl; [discriminate | intros e; discriminate].
  - apply PUT_recorded.
  - apply PATCH_recorded.
  - apply DELETE_Inv.
Qed.

End ErrorColumn.

(** *** routes/scim/users.ts: a replace the directory refuses *)

Section ReplaceFailure.
Import Row Server Spec Notions.
Variable env : Env.
Hypothesis tool_fails : forall n script, exits_nonzero (powershell_exe env n script).


End ReplaceFailure.


(** *** routes/scim/users.ts: the read-back, and patches that map to nothing *)

Section ReadBack.
Import Row Server Spec Notions.
Variable env : Env.

Lemma refresh_run (adIdentity scimUserId : string) (w : World) :
  exists w' audit,
    refreshAdResource env adIdentity scimUserId w = Return tt w'
    /\ powershell_executions w' = powershell_executions w ++ [audit]
    /\ PowerShell.cmdlet audit = "Get-ADUser"
    /\ (scim_users w' = scim_users w
        \/ exists ts a,
             Db.update scimUserId
               (fun r => Db.set_updated_at ts (Db.set_ad_resource (Some a) r))
               (scim_users w)
             = Some (scim_users w')).
Proof.
  unfold refreshAdResource, try_catch, bind, execGetAdUser, executePowerShell.
  destruct (PowerShell.getAdUserScript adIdentity) as [script logged] eqn:Es.
  unfold bind.
  destruct (PowerShell.executePowerShell _ _ _ _ _ _) as [res audit] eqn:Erun.
  assert (Hc : PowerShell.cmdlet audit = "Get-ADUser").
  { unfold PowerShell.executePowerShell in Erun.
    destruct (powershell_exe env (steps w) script); injection Erun as _ <-;
      reflexivity. }
  unfold ret. destruct (_ || _).
  - do 2 eexists. split; [reflexivity|]. repeat split; [exact Hc | now left].
  - unfold now, db_update. cbn [scim_users tick].
    destruct (Db.update scimUserId _ (scim_users w)) as [t'|] eqn:U.
    + do 2 eexists. split; [reflexivity|]. repeat split; [exact Hc|].
      right. do 2 eexists. exact U.
    + do 2 eexists. split; [reflexivity|]. repeat split; [exact Hc | now left].
Qed.

(** X27. [refreshAdResource] never fails: it always returns, writes exactly one
    audit row, of Get-ADUser, and either leaves the cache as it was or updates
    ad_resource and updated_at of the row of the given id. *)
Theorem refreshAdResource_swallows (adIdentity scimUserId : string) (w : World) :
  exists w' audit,
    refreshAdResource env adIdentity scimUserId w = Return tt w'
    /\ powershell_executions w' = powershell_executions w ++ [audit]
    /\ PowerShell.cmdlet audit = "Get-ADUser"
    /\ (scim_users w' = scim_users w
        \/ exists ts a,
             Db.update scimUserId
               (fun r => Db.set_updated_at ts (Db.set_ad_resource (Some a) r))
               (scim_users w)
             = Some (scim_users w')).
Proof. apply refresh_run. Qed.

(** X28. A PATCH of a cached, identifiable user whose changed fields map to no
    directory attribute starts no Set-ADUser: the audit log gains at most one
    row, of Get-ADUser; and if the route replies, the reply is 200 and the row
    is synced, without last_error, holding the patched resource with the id. *)
Theorem patch_of_unmapped_attributes_skips_Set_ADUser (i baseUrl : string)
    (o : PatchApplier.PatchOperation value)
    (ops : list (PatchApplier.PatchOperation value)) (w : World)
    (row : ScimUserRow) (adIdentity : string) (patched changed : value)
    (adParams : Mapping.AdUserParams) :
  Db.first_by_id i (scim_users w) = Some row ->
  identityOf row = Some adIdentity ->
  applyPatchOps_parsed (scim_resource row) (o :: ops) = Ok (patched, changed) ->
  Mapping.scimToAdParams changed None = Ok adParams ->
  PowerShell.without ["Name"; "Path"] adParams = [] ->
  let run := PATCH env i (Some (o :: ops)) baseUrl w in
  (powershell_executions (world_of run) = powershell_executions w
   \/ exists audit,
        powershell_executions (world_of run) = powershell_executions w ++ [audit]
        /\ PowerShell.cmdlet audit = "Get-ADUser")
  /\ forall reply w',
       run = Return reply w' ->
       status reply = 200%Z
       /\ exists r,
            Db.first_by_id i (scim_users w') = Some r
            /\ sync_status r = synced /\ last_error r = None
            /\ scim_resource r
               = JSON.reparse (VObj (Obj.set "id" (VStr i) (JS.spread patched))).
Proof.
  intros Hrow Hid Hpatch Hmap Hnone. cbv zeta.
  remember (PATCH env i (Some (o :: ops)) baseUrl w) as run eqn:Erun.
  unfold PATCH, bind, db_first_by_id in Erun. rewrite Hrow in Erun.
  unfold lift at 1 in Erun. rewrite Hpatch in Erun.
  unfold now at 1 in Erun. unfold db_update at 1 in Erun.
  cbn [scim_users tick] in Erun.
  destruct (Db.update i _ (scim_users w)) as [t1|] eqn:U1;
    [|subst run; split; [now left | intros ? ? [=]]].
  rewrite Hid in Erun. unfold lift at 1 in Erun. rewrite Hmap, Hnone in Erun.
  unfold mark_synced, bind, now, db_update in Erun.
  cbn [scim_users tick with_users] in Erun.
  destruct (Db.update i _ t1) as [t2|] eqn:U2;
    [|subst run; split; [now left | intros ? ? [=]]].
  set (w2 := with_users t2 _) in Erun.
  destruct (refresh_run adIdentity i w2) as (w3 & audit & Hrefresh & Ha & Hc & Ht).
  rewrite Hrefresh in Erun.
  unfold db_first_by_id, send_user, bind, lift in Erun.
  pose proof (update_first _ _ _ _ _ Hrow U1 (fun r => eq_refl)) as F1.
  pose proof (update_first _ _ _ _ _ F1 U2 (fun r => eq_refl)) as F2.
  assert (F3 : exists r, Db.first_by_id i (scim_users w3) = Some r
                         /\ sync_status r = synced /\ last_error r = None
                         /\ scim_resource r
                            = JSON.reparse
                                (VObj (Obj.set "id" (VStr i) (JS.spread patched)))).
  { destruct Ht as [-> | (ts & a & U3)].
    - eexists. split; [exact F2|]. repeat split.
    - pose proof (update_first _ _ _ _ _ F2 U3 (fun r => eq_refl)) as F3.
      eexists. split; [exact F3|]. repeat split. }
  destruct F3 as (r & Fr & Hr).
  rewrite Fr in Erun.
  destruct (Formatter.formatScimUser r baseUrl) as [u| |]; subst run;
    cbn [world_of];
    (split; [right; exists audit; split; [exact Ha | exact Hc]|]);
    try (intros ? ? [=]; fail).
  unfold send, ret. intros reply w' [= <- <-]. split; [reflexivity|].
  exists r. split; [exact Fr | exact Hr].
Qed.

End ReadBack.

(** X28 at a sample input. *)
Lemma patch_of_unmapped_attributes_skips_Set_ADUser_witness :
  let run := Server.PATCH Sample.env_created "abc" (Some [Cases.set_title])
               "https://idp" Sample.with_alice in
  (Server.powershell_executions (Spec.world_of run)
   = Server.powershell_executions Sample.with_alice
   \/ exists audit,
        Server.powershell_executions (Spec.world_of run)
        = Server.powershell_executions Sample.with_alice ++ [audit]
        /\ PowerShell.cmdlet audit = "Get-ADUser")
  /\ forall reply w',
       run = Server.Return reply w' ->
       Server.status reply = 200%Z
       /\ exists r,
            Db.first_by_id "abc" (Server.scim_users w') = Some r
            /\ Row.sync_status r = Row.synced /\ Row.last_error r = None
            /\ Row.scim_resource r
               = JSON.reparse
                   (VObj (Obj.set "id" (VStr "abc")
                            (JS.spread
                               (VObj [("userName", VStr "alice@ex.com");
                                      ("externalId", VStr "abc");
                                      ("name", VObj [("givenName", VStr "Al");
                                                     ("familyName", VStr "Ice")]);
                                      ("active", VBool true); ("id", VStr "abc");
                                      ("title", VStr "Boss")])))).
Proof.
  apply (patch_of_unmapped_attributes_skips_Set_ADUser Sample.env_created "abc"
           "https://idp" Cases.set_title [] Sample.with_alice Sample.alice_row
           Sample.guid _ (VObj [("title", VStr "Boss")]) [("Name", VUndefined)]);
    reflexivity.
Defined.
